(** * Invoice OCR backend: a shallow embedding and its checked properties

  The development follows the layout of the backend:

  - [Py]          the fragment of the Python runtime the services rely on
                  (truthiness, [str], [round], [lower], [endswith],
                  exceptions);
  - [Payload]     the JSON the vendor returns, as far as the code reads it;
  - [World]       the environment and the state of a request, and the
                  effect monad with [try]/[except]/[finally];
  - [Effects]     the calls that leave the process: clock, HTTP, file
                  system, database driver;
  - [UAA]         [app/services/uaa_service.py];
  - [DocumentAI]  [app/services/document_ai_service.py];
  - [Models]      [app/models/invoice.py];
  - [Database]    [app/services/database_service.py];
  - [Router]      [app/routers/invoice_router.py];
  - [Reference]   the notions the statements are phrased with;
  - [Samples]     concrete payloads, environments and states;
  - [Config]      [app/config.py];
  - [Health]      the health check of [app/routers/invoice_router.py];
  - [Main]        the startup half of [lifespan] in [app/main.py];
  - [Notions]     further notions, for the later sections;
  - [MoreSamples] further environments and states.

  Conventions of the model:

  - a confidence is a Python [float]: an IEEE 754 binary64 number, with
    the sum, the division and [round(x, 2)] rounding as they do on such
    numbers in CPython 3.11; a JSON number is read as the double nearest
    to it.  Instants and sizes in KB are exact rationals;
  - where the code tells a key that is absent from a key that holds
    [null], the payload does too ([entry]); elsewhere both are [None].
    A key that holds a value holds one of the JSON type the code expects;
  - the remote services always answer with an HTTP response; calls to the
    file system and to the database driver fail when the environment says
    so.  The file system refuses a path as a whole (a name too long, a
    directory that may not be searched: every call on the path fails, the
    test for existence included) or fails a single call;
  - the database driver commits every statement as it runs: the service
    connects without asking for anything else, and that is the driver's
    default.  The order of rows with the same upload instant is the
    store's choice, query by query;
  - requests run one at a time;
  - [UAA], [DocumentAI] and [Router] take the service key as loaded and
    complete; [Config], [Health] and [Main] model its loading and the
    reads of its entries, with paths joined as on POSIX. *)

From stdpp Require Import gmap strings list fin_maps sorting.
From Stdlib Require Import Ascii QArith DecimalString Lqa.
From Stdlib Require Import Floats.SpecFloat.

Open Scope Z_scope.

(* ===================================================================== *)
(** * The Python runtime fragment *)
(* ===================================================================== *)

Module Py.

(** Exceptions the backend raises or receives.  All of them are
    subclasses of [Exception]; [HTTPException] is the one FastAPI turns
    into a response with the given status. *)
Inductive exn : Type :=
| HTTPException (status_code : Z) (detail : string)
| RequestValidationError (detail : string)
| Exception (msg : string)
| HTTPError (msg : string)
| KeyError (key : string)
| TypeError (msg : string)
| AttributeError (msg : string)
| OSError (msg : string)
| DBError (msg : string).

(** [str(int)] *)
Definition str_of_Z (z : Z) : string :=
  NilZero.string_of_int (Z.to_int z).

(** [str(e)] for an exception [e]. *)
Definition str_of_exn (e : exn) : string :=
  match e with
  | HTTPException c d => str_of_Z c +:+ ": " +:+ d
  | RequestValidationError d => d
  | Exception m => m
  | HTTPError m => m
  | KeyError k => "'" +:+ k +:+ "'"
  | TypeError m => m
  | AttributeError m => m
  | OSError m => m
  | DBError m => m
  end.

Definition is_HTTPException (e : exn) : bool :=
  match e with HTTPException _ _ => true | _ => false end.

Definition is_KeyError (e : exn) : bool :=
  match e with KeyError _ => true | _ => false end.

(** The result of running a block: it completes with a value or it
    raises. *)
Inductive outcome (A : Type) : Type :=
| Return (a : A)
| Raise (e : exn).
Arguments Return {A} a.
Arguments Raise {A} e.

(** Truthiness of the values the code tests with a bare [if]. *)
Definition truthy_str (s : string) : bool :=
  match s with EmptyString => false | String _ _ => true end.

Definition truthy_opt_str (o : option string) : bool :=
  match o with None => false | Some s => truthy_str s end.

Definition truthy_Q (q : Q) : bool := negb (Qeq_bool q 0).

(** [round(x)] to the nearest integer, ties to the even neighbour. *)
Definition round_half_even (q : Q) : Z :=
  let n := Qnum q in
  let d := Z.pos (Qden q) in
  let fl := n / d in
  match (2 * (n mod d)) ?= d with
  | Lt => fl
  | Gt => fl + 1
  | Eq => if Z.even fl then fl else fl + 1
  end.

(** [round(x, 2)] of an exact number. *)
Definition round2 (q : Q) : Q :=
  Qmake (round_half_even (q * 100)) 100.

(** ** Floats

    A Python [float] is an IEEE 754 binary64 number: 53 bits of
    precision, exponents below 1024.  Every operation gives the double
    nearest to the exact result, ties to the even mantissa. *)
Definition float : Type := spec_float.
Definition float_prec : Z := 53.
Definition float_emax : Z := 1024.

(** [float(n)] for an integer [n]. *)
Definition float_of_Z (n : Z) : float :=
  binary_normalize float_prec float_emax n 0 false.

(** [x + y] and [x / y] on floats. *)
Definition float_add (x y : float) : float := SFadd float_prec float_emax x y.
Definition float_div (x y : float) : float := SFdiv float_prec float_emax x y.

(** The float a decimal numeral [n/d] is read as, for [n] and [d] below
    2^53: the double nearest to the quotient. *)
Definition float_of_decimal (n d : Z) : float :=
  float_div (float_of_Z n) (float_of_Z d).

(** [bool(x)]: false for both zeros. *)
Definition truthy_float (x : float) : bool :=
  match x with S754_zero _ => false | _ => true end.

(** [sum(xs)]: the values are added one after the other to a total that
    starts from [0], each addition rounded, as CPython does up to 3.11.
    (From 3.12 on [sum] carries a correction term for floats, which can
    change the last bit of the total.) *)
Definition py_sum (xs : list float) : float :=
  fold_left float_add xs (float_of_Z 0).

(** [round(x, 2)] on a float: the exact value of [x] is rounded to a
    whole number of hundredths, ties to even, and the result is the
    double nearest to that number.  A float without a fractional part,
    an infinity and a NaN are returned as they are. *)
Definition float_round2 (x : float) : float :=
  match x with
  | S754_finite s m e =>
      if 0 <=? e then x
      else
        match round_half_even (Qmake (Z.pos m * 100) (2 ^ Z.to_pos (- e))) with
        | Z.pos hundredths => float_div (S754_finite s hundredths 0) (float_of_Z 100)
        | _ => S754_zero s
        end
  | _ => x
  end.

(** [s.lower()] on ASCII letters. *)
Definition lower_ascii (c : ascii) : ascii :=
  let n := nat_of_ascii c in
  if ((65 <=? n) && (n <=? 90))%nat then ascii_of_nat (n + 32) else c.

Fixpoint lower (s : string) : string :=
  match s with
  | EmptyString => EmptyString
  | String c s' => String (lower_ascii c) (lower s')
  end.

(** [s.endswith(suffix)] *)
Definition endswith (s suffix : string) : bool :=
  let n := String.length s in
  let k := String.length suffix in
  ((k <=? n)%nat && String.eqb (String.substring (n - k) k s) suffix).

End Py.

(* ===================================================================== *)
(** * The vendor payload *)
(* ===================================================================== *)

Module Payload.
Import Py.

(** A JSON scalar in the [value] slot of a header field.  [JNull] also
    stands for an absent key, as [field.get("value")] does. *)
Inductive jvalue : Type :=
| JNull
| JBool (b : bool)
| JInt (z : Z)
| JStr (s : string).

(** [bool(v)] *)
Definition truthy (v : jvalue) : bool :=
  match v with
  | JNull => false
  | JBool b => b
  | JInt z => negb (z =? 0)
  | JStr s => truthy_str s
  end.

(** [str(v)] *)
Definition str (v : jvalue) : string :=
  match v with
  | JNull => "None"
  | JBool true => "True"
  | JBool false => "False"
  | JInt z => str_of_Z z
  | JStr s => s
  end.

(** What a JSON object holds under a key, where the code tells the
    cases apart: the key is absent, it holds [null], or it holds a value. *)
Inductive entry (A : Type) : Type :=
| Absent
| Null
| Value (a : A).
Arguments Absent {A}.
Arguments Null {A}.
Arguments Value {A} a.

(** One entry of [extraction.headerFields].  [None] in [name] or
    [confidence] is an absent (or null) key: the loop treats both alike. *)
Record HeaderField : Type := mkField {
  field_name : option string;
  field_value : jvalue;
  field_confidence : option float
}.

(** The body of a job-status response, as far as the code reads it.
    [result_status] is [None] for an absent (or null) key; the value of
    [result_error] is the text an f-string shows for what the key holds;
    [result_extraction] is the object under "extraction", as the entry
    under its key "headerFields".  [serialized] is the text [json.dumps]
    gives for the whole body. *)
Record ExtractionResult : Type := mkResult {
  result_status : option string;
  result_error : entry string;
  result_extraction : entry (entry (list HeaderField));
  serialized : string
}.

(** The header fields a result lists; none when it holds no list. *)
Definition header_fields_of (r : ExtractionResult) : list HeaderField :=
  match result_extraction r with
  | Value (Value fs) => fs
  | _ => []
  end.

End Payload.

(* ===================================================================== *)
(** * The world a request runs in *)
(* ===================================================================== *)

Module World.
Import Py Payload.

(** ** Replies of the remote services *)

(** Reply of the identity endpoint to [POST {uaa_url}/oauth/token]. *)
Record TokenResponse : Type := mkTokenResponse {
  token_status_code : Z;
  token_text : string;
  access_token : entry string;     (* "access_token" in response.json() *)
  expires_in : entry Q             (* "expires_in" in response.json() *)
}.

(** Reply of the vendor to [POST .../document/jobs]. *)
Record UploadResponse : Type := mkUploadResponse {
  upload_status_code : Z;
  upload_text : string;
  upload_id : option string        (* response_data.get("id") *)
}.

(** Reply of the vendor to [GET .../document/jobs/{id}]. *)
Record PollResponse : Type := mkPollResponse {
  poll_status_code : Z;
  poll_text : string;
  poll_json : ExtractionResult     (* response.json() *)
}.

(** ** The INVOICES table *)

Record Row : Type := mkRow {
  INVOICE_ID : Z;
  INVOICE_NUMBER : string;
  VENDOR_NAME : string;
  UPLOAD_TIMESTAMP : option Z;
  FILE_NAME : string;
  FILE_SIZE_KB : Q;
  RAW_TEXT : string;
  STATUS : string;
  ERROR_MESSAGE : option string;
  CREATED_AT : option Z
}.

(** The parameters bound to the [INSERT INTO INVOICES] statement. *)
Record InsertArgs : Type := mkInsertArgs {
  arg_invoice_number : string;
  arg_vendor_name : string;
  arg_file_name : string;
  arg_file_size_kb : Q;
  arg_raw_text : string;
  arg_status : string;
  arg_error_message : option string
}.

(** The five statements the service sends. *)
Inductive statement : Type :=
| INSERT_INVOICE (args : InsertArgs)
| SELECT_CURRENT_IDENTITY
| SELECT_BY_ID (invoice_id : Z)
| SELECT_PAGE (limit offset : Z)
| SELECT_ONE_FROM_DUMMY.

(** Calls into the database driver. *)
Inductive db_op : Type :=
| Connect
| Execute (s : statement)
| Commit
| Rollback
| Close.

(** Calls into the file system. *)
Inductive fs_op : Type :=
| Mkdir
| OpenWrite
| Write
| OpenRead
| Remove.

(** What a run leaves behind, in order. *)
Inductive event : Type :=
| EvTokenRequest
| EvUpload (file_path : string)
| EvPoll (document_id : string)
| EvSleep (seconds : Z)
| EvDb (op : db_op)
| EvFs (op : fs_op) (path : string).

(** ** The environment: configuration and the behaviour of everything
    outside the process.  Nothing in a run changes it. *)
Record Env : Type := mkEnv {
  MAX_FILE_SIZE_MB : Z;
  UPLOAD_DIR : string;
  (** [time.time()] at the n-th reading of the clock *)
  clock : nat -> Q;
  (** [datetime.now().strftime("%Y%m%d_%H%M%S")] *)
  strftime_now : string;
  (** the identity endpoint's reply to the n-th token request *)
  token_endpoint : nat -> TokenResponse;
  (** the vendor's reply to the upload of a document *)
  upload_endpoint : list Byte.byte -> UploadResponse;
  (** the vendor's reply to the n-th poll, for a job identifier *)
  poll_endpoint : string -> nat -> PollResponse;
  (** the message of the error, if any, the driver raises at its n-th call *)
  db_fault : nat -> db_op -> option string;
  (** defaults the store assigns to the row with a given identifier *)
  db_upload_timestamp : Z -> option Z;
  db_created_at : Z -> option Z;
  (** the rank the store gives a row when the query that is the driver's
      n-th call sorts rows with the same upload instant: lower ranks first *)
  db_row_order : nat -> Row -> Z;
  (** the message of the error, if any, with which the file system
      refuses every call on a path *)
  fs_refused : string -> option string;
  (** the message of the error, if any, a single call on a path raises *)
  fs_op_fault : fs_op -> string -> option string
}.

(** The message of the error, if any, a file-system call raises. *)
Definition fs_fault (env : Env) (op : fs_op) (path : string) : option string :=
  match fs_refused env path with
  | Some msg => Some msg
  | None => fs_op_fault env op path
  end.

(** ** The state a run changes *)

(** The [UAAService] singleton. *)
Record UAAService : Type := mkUAA {
  _cached_token : option string;
  _token_expires_at : Q
}.

(** An open connection: the last identity value generated on it.  It
    holds no rows of its own: the driver commits each statement as it
    runs. *)
Record Session : Type := mkSession {
  current_identity : option Z
}.

Record Store : Type := mkStore {
  table : list Row;              (* the rows of INVOICES *)
  next_id : Z;                   (* the identity sequence *)
  session : option Session;      (* the open connection, if any *)
  db_calls : nat                 (* driver calls made so far *)
}.

Record State : Type := mkState {
  uaa_service : UAAService;
  store : Store;
  files : gmap string (list Byte.byte);
  ticks : nat;                   (* clock readings made so far *)
  token_requests : nat;          (* token requests made so far *)
  polls : nat;                   (* polls made so far *)
  trace : list event
}.

Definition set_uaa_service (f : UAAService -> UAAService) (st : State) : State :=
  mkState (f (uaa_service st)) (store st) (files st) (ticks st)
          (token_requests st) (polls st) (trace st).
Definition set_store (f : Store -> Store) (st : State) : State :=
  mkState (uaa_service st) (f (store st)) (files st) (ticks st)
          (token_requests st) (polls st) (trace st).
Definition set_files (f : gmap string (list Byte.byte) -> gmap string (list Byte.byte))
           (st : State) : State :=
  mkState (uaa_service st) (store st) (f (files st)) (ticks st)
          (token_requests st) (polls st) (trace st).
Definition set_ticks (f : nat -> nat) (st : State) : State :=
  mkState (uaa_service st) (store st) (files st) (f (ticks st))
          (token_requests st) (polls st) (trace st).
Definition set_token_requests (f : nat -> nat) (st : State) : State :=
  mkState (uaa_service st) (store st) (files st) (ticks st)
          (f (token_requests st)) (polls st) (trace st).
Definition set_polls (f : nat -> nat) (st : State) : State :=
  mkState (uaa_service st) (store st) (files st) (ticks st)
          (token_requests st) (f (polls st)) (trace st).
Definition set_trace (f : list event -> list event) (st : State) : State :=
  mkState (uaa_service st) (store st) (files st) (ticks st)
          (token_requests st) (polls st) (f (trace st)).

Definition set_session (f : option Session -> option Session) (s : Store) : Store :=
  mkStore (table s) (next_id s) (f (session s)) (db_calls s).

(** ** The effect monad: a block reads the environment, changes the
    state, and returns or raises.  The state changes made before a
    [raise] stay. *)
Definition M (A : Type) : Type := Env -> State -> outcome A * State.

Definition ret {A} (a : A) : M A := fun _ st => (Return a, st).

Definition raise {A} (e : exn) : M A := fun _ st => (Raise e, st).

Definition bind {A B} (m : M A) (k : A -> M B) : M B :=
  fun env st =>
    match m env st with
    | (Return a, st1) => k a env st1
    | (Raise e, st1) => (Raise e, st1)
    end.

(** [try: body  except Exception as e: handler(e)] *)
Definition try_except {A} (body : M A) (handler : exn -> M A) : M A :=
  fun env st =>
    match body env st with
    | (Return a, st1) => (Return a, st1)
    | (Raise e, st1) => handler e env st1
    end.

(** [try: body  finally: cleanup].  An exception raised by the cleanup
    replaces the outcome of the body. *)
Definition try_finally {A} (body : M A) (cleanup : M unit) : M A :=
  fun env st =>
    let '(r, st1) := body env st in
    match cleanup env st1 with
    | (Return _, st2) => (r, st2)
    | (Raise e, st2) => (Raise e, st2)
    end.

(** A pure block that may raise, run inside a request. *)
Definition lift {A} (r : outcome A) : M A := fun _ st => (r, st).

Definition ask : M Env := fun env st => (Return env, st).
Definition get : M State := fun _ st => (Return st, st).
Definition modify (f : State -> State) : M unit := fun _ st => (Return tt, f st).
Definition log (ev : event) : M unit := modify (set_trace (fun t => t ++ [ev])).

Declare Scope py_scope.
Delimit Scope py_scope with py.
Notation "x <- m ;; k" := (bind m (fun x => k))
  (at level 20, m at level 99, k at level 200, only parsing) : py_scope.
Notation "m ;; k" := (bind m (fun _ => k))
  (at level 100, k at level 200, right associativity, only parsing) : py_scope.

(** What the state holds after a run, and what the run gave. *)
Definition result_of {A} (r : outcome A * State) : outcome A := fst r.
Definition state_of {A} (r : outcome A * State) : State := snd r.

End World.

(* ===================================================================== *)
(** * Calls that leave the process *)
(* ===================================================================== *)

Module Effects.
Import Py Payload World.
Local Open Scope py_scope.

(** [time.time()] *)
Definition time_time : M Q :=
  fun env st => (Return (clock env (ticks st)), set_ticks S st).

(** [await asyncio.sleep(seconds)] *)
Definition asyncio_sleep (seconds : Z) : M unit := log (EvSleep seconds).

(** [client.post(token_url, ...)] *)
Definition post_token : M TokenResponse :=
  fun env st =>
    (Return (token_endpoint env (token_requests st)),
     set_trace (fun t => t ++ [EvTokenRequest]) (set_token_requests S st)).

(** [client.post(upload_url, files=..., data=...)] *)
Definition post_upload (pdf_file_path : string) (content : list Byte.byte)
  : M UploadResponse :=
  fun env st =>
    (Return (upload_endpoint env content),
     set_trace (fun t => t ++ [EvUpload pdf_file_path]) st).

(** [client.get(poll_url, ...)] *)
Definition get_poll (document_id : string) : M PollResponse :=
  fun env st =>
    (Return (poll_endpoint env document_id (polls st)),
     set_trace (fun t => t ++ [EvPoll document_id]) (set_polls S st)).

(** ** File system *)

(** Every call is recorded, then fails if the environment says so. *)
Definition fs_call (op : fs_op) (path : string) : M unit :=
  fun env st =>
    let st1 := set_trace (fun t => t ++ [EvFs op path]) st in
    match fs_fault env op path with
    | Some msg => (Raise (OSError msg), st1)
    | None => (Return tt, st1)
    end.

(** [upload_dir.mkdir(parents=True, exist_ok=True)] *)
Definition mkdir (path : string) : M unit := fs_call Mkdir path.

(** [aiofiles.open(path, 'wb')]: creates the file, or truncates it. *)
Definition open_wb (path : string) : M unit :=
  fs_call OpenWrite path ;;
  modify (set_files (fun fs => <[path := []]> fs)).

(** [out_file.write(content)] *)
Definition write (path : string) (content : list Byte.byte) : M unit :=
  fs_call Write path ;;
  modify (set_files (fun fs => <[path := content]> fs)).

(** [open(path, 'rb')] and the read of its content. *)
Definition open_rb (path : string) : M (list Byte.byte) :=
  fs_call OpenRead path ;;
  st <- get ;;
  match files st !! path with
  | Some content => ret content
  | None => raise (OSError ("No such file or directory: " +:+ path))
  end.

(** [path.exists()]: the error of a refused path goes up; a path that
    is just not there gives [False]. *)
Definition exists_ (path : string) : M bool :=
  env <- ask ;;
  match fs_refused env path with
  | Some msg => raise (OSError msg)
  | None =>
      st <- get ;;
      ret (bool_decide (is_Some (files st !! path)))
  end.

(** [os.remove(path)] *)
Definition os_remove (path : string) : M unit :=
  fs_call Remove path ;;
  st <- get ;;
  match files st !! path with
  | Some _ => modify (set_files (fun fs => delete path fs))
  | None => raise (OSError ("No such file or directory: " +:+ path))
  end.

(** ** Database driver *)

(** Every call is recorded and counted, then fails if the environment
    says so. *)
Definition driver_call (op : db_op) : M unit :=
  fun env st =>
    let n := db_calls (store st) in
    let st1 :=
      set_trace (fun t => t ++ [EvDb op])
        (set_store (fun s => mkStore (table s) (next_id s) (session s) (S n)) st) in
    match db_fault env n op with
    | Some msg => (Raise (DBError msg), st1)
    | None => (Return tt, st1)
    end.

(** The open connection, or the driver's error on a closed one. *)
Definition the_session : M Session :=
  st <- get ;;
  match session (store st) with
  | Some s => ret s
  | None => raise (DBError "Connection is closed")
  end.

(** [dbapi.connect(...)]: the connection commits every statement as it
    runs, since the call does not ask for anything else. *)
Definition dbapi_connect : M unit :=
  driver_call Connect ;;
  modify (set_store (set_session (fun _ => Some (mkSession None)))).

(** [connection.commit()]: nothing is pending. *)
Definition connection_commit : M unit :=
  driver_call Commit ;;
  _ <- the_session ;;
  ret tt.

(** [connection.rollback()]: nothing is pending, nothing is undone. *)
Definition connection_rollback : M unit :=
  driver_call Rollback ;;
  _ <- the_session ;;
  ret tt.

(** [connection.close()] *)
Definition connection_close : M unit :=
  driver_call Close ;;
  modify (set_store (set_session (fun _ => None))).

(** The row the store builds for an insert: it assigns the identifier
    and the two timestamps. *)
Definition new_row (env : Env) (id : Z) (a : InsertArgs) : Row :=
  mkRow id (arg_invoice_number a) (arg_vendor_name a)
        (db_upload_timestamp env id)
        (arg_file_name a) (arg_file_size_kb a) (arg_raw_text a)
        (arg_status a) (arg_error_message a)
        (db_created_at env id).

(** [cursor.execute(insert_query, (...))]: the row is in the table
    when the call returns. *)
Definition execute_insert (a : InsertArgs) : M unit :=
  driver_call (Execute (INSERT_INVOICE a)) ;;
  _ <- the_session ;;
  env <- ask ;;
  modify (set_store (fun d =>
    let id := next_id d in
    mkStore (table d ++ [new_row env id a]) (id + 1)
            (Some (mkSession (Some id)))
            (db_calls d))).

(** [cursor.execute("SELECT CURRENT_IDENTITY_VALUE() FROM DUMMY")] and
    [cursor.fetchone()[0]] *)
Definition execute_select_identity : M (option Z) :=
  driver_call (Execute SELECT_CURRENT_IDENTITY) ;;
  s <- the_session ;;
  ret (current_identity s).

(** [cursor.execute(select_query, (invoice_id,))] and [cursor.fetchone()] *)
Definition execute_select_by_id (invoice_id : Z) : M (option Row) :=
  driver_call (Execute (SELECT_BY_ID invoice_id)) ;;
  _ <- the_session ;;
  st <- get ;;
  ret (List.find (fun r => INVOICE_ID r =? invoice_id) (table (store st))).

(** [ORDER BY UPLOAD_TIMESTAMP DESC]: later instants first, rows without
    an instant last. *)
Definition ts_geb (a b : option Z) : bool :=
  match a, b with
  | _, None => true
  | None, Some _ => false
  | Some x, Some y => y <=? x
  end.

Definition newer_or_equal (r1 r2 : Row) : Prop :=
  ts_geb (UPLOAD_TIMESTAMP r1) (UPLOAD_TIMESTAMP r2) = true.

(** The statement says nothing about rows with the same instant: the
    store puts them in the order of the ranks it gives them. *)
Definition comes_first (rank : Row -> Z) (r1 r2 : Row) : Prop :=
  ts_geb (UPLOAD_TIMESTAMP r1) (UPLOAD_TIMESTAMP r2)
  && (negb (ts_geb (UPLOAD_TIMESTAMP r2) (UPLOAD_TIMESTAMP r1)) || (rank r1 <=? rank r2))
  = true.

#[global] Instance comes_first_dec rank : RelDecision (comes_first rank).
Proof. intros r1 r2. unfold comes_first. apply _. Defined.

Definition order_by_upload_timestamp_desc (rank : Row -> Z) (rows : list Row)
  : list Row :=
  merge_sort (comes_first rank) rows.

(** [ORDER BY UPLOAD_TIMESTAMP DESC LIMIT ? OFFSET ?] *)
Definition select_page (rank : Row -> Z) (rows : list Row) (limit offset : Z)
  : list Row :=
  take (Z.to_nat limit)
       (drop (Z.to_nat offset) (order_by_upload_timestamp_desc rank rows)).

(** [cursor.execute(select_query, (limit, offset))] and [cursor.fetchall()] *)
Definition execute_select_page (limit offset : Z) : M (list Row) :=
  env <- ask ;;
  st0 <- get ;;
  driver_call (Execute (SELECT_PAGE limit offset)) ;;
  _ <- the_session ;;
  st <- get ;;
  ret (select_page (db_row_order env (db_calls (store st0))) (table (store st))
                   limit offset).

(** [cursor.execute("SELECT 1 FROM DUMMY")] and [cursor.fetchone()[0]] *)
Definition execute_select_one : M Z :=
  driver_call (Execute SELECT_ONE_FROM_DUMMY) ;;
  _ <- the_session ;;
  ret 1.

End Effects.

(* ===================================================================== *)
(** * app/services/uaa_service.py *)
(* ===================================================================== *)

Module UAA.
Import Py Payload World Effects.
Local Open Scope py_scope.

(** [self._cached_token and time.time() < (self._token_expires_at - 300)].
    The clock is read only when a token is cached. *)
Definition cached_token_is_valid : M bool :=
  st <- get ;;
  if truthy_opt_str (_cached_token (uaa_service st)) then
    now <- time_time ;;
    ret (negb (Qle_bool (_token_expires_at (uaa_service st) - 300) now))
  else ret false.

(** [token_data["access_token"]]: [None] for a key that holds [null]. *)
Definition subscript_access_token (response : TokenResponse) : outcome (option string) :=
  match access_token response with
  | Absent => Raise (KeyError "access_token")
  | Null => Return None
  | Value token => Return (Some token)
  end.

(** [token_data.get("expires_in", 43200)]: [None] for a key that holds
    [null]. *)
Definition get_expires_in (response : TokenResponse) : option Q :=
  match expires_in response with
  | Absent => Some (43200 : Q)
  | Null => None
  | Value seconds => Some seconds
  end.

(** [UAAService.get_access_token].  What it returns is what the cache
    holds: a string, or [None] when the reply held [null] for the token.
    The clock is read before [time.time() + expires_in] fails on [None]. *)
Definition get_access_token : M (option string) :=
  valid <- cached_token_is_valid ;;
  if valid then
    st <- get ;;
    ret (_cached_token (uaa_service st))
  else
    response <- post_token ;;
    if negb (token_status_code response =? 200) then
      raise (HTTPError ("UAA authentication failed: "
                        +:+ str_of_Z (token_status_code response)
                        +:+ " - " +:+ token_text response))
    else
      token <- lift (subscript_access_token response) ;;
      modify (set_uaa_service (fun u => mkUAA token (_token_expires_at u))) ;;
      let expires_in := get_expires_in response in
      now <- time_time ;;
      match expires_in with
      | None =>
          raise (TypeError "unsupported operand type(s) for +: 'float' and 'NoneType'")
      | Some seconds =>
          modify (set_uaa_service (fun u => mkUAA (_cached_token u) (now + seconds))) ;;
          st <- get ;;
          ret (_cached_token (uaa_service st))
      end.

(** [UAAService.clear_cache] *)
Definition clear_cache : M unit :=
  modify (set_uaa_service (fun _ => mkUAA None 0)).

End UAA.

(* ===================================================================== *)
(** * app/services/document_ai_service.py *)
(* ===================================================================== *)

Module DocumentAI.
Import Py Payload World Effects.
Local Open Scope py_scope.

Definition max_poll_attempts : nat := 30.
Definition poll_interval : Z := 2.

(** [DocumentAIService._upload_document].  The token goes into the
    request header, whatever it is. *)
Definition _upload_document (pdf_file_path : string) (access_token : option string)
  : M string :=
  content <- open_rb pdf_file_path ;;
  response <- post_upload pdf_file_path content ;;
  if negb ((upload_status_code response =? 200) || (upload_status_code response =? 201)) then
    raise (Exception ("Document upload failed: "
                      +:+ str_of_Z (upload_status_code response)
                      +:+ " - " +:+ upload_text response))
  else
    match upload_id response with
    | Some document_id =>
        if truthy_str document_id then ret document_id
        else raise (Exception "No document ID returned from upload")
    | None => raise (Exception "No document ID returned from upload")
    end.

(** [f"{status}"] for the value of [result.get("status")]. *)
Definition str_of_status (status : option string) : string :=
  match status with Some s => s | None => "None" end.

Definition status_is (status : option string) (s : string) : bool :=
  match status with Some s' => String.eqb s' s | None => false end.

(** [f"{result.get('error', 'Unknown error')}"] *)
Definition str_of_error (error : entry string) : string :=
  match error with
  | Absent => "Unknown error"
  | Null => "None"
  | Value text => text
  end.

(** The body of the [for attempt in range(self.max_poll_attempts)] loop,
    with [attempts] iterations left; falling out of the loop raises the
    timeout. *)
Fixpoint poll_loop (attempts : nat) (document_id : string) : M ExtractionResult :=
  match attempts with
  | O =>
      raise (Exception ("Extraction timeout after "
                        +:+ str_of_Z (Z.of_nat max_poll_attempts * poll_interval)
                        +:+ " seconds"))
  | S attempts' =>
      response <- get_poll document_id ;;
      if negb (poll_status_code response =? 200) then
        raise (Exception ("Polling failed: "
                          +:+ str_of_Z (poll_status_code response)
                          +:+ " - " +:+ poll_text response))
      else
        let result := poll_json response in
        let status := result_status result in
        if status_is status "DONE" then ret result
        else if status_is status "FAILED" then
          raise (Exception ("Document extraction failed: "
                            +:+ str_of_error (result_error result)))
        else if status_is status "PENDING" || status_is status "RUNNING" then
          asyncio_sleep poll_interval ;;
          poll_loop attempts' document_id
        else
          raise (Exception ("Unknown status: " +:+ str_of_status status))
  end.

(** [DocumentAIService._poll_for_results] *)
Definition _poll_for_results (document_id : string) (access_token : option string)
  : M ExtractionResult :=
  poll_loop max_poll_attempts document_id.

(** What [_parse_extraction_results] returns. *)
Record Parsed : Type := mkParsed {
  invoice_number : string;
  vendor_name : string;
  confidence_score : float;
  raw_json : string
}.

(** The three locals the [for field in header_fields] loop updates. *)
Record Locals : Type := mkLocals {
  loc_invoice_number : option string;
  loc_vendor_name : option string;
  loc_confidence_scores : list float
}.

Definition name_is (n : option string) (s : string) : bool :=
  match n with Some n' => String.eqb n' s | None => false end.

(** One iteration of the loop. *)
Definition parse_field (l : Locals) (field : HeaderField) : Locals :=
  let name := field_name field in
  let value := field_value field in
  let conf := default (float_of_Z 0) (field_confidence field) in
  let scores :=
    if truthy_float conf then loc_confidence_scores l ++ [conf]
    else loc_confidence_scores l in
  let inv :=
    if name_is name "invoiceNumber" && truthy value then Some (str value)
    else loc_invoice_number l in
  let ven :=
    if name_is name "senderName" && truthy value then Some (str value)
    else loc_vendor_name l in
  mkLocals inv ven scores.

Definition parse_loop (header_fields : list HeaderField) : Locals :=
  fold_left parse_field header_fields (mkLocals None None []).

(** [sum(confidence_scores) / len(confidence_scores) if confidence_scores else 0] *)
Definition average (confidence_scores : list float) : float :=
  match confidence_scores with
  | [] => float_of_Z 0
  | _ => float_div (py_sum confidence_scores)
                   (float_of_Z (Z.of_nat (length confidence_scores)))
  end.

(** [extraction_result.get("extraction", {})], then
    [extraction.get("headerFields", [])], then the start of the loop
    over it: [None] has no [get], and cannot be iterated over. *)
Definition read_header_fields (extraction_result : ExtractionResult)
  : outcome (list HeaderField) :=
  match result_extraction extraction_result with
  | Absent => Return []
  | Null => Raise (AttributeError "'NoneType' object has no attribute 'get'")
  | Value Absent => Return []
  | Value Null => Raise (TypeError "'NoneType' object is not iterable")
  | Value (Value header_fields) => Return header_fields
  end.

(** The body of the [try] block. *)
Definition parse_body (extraction_result : ExtractionResult) : outcome Parsed :=
  match read_header_fields extraction_result with
  | Raise e => Raise e
  | Return header_fields =>
      let l := parse_loop header_fields in
      let avg_confidence := average (loc_confidence_scores l) in
      if negb (truthy_opt_str (loc_invoice_number l)) then
        Raise (Exception "Invoice number not found in extraction results")
      else if negb (truthy_opt_str (loc_vendor_name l)) then
        Raise (Exception "Vendor name not found in extraction results")
      else
        Return (mkParsed (default "" (loc_invoice_number l))
                         (default "" (loc_vendor_name l))
                         (float_round2 avg_confidence)
                         (serialized extraction_result))
  end.

(** [DocumentAIService._parse_extraction_results]: the body and its two
    [except] clauses. *)
Definition _parse_extraction_results (extraction_result : ExtractionResult)
  : outcome Parsed :=
  match parse_body extraction_result with
  | Return parsed => Return parsed
  | Raise e =>
      if is_KeyError e then
        Raise (Exception ("Error parsing extraction results: Missing key " +:+ str_of_exn e))
      else
        Raise (Exception ("Error parsing extraction results: " +:+ str_of_exn e))
  end.

(** [DocumentAIService.extract_invoice_data] *)
Definition extract_invoice_data (pdf_file_path : string) : M Parsed :=
  access_token <- UAA.get_access_token ;;
  document_id <- _upload_document pdf_file_path access_token ;;
  extraction_result <- _poll_for_results document_id access_token ;;
  parsed_data <- lift (_parse_extraction_results extraction_result) ;;
  ret parsed_data.

End DocumentAI.

(* ===================================================================== *)
(** * app/models/invoice.py *)
(* ===================================================================== *)

Module Models.
Import Py.

Record InvoiceUploadResponse : Type := mkInvoiceUploadResponse {
  up_invoice_id : Z;
  up_invoice_number : string;
  up_vendor_name : string;
  up_file_name : string;
  up_file_size_kb : Q;
  up_confidence_score : float;
  up_status : string;
  up_message : string
}.

(** [upload_timestamp] and [created_at] hold the instant whose ISO-8601
    text the response carries. *)
Record InvoiceDetail : Type := mkInvoiceDetail {
  invoice_id : Z;
  invoice_number : string;
  vendor_name : string;
  upload_timestamp : option Z;
  file_name : option string;
  file_size_kb : option Q;
  status : string;
  error_message : option string;
  created_at : option Z
}.

Record InvoiceListResponse : Type := mkInvoiceListResponse {
  invoices : list InvoiceDetail;
  total : Z;
  limit : Z;
  offset : Z
}.

End Models.

(* ===================================================================== *)
(** * app/services/database_service.py *)
(* ===================================================================== *)

Module Database.
Import Py World Effects.
Local Open Scope py_scope.

(** [DatabaseService.get_connection], applied to the body of the [with]
    block.  [connection] is [None] exactly when [dbapi.connect] raised:
    both [if connection:] guards then skip, and the error goes up as it
    is.  Otherwise the generator commits after the body, rolls back and
    re-raises on any exception, and closes in its [finally]. *)
Definition get_connection {A} (body : M A) : M A :=
  fun env st =>
    match dbapi_connect env st with
    | (Raise e, st1) => (Raise e, st1)
    | (Return _, st1) =>
        try_finally
          (try_except
             (r <- body ;; connection_commit ;; ret r)
             (fun e => connection_rollback ;; raise e))
          connection_close
          env st1
    end.

(** [DatabaseService.insert_invoice] *)
Definition insert_invoice (a : InsertArgs) : M (option Z) :=
  get_connection
    (execute_insert a ;;
     invoice_id <- execute_select_identity ;;
     ret invoice_id).

(** The dictionaries [get_invoice] and [get_all_invoices] build from a
    row.  [d_error_message] is [None] when the key is not in the
    dictionary. *)
Record InvoiceDict : Type := mkInvoiceDict {
  d_invoice_id : Z;
  d_invoice_number : string;
  d_vendor_name : string;
  d_upload_timestamp : option Z;
  d_file_name : string;
  d_file_size_kb : option Q;
  d_status : string;
  d_error_message : option (option string);
  d_created_at : option Z
}.

(** [float(row[5]) if row[5] else None] *)
Definition size_or_none (q : Q) : option Q :=
  if truthy_Q q then Some q else None.

Definition detail_dict (row : Row) : InvoiceDict :=
  mkInvoiceDict (INVOICE_ID row) (INVOICE_NUMBER row) (VENDOR_NAME row)
                (UPLOAD_TIMESTAMP row) (FILE_NAME row)
                (size_or_none (FILE_SIZE_KB row)) (STATUS row)
                (Some (ERROR_MESSAGE row)) (CREATED_AT row).

Definition list_dict (row : Row) : InvoiceDict :=
  mkInvoiceDict (INVOICE_ID row) (INVOICE_NUMBER row) (VENDOR_NAME row)
                (UPLOAD_TIMESTAMP row) (FILE_NAME row)
                (size_or_none (FILE_SIZE_KB row)) (STATUS row)
                None (CREATED_AT row).

(** [DatabaseService.get_invoice] *)
Definition get_invoice (invoice_id : Z) : M (option InvoiceDict) :=
  get_connection
    (row <- execute_select_by_id invoice_id ;;
     match row with
     | None => ret None
     | Some r => ret (Some (detail_dict r))
     end).

(** [DatabaseService.get_all_invoices] *)
Definition get_all_invoices (limit offset : Z) : M (list InvoiceDict) :=
  get_connection
    (rows <- execute_select_page limit offset ;;
     ret (map list_dict rows)).

(** [DatabaseService.test_connection] *)
Definition test_connection : M bool :=
  get_connection
    (result <- execute_select_one ;;
     ret (result =? 1)).

End Database.

(* ===================================================================== *)
(** * app/routers/invoice_router.py *)
(* ===================================================================== *)

Module Router.
Import Py World Effects Models.
Local Open Scope py_scope.

(** The uploaded file: its name and the bytes [file.read()] gives. *)
Record UploadFile : Type := mkUploadFile {
  filename : string;
  content : list Byte.byte
}.

Definition temp_filepath_of (env : Env) (file : UploadFile) : string :=
  UPLOAD_DIR env +:+ "/" +:+ strftime_now env +:+ "_" +:+ filename file.

Definition file_size_kb_of (file : UploadFile) : Q :=
  inject_Z (Z.of_nat (length (content file))) / 1024.

(** The [InvoiceDetail] built from a dictionary of the service. *)
Definition InvoiceDetail_of (d : Database.InvoiceDict) : InvoiceDetail :=
  mkInvoiceDetail (Database.d_invoice_id d) (Database.d_invoice_number d)
                  (Database.d_vendor_name d) (Database.d_upload_timestamp d)
                  (Some (Database.d_file_name d)) (Database.d_file_size_kb d)
                  (Database.d_status d)
                  (default None (Database.d_error_message d))
                  (Database.d_created_at d).

(** The [except HTTPException] and [except Exception as e] clauses of
    [upload_invoice].  [file_size_kb] is what
    [file_size_kb if 'file_size_kb' in locals() else 0] evaluates to. *)
Definition on_exception (file : UploadFile) (file_size_kb : Q) (e : exn)
  : M InvoiceUploadResponse :=
  if is_HTTPException e then raise e
  else
    let error_message := str_of_exn e in
    try_except
      (Database.insert_invoice
         (mkInsertArgs "UNKNOWN" "UNKNOWN" (filename file) file_size_kb
                       "" "FAILED" (Some error_message)) ;;
       ret tt)
      (fun _ => ret tt) ;;
    raise (HTTPException 422 ("Failed to process invoice: " +:+ error_message)).

(** The [try] block after the temporary file has been opened. *)
Definition process (file : UploadFile) (temp_filepath : string)
  : M InvoiceUploadResponse :=
  env <- ask ;;
  let file_size_bytes := Z.of_nat (length (content file)) in
  let file_size_kb := file_size_kb_of file in
  let max_size_bytes := MAX_FILE_SIZE_MB env * 1024 * 1024 in
  (if max_size_bytes <? file_size_bytes then
     raise (HTTPException 400
              ("File size exceeds maximum allowed size of "
               +:+ str_of_Z (MAX_FILE_SIZE_MB env) +:+ "MB"))
   else ret tt) ;;
  write temp_filepath (content file) ;;
  extraction_result <- DocumentAI.extract_invoice_data temp_filepath ;;
  invoice_id <-
    Database.insert_invoice
      (mkInsertArgs (DocumentAI.invoice_number extraction_result)
                    (DocumentAI.vendor_name extraction_result)
                    (filename file) file_size_kb
                    (DocumentAI.raw_json extraction_result)
                    "PROCESSED" None) ;;
  match invoice_id with
  | None =>
      raise (Exception "1 validation error for InvoiceUploadResponse")
  | Some id =>
      ret (mkInvoiceUploadResponse id
             (DocumentAI.invoice_number extraction_result)
             (DocumentAI.vendor_name extraction_result)
             (filename file)
             (round2 file_size_kb)
             (DocumentAI.confidence_score extraction_result)
             "PROCESSED" "Invoice processed successfully")
  end.

(** The [finally] block.  The test for the file stands outside the inner
    [try]: what it raises goes up. *)
Definition cleanup (temp_filepath : string) : M unit :=
  present <- exists_ temp_filepath ;;
  if present then try_except (os_remove temp_filepath) (fun _ => ret tt)
  else ret tt.

(** The [try] block with its two [except] clauses.  The block is split
    where [file_size_kb] becomes a local: an exception of [aiofiles.open]
    reaches the handler with [0], any later one with the computed size. *)
Definition try_and_except (file : UploadFile) (temp_filepath : string)
    : M InvoiceUploadResponse :=
  fun env st =>
    match open_wb temp_filepath env st with
    | (Raise e, st1) => on_exception file 0 e env st1
    | (Return _, st1) =>
        try_except (process file temp_filepath)
                   (on_exception file (file_size_kb_of file)) env st1
    end.

(** [upload_invoice] *)
Definition upload_invoice (file : UploadFile) : M InvoiceUploadResponse :=
  if negb (endswith (lower (filename file)) ".pdf") then
    raise (HTTPException 400 "Invalid file type. Only PDF files are allowed.")
  else
    env <- ask ;;
    mkdir (UPLOAD_DIR env) ;;
    let temp_filepath := temp_filepath_of env file in
    try_finally (try_and_except file temp_filepath) (cleanup temp_filepath).

(** [get_invoice] *)
Definition get_invoice (invoice_id : Z) : M InvoiceDetail :=
  invoice <- Database.get_invoice invoice_id ;;
  match invoice with
  | None =>
      raise (HTTPException 404
               ("Invoice with ID " +:+ str_of_Z invoice_id +:+ " not found"))
  | Some d => ret (InvoiceDetail_of d)
  end.

(** [get_all_invoices].  The bounds are those of the two [Query]
    declarations; FastAPI refuses a request outside them before the
    function runs. *)
Definition get_all_invoices (limit offset : Z) : M InvoiceListResponse :=
  if negb ((1 <=? limit) && (limit <=? 100) && (0 <=? offset)) then
    raise (RequestValidationError "query parameter out of range")
  else
    invoices <- Database.get_all_invoices limit offset ;;
    let invoice_details := map InvoiceDetail_of invoices in
    ret (mkInvoiceListResponse invoice_details
           (Z.of_nat (length invoice_details)) limit offset).

End Router.

(* ===================================================================== *)
(** * Reference notions the statements use *)
(* ===================================================================== *)

Module Reference.
Import Py Payload World Effects.

(** A non-empty field of the given name. *)
Definition is_match (name : string) (f : HeaderField) : bool :=
  DocumentAI.name_is (field_name f) name && truthy (field_value f).

(** The value of the first non-empty field of a name, in list order. *)
Fixpoint first_match (name : string) (fs : list HeaderField) : option jvalue :=
  match fs with
  | [] => None
  | f :: fs' =>
      if is_match name f then Some (field_value f) else first_match name fs'
  end.

(** The value of the last non-empty field of a name, in list order. *)
Fixpoint last_match (name : string) (fs : list HeaderField) : option jvalue :=
  match fs with
  | [] => None
  | f :: fs' =>
      match last_match name fs' with
      | Some v => Some v
      | None => if is_match name f then Some (field_value f) else None
      end
  end.

(** The confidence values that are present and non-zero, in list order. *)
Fixpoint present_nonzero (fs : list HeaderField) : list float :=
  match fs with
  | [] => []
  | f :: fs' =>
      match field_confidence f with
      | Some c => if truthy_float c then c :: present_nonzero fs' else present_nonzero fs'
      | None => present_nonzero fs'
      end
  end.

(** The sum of floats added one after the other to a running total. *)
Fixpoint running_sum (total : float) (xs : list float) : float :=
  match xs with
  | [] => total
  | x :: xs' => running_sum (float_add total x) xs'
  end.

(** The arithmetic mean of a list of floats, as floats give it: the
    values are added in list order, starting from zero, and the sum is
    divided by their number; [0] for the empty list. *)
Definition arithmetic_mean (xs : list float) : float :=
  match xs with
  | [] => float_of_Z 0
  | _ => float_div (running_sum (float_of_Z 0) xs) (float_of_Z (Z.of_nat (length xs)))
  end.

(** The response keeps the loop going: HTTP 200 and a job that is
    pending or running. *)
Definition in_progress (r : PollResponse) : bool :=
  (poll_status_code r =? 200) &&
  (DocumentAI.status_is (result_status (poll_json r)) "PENDING"
   || DocumentAI.status_is (result_status (poll_json r)) "RUNNING").

(** The events of [k] rounds of one poll and one sleep of [poll_interval]. *)
Fixpoint rounds (document_id : string) (k : nat) : list event :=
  match k with
  | O => []
  | S k' => EvPoll document_id :: EvSleep DocumentAI.poll_interval :: rounds document_id k'
  end.

(** The state after [k] such rounds. *)
Definition after_rounds (document_id : string) (k : nat) (st : State) : State :=
  set_trace (fun t => t ++ rounds document_id k) (set_polls (fun p => (p + k)%nat) st).

(** The state after [k] rounds and one more poll. *)
Definition after_last_poll (document_id : string) (k : nat) (st : State) : State :=
  set_trace (fun t => t ++ rounds document_id k ++ [EvPoll document_id])
            (set_polls (fun p => S (p + k)) st).

Definition is_sleep (ev : event) : bool :=
  match ev with EvSleep _ => true | _ => false end.
Definition is_poll (ev : event) : bool :=
  match ev with EvPoll _ => true | _ => false end.
Definition sleeps (t : list event) : nat := length (List.filter is_sleep t).
Definition polls_in (t : list event) : nat := length (List.filter is_poll t).

(** A token is cached and the instant is earlier than its expiry minus
    five minutes. *)
Definition token_is_fresh (u : UAAService) (now : Q) : Prop :=
  exists token, _cached_token u = Some token /\ token <> "" /\
                (now < _token_expires_at u - 300)%Q.

(** The value of the validity test of [get_access_token]. *)
Definition cache_test (env : Env) (st : State) : bool :=
  truthy_opt_str (_cached_token (uaa_service st)) &&
  negb (Qle_bool (_token_expires_at (uaa_service st) - 300) (clock env (ticks st))).

(** The state after the validity test: it reads the clock only when a
    token is cached. *)
Definition after_check (st : State) : State :=
  if truthy_opt_str (_cached_token (uaa_service st)) then set_ticks S st else st.

(** The state after the validity test and one token request. *)
Definition after_request (st : State) : State :=
  set_trace (fun t => t ++ [EvTokenRequest]) (set_token_requests S (after_check st)).

(** The state after a refresh stored [token], to expire [seconds] after
    the clock reading taken when it is stored. *)
Definition after_refresh (env : Env) (token : option string) (seconds : Q)
           (st : State) : State :=
  set_uaa_service
    (fun _ => mkUAA token (clock env (ticks (after_check st)) + seconds)%Q)
    (set_ticks S (after_request st)).

(** The state after a refresh stored [token] and read the clock, and
    then failed to compute the expiry: the old expiry is still there. *)
Definition after_failed_refresh (token : option string) (st : State) : State :=
  set_uaa_service (fun u => mkUAA token (_token_expires_at u))
                  (set_ticks S (after_request st)).

(** The error message, if any, of the driver call a state is about to make. *)
Definition fault_at (env : Env) (st : State) (op : db_op) : option string :=
  db_fault env (db_calls (store st)) op.

(** The state once a driver call has been recorded and counted. *)
Definition driver_called (op : db_op) (st : State) : State :=
  set_trace (fun t => t ++ [EvDb op])
    (set_store (fun s => mkStore (table s) (next_id s) (session s) (S (db_calls s))) st).

(** The state once [dbapi.connect] has returned a connection. *)
Definition connected (st : State) : State :=
  set_store (set_session (fun _ => Some (mkSession None))) (driver_called Connect st).

(** The state once [connection.close()] has returned. *)
Definition closed (st : State) : State :=
  set_store (set_session (fun _ => None)) (driver_called Close st).

(** Records on a page, newest first: each record's upload instant is not
    earlier than the next one's, records without an instant last. *)
Definition not_older (d1 d2 : Models.InvoiceDetail) : Prop :=
  ts_geb (Models.upload_timestamp d1) (Models.upload_timestamp d2) = true.

(** A body leaves an open connection open. *)
Definition keeps_connection {A} (body : M A) : Prop :=
  forall env st, session (store st) <> None ->
                 session (store (state_of (body env st))) <> None.

(** Driver calls among the events. *)
Definition is_db_event (ev : event) : bool :=
  match ev with EvDb _ => true | _ => false end.

(** The database side of a state: the store and the driver calls made. *)
Definition db_side (st : State) : Store * list event :=
  (store st, List.filter is_db_event (trace st)).

(** A block that stays away from the database and raises no
    [HTTPException]. *)
Definition quiet {A} (m : M A) : Prop :=
  forall env st,
    db_side (state_of (m env st)) = db_side st /\
    forall e, result_of (m env st) = Raise e -> is_HTTPException e = false.

(** The state once a file-system call has been recorded. *)
Definition fs_called (op : fs_op) (path : string) (st : State) : State :=
  set_trace (fun t => t ++ [EvFs op path]) st.

(** The state once the upload directory exists and the upload has been
    written to its temporary file. *)
Definition saved (env : Env) (file : Router.UploadFile) (st : State) : State :=
  let path := Router.temp_filepath_of env file in
  set_files (fun fs => <[path := Router.content file]> fs)
    (fs_called Write path
       (set_files (fun fs => <[path := []]> fs)
          (fs_called OpenWrite path
             (fs_called Mkdir (UPLOAD_DIR env) st)))).

(** The number of connections a trace opened, or tried to. *)
Definition is_connect (ev : event) : bool :=
  match ev with EvDb Connect => true | _ => false end.
Definition connects (t : list event) : nat := length (List.filter is_connect t).

(** The state a successful [insert_invoice] leaves. *)
Definition inserted (env : Env) (a : InsertArgs) (st : State) : State :=
  set_trace (fun t => t ++ [EvDb Connect; EvDb (Execute (INSERT_INVOICE a));
                            EvDb (Execute SELECT_CURRENT_IDENTITY);
                            EvDb Commit; EvDb Close])
    (set_store (fun d => mkStore (table d ++ [new_row env (next_id d) a])
                                 (next_id d + 1) None (5 + db_calls d)) st).

End Reference.

(* ===================================================================== *)
(** * Sample payloads and worlds *)
(* ===================================================================== *)

Module Samples.
Import Py Payload World Effects.

Definition inv1 : HeaderField :=
  mkField (Some "invoiceNumber") (JStr "INV-1") (Some (float_of_decimal 9 10)).
Definition acme : HeaderField :=
  mkField (Some "senderName") (JStr "Acme") (Some (float_of_decimal 8 10)).

(** A result with the given header fields. *)
Definition done_with (header_fields : list HeaderField) : ExtractionResult :=
  mkResult (Some "DONE") Absent (Value (Value header_fields)) "{}".

(** invoiceNumber="INV-1" (0.9) and senderName="Acme" (0.8). *)
Definition done_payload : ExtractionResult := done_with [inv1; acme].

(** Two non-empty invoice numbers, "A" before "B". *)
Definition duplicate_numbers : ExtractionResult :=
  done_with [mkField (Some "invoiceNumber") (JStr "A") None;
             mkField (Some "invoiceNumber") (JStr "B") None;
             mkField (Some "senderName") (JStr "Acme") None].

(** The two names with the given confidences, if any. *)
Definition with_confidences (c1 c2 : option float) : ExtractionResult :=
  done_with [mkField (Some "invoiceNumber") (JStr "INV-1") c1;
             mkField (Some "senderName") (JStr "Acme") c2].

(** A single confidence, 0.333. *)
Definition third_payload : ExtractionResult :=
  with_confidences (Some (float_of_decimal 333 1000)) None.

(** A single confidence, 0.665: the double read for it lies above the
    middle of 0.66 and 0.67. *)
Definition above_tie_payload : ExtractionResult :=
  with_confidences (Some (float_of_decimal 665 1000)) None.

(** The confidences 0.67 and 0.66: the mean of the doubles read for
    them, as floats give it, lies above 0.665. *)
Definition uneven_pair_payload : ExtractionResult :=
  with_confidences (Some (float_of_decimal 67 100)) (Some (float_of_decimal 66 100)).

(** No senderName, other fields present. *)
Definition no_sender : ExtractionResult :=
  done_with [inv1;
             mkField (Some "senderName") (JStr "") (Some (float_of_decimal 7 10));
             mkField (Some "currency") (JStr "EUR") (Some (float_of_decimal 1 2))].

(** "extraction": null, and "extraction": {"headerFields": null}. *)
Definition null_extraction : ExtractionResult :=
  mkResult (Some "DONE") Absent Null "{}".
Definition null_header_fields : ExtractionResult :=
  mkResult (Some "DONE") Absent (Value Null) "{}".

(** ** Worlds *)

(** The first two polls find the job pending, the third finds it done. *)
Definition pending_pending_done (document_id : string) (n : nat) : PollResponse :=
  if (n <? 2)%nat then
    mkPollResponse 200 "" (mkResult (Some "PENDING") Absent Absent "{}")
  else mkPollResponse 200 "" done_payload.

(** A world in which every service answers and nothing fails. *)
Definition fair_env : Env :=
  mkEnv 10 "/tmp/uploads"
        (fun n => inject_Z (Z.of_nat n)) "20240113_103000"
        (fun _ => mkTokenResponse 200 "" (Value "token-1") Absent)
        (fun _ => mkUploadResponse 201 "" (Some "job1"))
        pending_pending_done
        (fun _ _ => None) (fun id => Some id) (fun id => Some id)
        (fun _ row => INVOICE_ID row)
        (fun _ => None) (fun _ _ => None).

(** The same world with another vendor reply to polls. *)
Definition with_polls (f : string -> nat -> PollResponse) (env : Env) : Env :=
  mkEnv (MAX_FILE_SIZE_MB env) (UPLOAD_DIR env) (clock env) (strftime_now env)
        (token_endpoint env) (upload_endpoint env) f
        (db_fault env) (db_upload_timestamp env) (db_created_at env)
        (db_row_order env) (fs_refused env) (fs_op_fault env).

(** Every poll is answered with HTTP 500, the body saying DONE. *)
Definition server_error_env : Env :=
  with_polls (fun _ _ => mkPollResponse 500 "Internal Server Error" done_payload)
             fair_env.

(** Nothing cached, an empty table, no files. *)
Definition fresh_state : State :=
  mkState (mkUAA None 0) (mkStore [] 1 None 0) ∅ 0 0 0 [].

(** The same world with another identity endpoint. *)
Definition with_token_endpoint (f : nat -> TokenResponse) (env : Env) : Env :=
  mkEnv (MAX_FILE_SIZE_MB env) (UPLOAD_DIR env) (clock env) (strftime_now env)
        f (upload_endpoint env) (poll_endpoint env)
        (db_fault env) (db_upload_timestamp env) (db_created_at env)
        (db_row_order env) (fs_refused env) (fs_op_fault env).

(** The identity endpoint rejects the credentials. *)
Definition unauthorized_env : Env :=
  with_token_endpoint (fun _ => mkTokenResponse 401 "Unauthorized" Absent Absent) fair_env.

(** The identity endpoint answers 200 with a body that has no token. *)
Definition tokenless_env : Env :=
  with_token_endpoint (fun _ => mkTokenResponse 200 "{}" Absent Absent) fair_env.


(** A token is cached and expires at instant 1000. *)
Definition cached_state : State :=
  mkState (mkUAA (Some "token-0") 1000) (mkStore [] 1 None 0) ∅ 0 0 0 [].

(** The cached token expires at instant 100, less than five minutes
    after the first reading of the clock. *)
Definition expired_state : State :=
  mkState (mkUAA (Some "token-0") 100) (mkStore [] 1 None 0) ∅ 0 0 0 [].

(** The same world with another database driver. *)
Definition with_db_fault (f : nat -> db_op -> option string) (env : Env) : Env :=
  mkEnv (MAX_FILE_SIZE_MB env) (UPLOAD_DIR env) (clock env) (strftime_now env)
        (token_endpoint env) (upload_endpoint env) (poll_endpoint env)
        f (db_upload_timestamp env) (db_created_at env)
        (db_row_order env) (fs_refused env) (fs_op_fault env).

(** The database cannot be reached: every [dbapi.connect] fails. *)
Definition unreachable_db_env : Env :=
  with_db_fault (fun _ op => match op with
                             | Connect => Some "Connection refused"
                             | _ => None
                             end) fair_env.





Definition sample_args : InsertArgs :=
  mkInsertArgs "INV-1" "Acme" "a.pdf" (1 # 2) "{}" "PROCESSED" None.

Definition row_at (id instant : Z) : Row :=
  mkRow id "INV" "Acme" (Some instant) "a.pdf" 1 "{}" "PROCESSED" None (Some instant).

(** Three records, uploaded at instants 10, 30 and 20. *)
Definition three_rows_state : State :=
  mkState (mkUAA None 0)
          (mkStore [row_at 1 10; row_at 2 30; row_at 3 20] 4 None 0) ∅ 0 0 0 [].

(** The same world with other settings and another file system. *)
Definition with_files (max_mb : Z) (f : fs_op -> string -> option string) (env : Env)
    : Env :=
  mkEnv max_mb (UPLOAD_DIR env) (clock env) (strftime_now env)
        (token_endpoint env) (upload_endpoint env) (poll_endpoint env)
        (db_fault env) (db_upload_timestamp env) (db_created_at env)
        (db_row_order env) (fs_refused env) f.

(** The vendor reports the job as failed. *)
Definition failed_job_env : Env :=
  with_polls (fun _ _ => mkPollResponse 200 ""
                           (mkResult (Some "FAILED") (Value "unreadable scan") Absent "{}"))
             fair_env.

(** The job fails and the database cannot be reached either. *)
Definition failed_job_no_db_env : Env :=
  with_db_fault (db_fault unreachable_db_env) failed_job_env.

(** The same world with a file system that refuses some paths. *)
Definition with_refused (f : string -> option string) (env : Env) : Env :=
  mkEnv (MAX_FILE_SIZE_MB env) (UPLOAD_DIR env) (clock env) (strftime_now env)
        (token_endpoint env) (upload_endpoint env) (poll_endpoint env)
        (db_fault env) (db_upload_timestamp env) (db_created_at env)
        (db_row_order env) f (fs_op_fault env).

(** Every path below the upload directory is refused: the name is too
    long for the file system. *)
Definition long_name_env : Env :=
  with_refused (fun path => if String.eqb path "/tmp/uploads" then None
                            else Some "File name too long") fair_env.

(** The temporary file cannot be opened for writing; the path is fine. *)
Definition read_only_env : Env :=
  with_files 10 (fun op _ => match op with
                             | OpenWrite => Some "Read-only file system"
                             | _ => None
                             end) fair_env.

(** The limit is 0 MB, so every non-empty upload is too large. *)
Definition no_room_env : Env := with_files 0 (fs_op_fault fair_env) fair_env.

(** The limit is 0 MB and the temporary file cannot be removed. *)
Definition sticky_env : Env :=
  with_files 0 (fun op _ => match op with
                            | Remove => Some "Permission denied"
                            | _ => None
                            end) fair_env.

(** A one-byte upload named scan.pdf. *)
Definition small_pdf : Router.UploadFile := Router.mkUploadFile "scan.pdf" [Byte.x25].

End Samples.

(* ===================================================================== *)
(** * app/config.py *)
(* ===================================================================== *)

Module Config.
Import Py.

(** What [json.load] gives.  [JObject] holds the items of the dict, one
    per key. *)
#[local] Unset Elimination Schemes.
Inductive json : Type :=
| JNull
| JBool (b : bool)
| JNumber (q : Q)
| JString (s : string)
| JArray (items : list json)
| JObject (items : list (string * json)).
#[local] Set Elimination Schemes.

(** [bool(x)] *)
Definition truthy (j : json) : bool :=
  match j with
  | JNull => false
  | JBool b => b
  | JNumber q => truthy_Q q
  | JString s => truthy_str s
  | JArray [] => false
  | JArray (_ :: _) => true
  | JObject [] => false
  | JObject (_ :: _) => true
  end.

(** The exceptions of this module.  [LoadError] stands for whatever
    [open] or [json.load] raises. *)
Inductive error : Type :=
| FileNotFoundError (possible_paths : list string)
| LoadError (msg : string)
| KeyError (key : string)
| TypeError.

Inductive result (A : Type) : Type :=
| Ok (a : A)
| Err (e : error).
Arguments Ok {A} a.
Arguments Err {A} e.

Fixpoint dict_get (items : list (string * json)) (key : string) : option json :=
  match items with
  | [] => None
  | (k, v) :: items' => if String.eqb k key then Some v else dict_get items' key
  end.

(** [x[key]] for a string [key]: only a dict can be subscripted with it. *)
Definition getitem (x : json) (key : string) : result json :=
  match x with
  | JObject items =>
      match dict_get items key with
      | Some v => Ok v
      | None => Err (KeyError key)
      end
  | _ => Err TypeError
  end.

(** The lines the module prints. *)
Inductive line : Type :=
| Loaded (path : string).

(** The files the process can see: [os.path.exists], and [open] followed
    by [json.load]. *)
Record Env : Type := mkEnv {
  DOX_SERVICE_KEY_PATH : string;
  module_dir : string;
  path_exists : string -> bool;
  read_json : string -> string + json
}.

Record DocumentAIConfig : Type := mkDocumentAIConfig {
  service_key_path : string;
  _service_key : json
}.

(** The module global [dox_config] and the standard output. *)
Record State : Type := mkState {
  dox_config : option DocumentAIConfig;
  stdout : list line
}.

(** [os.path.join(a, b)] on POSIX. *)
Definition path_join (a b : string) : string :=
  if String.prefix "/" b then b
  else if negb (truthy_str a) || endswith a "/" then a +:+ b
  else a +:+ "/" +:+ b.

Definition possible_paths_of (env : Env) (service_key_path : string) : list string :=
  [ service_key_path;
    path_join "backend" service_key_path;
    path_join (path_join (module_dir env) "..") service_key_path ].

(** The [for path in possible_paths] loop of [_load_service_key], and the
    [raise] after it. *)
Fixpoint for_path_in (env : Env) (paths possible_paths : list string) (out : list line)
    : result json * list line :=
  match paths with
  | [] => (Err (FileNotFoundError possible_paths), out)
  | path :: paths' =>
      if path_exists env path then
        match read_json env path with
        | inl msg => (Err (LoadError msg), out)
        | inr key => (Ok key, out ++ [Loaded path])
        end
      else for_path_in env paths' possible_paths out
  end.

(** [DocumentAIConfig._load_service_key] *)
Definition _load_service_key (env : Env) (service_key_path : string) (out : list line)
    : result json * list line :=
  let possible_paths := possible_paths_of env service_key_path in
  for_path_in env possible_paths possible_paths out.

(** [DocumentAIConfig.__init__] *)
Definition DocumentAIConfig_init (env : Env) (service_key_path : string) (out : list line)
    : result DocumentAIConfig * list line :=
  match _load_service_key env service_key_path out with
  | (Ok key, out1) => (Ok (mkDocumentAIConfig service_key_path key), out1)
  | (Err e, out1) => (Err e, out1)
  end.

(** The properties. *)
Definition uaa_get (c : DocumentAIConfig) (key : string) : result json :=
  match getitem (_service_key c) "uaa" with
  | Ok uaa => getitem uaa key
  | Err e => Err e
  end.
Definition uaa_url (c : DocumentAIConfig) : result json := uaa_get c "url".
Definition uaa_client_id (c : DocumentAIConfig) : result json := uaa_get c "clientid".
Definition uaa_client_secret (c : DocumentAIConfig) : result json := uaa_get c "clientsecret".
Definition document_ai_url (c : DocumentAIConfig) : result json :=
  getitem (_service_key c) "url".
Definition document_ai_api_path (c : DocumentAIConfig) : result json :=
  getitem (_service_key c) "resturl".

(** [get_dox_config] *)
Definition get_dox_config (env : Env) (st : State) : result DocumentAIConfig * State :=
  match dox_config st with
  | Some c => (Ok c, st)
  | None =>
      match DocumentAIConfig_init env (DOX_SERVICE_KEY_PATH env) (stdout st) with
      | (Ok c, out1) => (Ok c, mkState (Some c) out1)
      | (Err e, out1) => (Err e, mkState None out1)
      end
  end.

End Config.

(* ===================================================================== *)
(** * app/routers/invoice_router.py: the health check *)
(* ===================================================================== *)

Module Health.
Import Py World.

Record HealthCheckResponse : Type := mkHealthCheckResponse {
  status : string;
  message : string;
  database_connected : bool;
  document_ai_configured : bool
}.

(** The lines the two [except] clauses print, with the exception caught. *)
Inductive line : Type :=
| DatabaseHealthCheckFailed (e : exn)
| DocumentAIConfigCheckFailed (e : Config.error).

(** [", ".join(issues)] *)
Fixpoint join (sep : string) (items : list string) : string :=
  match items with
  | [] => ""
  | [x] => x
  | x :: items' => x +:+ sep +:+ join sep items'
  end.

(** [bool(dox_config.uaa_url and dox_config.document_ai_url)]: the
    second property is read only when the first is truthy. *)
Definition uaa_url_and_document_ai_url (c : Config.DocumentAIConfig) : Config.result bool :=
  match Config.uaa_url c with
  | Config.Err e => Config.Err e
  | Config.Ok u =>
      if Config.truthy u then
        match Config.document_ai_url c with
        | Config.Err e => Config.Err e
        | Config.Ok d => Config.Ok (Config.truthy d)
        end
      else Config.Ok false
  end.

(** What one request leaves: the process state, the module state of
    [app.config], and what it printed. *)
Record Run : Type := mkRun {
  response : HealthCheckResponse;
  world : World.State;
  config : Config.State;
  printed : list line
}.

(** [health_check] *)
Definition health_check (cenv : Config.Env) (env : World.Env)
    (cst : Config.State) (st : World.State) : Run :=
  let '(database_connected, st1, out1) :=
    match Database.test_connection env st with
    | (Return b, st1) => (b, st1, [])
    | (Raise e, st1) => (false, st1, [DatabaseHealthCheckFailed e])
    end in
  let '(document_ai_configured, cst1, out2) :=
    match Config.get_dox_config cenv cst with
    | (Config.Err e, cst1) => (false, cst1, out1 ++ [DocumentAIConfigCheckFailed e])
    | (Config.Ok c, cst1) =>
        match uaa_url_and_document_ai_url c with
        | Config.Err e => (false, cst1, out1 ++ [DocumentAIConfigCheckFailed e])
        | Config.Ok b => (b, cst1, out1)
        end
    end in
  let '(status, message) :=
    if database_connected && document_ai_configured then
      ("healthy", "All systems operational")
    else
      let issues := [] in
      let issues := if negb database_connected then issues ++ ["database"] else issues in
      let issues :=
        if negb document_ai_configured then issues ++ ["document_ai"] else issues in
      ("degraded", "Issues detected: " +:+ join ", " issues) in
  mkRun (mkHealthCheckResponse status message database_connected document_ai_configured)
        st1 cst1 out2.

End Health.

(* ===================================================================== *)
(** * app/main.py: the startup half of [lifespan] *)
(* ===================================================================== *)

Module Main.
Import Py World.

(** Either kind of exception a step can raise. *)
Definition caught : Type := (exn + Config.error)%type.

(** The lines [lifespan] prints, with the value or exception they show. *)
Inductive line : Type :=
| Starting
| DocumentAIConfigured (url : Config.json)
| DocumentAIConfigurationError (e : Config.error)
| DatabaseConnected
| DatabaseConnectionFailed
| DatabaseError (e : exn)
| UAAAuthenticationSuccessful
| UAAAuthenticationError (e : caught)
| StartedSuccessfully.

(** The process: the module globals of [app.config] and
    [app.services.uaa_service], the rest of the state, and the output.
    [_uaa_service] holds the [dox_config] the service was built with; its
    token cache is [uaa_service] of the state. *)
Record App : Type := mkApp {
  config : Config.State;
  _uaa_service : option Config.DocumentAIConfig;
  world : World.State;
  printed : list line
}.

(** [get_uaa_service], with [UAAService.__init__] *)
Definition get_uaa_service (cenv : Config.Env) (app : App)
    : Config.result Config.DocumentAIConfig * App :=
  match _uaa_service app with
  | Some c => (Config.Ok c, app)
  | None =>
      match Config.get_dox_config cenv (config app) with
      | (Config.Err e, cst1) =>
          (Config.Err e, mkApp cst1 None (world app) (printed app))
      | (Config.Ok c, cst1) =>
          (Config.Ok c,
           mkApp cst1 (Some c)
                 (set_uaa_service (fun _ => mkUAA None 0) (world app))
                 (printed app))
      end
  end.

(** The three properties [get_access_token] reads to build its request,
    in the order it reads them. *)
Definition request_settings (c : Config.DocumentAIConfig) : Config.result unit :=
  match Config.uaa_url c with
  | Config.Err e => Config.Err e
  | Config.Ok _ =>
      match Config.uaa_client_id c with
      | Config.Err e => Config.Err e
      | Config.Ok _ =>
          match Config.uaa_client_secret c with
          | Config.Err e => Config.Err e
          | Config.Ok _ => Config.Ok tt
          end
      end
  end.

(** [UAAService.get_access_token] with the reads of its configuration:
    they come after the validity test and before the request. *)
Definition get_access_token (c : Config.DocumentAIConfig) (env : World.Env)
    (st : World.State) : (caught + option string) * World.State :=
  match UAA.cached_token_is_valid env st with
  | (Raise e, st1) => (inl (inl e), st1)
  | (Return valid, st1) =>
      match (if valid then Config.Ok tt else request_settings c) with
      | Config.Err e => (inl (inr e), st1)
      | Config.Ok _ =>
          match UAA.get_access_token env st with
          | (Return token, st2) => (inr token, st2)
          | (Raise e, st2) => (inl (inl e), st2)
          end
      end
  end.

(** [lifespan] up to its [yield]. *)
Definition lifespan_startup (cenv : Config.Env) (env : World.Env) (app : App) : App :=
  let out := printed app ++ [Starting] in
  (* Validate Document AI configuration *)
  let '(cst1, out) :=
    match Config.get_dox_config cenv (config app) with
    | (Config.Err e, cst1) => (cst1, out ++ [DocumentAIConfigurationError e])
    | (Config.Ok c, cst1) =>
        match Config.document_ai_url c with
        | Config.Err e => (cst1, out ++ [DocumentAIConfigurationError e])
        | Config.Ok url => (cst1, out ++ [DocumentAIConfigured url])
        end
    end in
  (* Test database connection *)
  let '(st1, out) :=
    match Database.test_connection env (world app) with
    | (Return true, st1) => (st1, out ++ [DatabaseConnected])
    | (Return false, st1) => (st1, out ++ [DatabaseConnectionFailed])
    | (Raise e, st1) => (st1, out ++ [DatabaseError e])
    end in
  (* Test UAA authentication *)
  let app1 := mkApp cst1 (_uaa_service app) st1 out in
  let app2 :=
    match get_uaa_service cenv app1 with
    | (Config.Err e, app2) =>
        mkApp (config app2) (_uaa_service app2) (world app2)
              (printed app2 ++ [UAAAuthenticationError (inr e)])
    | (Config.Ok c, app2) =>
        match get_access_token c env (world app2) with
        | (inr _, st2) =>
            mkApp (config app2) (_uaa_service app2) st2
                  (printed app2 ++ [UAAAuthenticationSuccessful])
        | (inl e, st2) =>
            mkApp (config app2) (_uaa_service app2) st2
                  (printed app2 ++ [UAAAuthenticationError e])
        end
    end in
  mkApp (config app2) (_uaa_service app2) (world app2)
        (printed app2 ++ [StartedSuccessfully]).

End Main.

(* ===================================================================== *)
(** * Further notions the statements use *)
(* ===================================================================== *)

Module Notions.
Import Py Payload World Effects Reference.


(** The seconds a trace spent asleep. *)
Fixpoint slept (t : list event) : Z :=
  match t with
  | [] => 0
  | EvSleep seconds :: t' => seconds + slept t'
  | _ :: t' => slept t'
  end.

(** The state after a run that only polled and slept. *)
Definition after_polling (evs : list event) (st : State) : State :=
  set_trace (fun t => t ++ evs) (set_polls (fun p => (p + polls_in evs)%nat) st).

(** The state after the file was opened for reading. *)
Definition after_open_rb (path : string) (st : State) : State :=
  set_trace (fun t => t ++ [EvFs OpenRead path]) st.

(** The state after the file was read and posted. *)
Definition after_post_upload (path : string) (st : State) : State :=
  set_trace (fun t => t ++ [EvUpload path]) (after_open_rb path st).

(** The upload answered 200 or 201. *)
Definition accepted (response : UploadResponse) : bool :=
  (upload_status_code response =? 200) || (upload_status_code response =? 201).

(** The events one extraction may add, in their order: at most one token
    request, then the read of the file, then the upload, then polls and
    sleeps for one document. *)
Definition extraction_events (path : string) (evs : list event) : Prop :=
  exists a b c,
    evs = a ++ b ++ c /\
    (a = [] \/ a = [EvTokenRequest]) /\
    (b = [] /\ c = [] \/
     b = [EvFs OpenRead path] /\ c = [] \/
     b = [EvFs OpenRead path; EvUpload path] /\
     exists id, Forall (fun ev => ev = EvPoll id \/ ev = EvSleep 2) c /\
                (sleeps c <= polls_in c <= 30)%nat).

(** Every stored identifier is below the next one to assign, and no two
    rows share one. *)
Definition well_numbered (d : Store) : Prop :=
  Forall (fun r => INVOICE_ID r < next_id d) (table d) /\
  NoDup (map INVOICE_ID (table d)).

(** The state a query on a working database leaves: four driver calls,
    and the connection closed. *)
Definition after_query (stmt : statement) (st : State) : State :=
  set_trace (fun t => t ++ [EvDb Connect; EvDb (Execute stmt); EvDb Commit; EvDb Close])
    (set_store (fun d => mkStore (table d) (next_id d) None (4 + db_calls d)) st).

(** No two different rows share an upload instant, and at most one row
    has none. *)
Definition distinct_instants (rows : list Row) : Prop :=
  forall r1 r2, r1 ∈ rows -> r2 ∈ rows ->
                UPLOAD_TIMESTAMP r1 = UPLOAD_TIMESTAMP r2 -> r1 = r2.

(** The ranks the store gives the rows in the query of a call of
    [get_all_invoices] that starts in [st]: the query is the second
    driver call. *)
Definition ranks_of (env : Env) (st : State) : Row -> Z :=
  db_row_order env (S (db_calls (store st))).

(** The database never refuses a call. *)
Definition working (env : Env) : Prop := forall n op, db_fault env n op = None.

(** The four driver calls of a query succeed. *)
Definition query_succeeds (env : Env) (st : State) (stmt : statement) : bool :=
  let n := db_calls (store st) in
  bool_decide (db_fault env n Connect = None) &&
  bool_decide (db_fault env (S n) (Execute stmt) = None) &&
  bool_decide (db_fault env (S (S n)) Commit = None) &&
  bool_decide (db_fault env (S (S (S n))) Close = None).

(** The INSERT of an insert runs: the connect and the statement are
    served. *)
Definition insert_runs (env : Env) (st : State) (a : InsertArgs) : bool :=
  let n := db_calls (store st) in
  bool_decide (db_fault env n Connect = None) &&
  bool_decide (db_fault env (S n) (Execute (INSERT_INVOICE a)) = None).

(** The five driver calls of an insert are served. *)
Definition insert_succeeds (env : Env) (st : State) (a : InsertArgs) : bool :=
  let n := db_calls (store st) in
  insert_runs env st a &&
  bool_decide (db_fault env (S (S n)) (Execute SELECT_CURRENT_IDENTITY) = None) &&
  bool_decide (db_fault env (S (S (S n))) Commit = None) &&
  bool_decide (db_fault env (S (S (S (S n)))) Close = None).

(** The record [upload_invoice] stores for a parsed invoice. *)
Definition processed_args (file : Router.UploadFile) (parsed : DocumentAI.Parsed)
    : InsertArgs :=
  mkInsertArgs (DocumentAI.invoice_number parsed) (DocumentAI.vendor_name parsed)
               (Router.filename file) (Router.file_size_kb_of file)
               (DocumentAI.raw_json parsed) "PROCESSED" None.

(** The record it stores when processing failed with [e]. *)
Definition failed_args (file : Router.UploadFile) (e : exn) : InsertArgs :=
  mkInsertArgs "UNKNOWN" "UNKNOWN" (Router.filename file) (Router.file_size_kb_of file)
               "" "FAILED" (Some (str_of_exn e)).

(** The response to a processed upload. *)
Definition processed_response (file : Router.UploadFile) (parsed : DocumentAI.Parsed)
    (id : Z) : Models.InvoiceUploadResponse :=
  Models.mkInvoiceUploadResponse id
    (DocumentAI.invoice_number parsed) (DocumentAI.vendor_name parsed)
    (Router.filename file) (round2 (Router.file_size_kb_of file))
    (DocumentAI.confidence_score parsed)
    "PROCESSED" "Invoice processed successfully".

(** [path] is the first of [paths] that exists; [before] are the ones
    tried before it. *)
Definition first_existing (cenv : Config.Env) (paths : list string)
    (before : list string) (path : string) : Prop :=
  exists after,
    paths = before ++ path :: after /\
    Forall (fun p => Config.path_exists cenv p = false) before /\
    Config.path_exists cenv path = true.

End Notions.

(* ===================================================================== *)
(** * More sample worlds *)
(* ===================================================================== *)

Module MoreSamples.
Import Py Payload World Effects Samples.


(** One record of a failed upload, with its error message. *)
Definition failed_row_state : State :=
  mkState (mkUAA None 0)
          (mkStore [mkRow 1 "UNKNOWN" "UNKNOWN" (Some 10) "a.pdf" 1 "" "FAILED"
                          (Some "Extraction timeout after 60 seconds") (Some 10)]
                   2 None 0) ∅ 0 0 0 [].

(** An upload that is not a PDF. *)
Definition text_file : Router.UploadFile := Router.mkUploadFile "notes.txt" [Byte.x25].

(** The first call of the driver is refused, every later one is served. *)
Definition flaky_db_env : Env :=
  with_db_fault (fun n _ => if (n =? 0)%nat then Some "Connection refused" else None)
                fair_env.

(** What the extraction of [small_pdf] gives in [fair_env]. *)
Definition parsed_inv1 : DocumentAI.Parsed :=
  DocumentAI.mkParsed "INV-1" "Acme" (float_of_decimal 85 100) "{}".

(** A complete service key. *)
Definition service_key : Config.json :=
  Config.JObject
    [("url", Config.JString "https://dox.example");
     ("resturl", Config.JString "/document-information-extraction/v1/");
     ("uaa", Config.JObject [("url", Config.JString "https://uaa.example");
                             ("clientid", Config.JString "client");
                             ("clientsecret", Config.JString "secret")])].

(** The key file lies in [backend/], the second place looked at. *)
Definition backend_key_cenv : Config.Env :=
  Config.mkEnv "dox-service-key.json" "/srv/backend/app"
               (fun p => String.eqb p "backend/dox-service-key.json")
               (fun _ => inr service_key).

(** There is no key file anywhere. *)
Definition no_key_cenv : Config.Env :=
  Config.mkEnv "dox-service-key.json" "/srv/backend/app"
               (fun _ => false) (fun _ => inl "No such file or directory").

(** A process that has not run anything yet. *)
Definition new_process : Main.App :=
  Main.mkApp (Config.mkState None []) None fresh_state [].

End MoreSamples.

(* ===================================================================== *)
(** * Properties of the result parser *)
(* ===================================================================== *)

Section Parser.
Import Py Payload World Reference.
Import DocumentAI.

Lemma str_of_Z_nonempty z : truthy_str (str_of_Z z) = true.
Proof.
  unfold str_of_Z.
  destruct z as [|p|p]; cbn; [done| |done].
  by destruct (Pos.to_uint p).
Qed.

(** [str] of a truthy value is never the empty string. *)
Lemma str_truthy v : truthy v = true -> truthy_str (str v) = true.
Proof.
  destruct v as [|[]|z|s]; cbn; try congruence; auto.
  intros _. apply str_of_Z_nonempty.
Qed.

(** What the loop leaves in its three locals, from any starting point. *)
Lemma parse_loop_from fs : forall l,
  fold_left parse_field fs l =
  mkLocals
    (match last_match "invoiceNumber" fs with
     | Some v => Some (str v) | None => loc_invoice_number l end)
    (match last_match "senderName" fs with
     | Some v => Some (str v) | None => loc_vendor_name l end)
    (loc_confidence_scores l ++ present_nonzero fs).
Proof.
  induction fs as [|f fs IH]; intros l; cbn [fold_left last_match present_nonzero].
  - destruct l; cbn. by rewrite app_nil_r.
  - rewrite IH. unfold parse_field at 1 2 3. cbn [loc_invoice_number loc_vendor_name loc_confidence_scores].
    f_equal.
    + destruct (last_match "invoiceNumber" fs); [done|].
      unfold is_match. by destruct (name_is _ _ && _).
    + destruct (last_match "senderName" fs); [done|].
      unfold is_match. by destruct (name_is _ _ && _).
    + destruct (field_confidence f) as [c|]; unfold default; cbn [from_option id].
      * destruct (truthy_float c); [by rewrite <- app_assoc | done].
      * by change (truthy_float (float_of_Z 0)) with false.
Qed.

Lemma parse_loop_spec fs :
  parse_loop fs =
  mkLocals (str <$> last_match "invoiceNumber" fs)
           (str <$> last_match "senderName" fs)
           (present_nonzero fs).
Proof.
  unfold parse_loop. rewrite parse_loop_from. cbn.
  by destruct (last_match "invoiceNumber" fs), (last_match "senderName" fs).
Qed.

(** A last match exists exactly when a first match does, and both are
    values of non-empty fields. *)
Lemma last_match_truthy name fs v : last_match name fs = Some v -> truthy v = true.
Proof.
  induction fs as [|f fs IH]; cbn; [done|].
  destruct (last_match name fs); [naive_solver|].
  unfold is_match. destruct (name_is _ _); cbn; [|done].
  destruct (truthy (field_value f)) eqn:E; naive_solver.
Qed.

Lemma last_match_None name fs :
  last_match name fs = None <-> existsb (is_match name) fs = false.
Proof.
  induction fs as [|f fs IH]; cbn; [done|].
  destruct (last_match name fs), (is_match name f); cbn; intuition congruence.
Qed.

Lemma first_match_None name fs :
  first_match name fs = None <-> existsb (is_match name) fs = false.
Proof.
  induction fs as [|f fs IH]; cbn; [done|].
  destruct (is_match name f); cbn; intuition congruence.
Qed.

(** ** The mean *)

Lemma fold_left_float_add xs : forall total,
  fold_left float_add xs total = running_sum total xs.
Proof. induction xs as [|x xs IH]; intros total; cbn; [done|apply IH]. Qed.

(** The code's average is the arithmetic mean, as floats give it. *)
Lemma average_is_mean xs : average xs = arithmetic_mean xs.
Proof.
  destruct xs as [|x xs]; [reflexivity|].
  unfold average, arithmetic_mean, py_sum. by rewrite fold_left_float_add.
Qed.

(** ** What the parser returns *)

(** The two reads fail on [null], and give the fields of the result
    otherwise. *)
Lemma read_header_fields_spec r :
  read_header_fields r =
  match result_extraction r with
  | Null => Raise (AttributeError "'NoneType' object has no attribute 'get'")
  | Value Null => Raise (TypeError "'NoneType' object is not iterable")
  | _ => Return (header_fields_of r)
  end.
Proof.
  unfold read_header_fields, header_fields_of.
  by destruct (result_extraction r) as [| |[| |fs]].
Qed.

Lemma parse_fields_spec fs text :
  (let l := parse_loop fs in
   if negb (truthy_opt_str (loc_invoice_number l)) then
     Raise (Exception "Invoice number not found in extraction results")
   else if negb (truthy_opt_str (loc_vendor_name l)) then
     Raise (Exception "Vendor name not found in extraction results")
   else
     Return (mkParsed (default "" (loc_invoice_number l))
                      (default "" (loc_vendor_name l))
                      (float_round2 (average (loc_confidence_scores l)))
                      text)) =
  match last_match "invoiceNumber" fs, last_match "senderName" fs with
  | None, _ => Raise (Exception "Invoice number not found in extraction results")
  | Some _, None => Raise (Exception "Vendor name not found in extraction results")
  | Some vi, Some vv =>
      Return (mkParsed (str vi) (str vv)
                       (float_round2 (arithmetic_mean (present_nonzero fs))) text)
  end.
Proof.
  cbv zeta. rewrite parse_loop_spec.
  cbn [loc_invoice_number loc_vendor_name loc_confidence_scores].
  rewrite average_is_mean.
  destruct (last_match "invoiceNumber" _) as [vi|] eqn:Ei; [|reflexivity].
  destruct (last_match "senderName" _) as [vv|] eqn:Ev.
  - cbn. rewrite (str_truthy vi), (str_truthy vv); eauto using last_match_truthy.
  - cbn. by rewrite (str_truthy vi) by eauto using last_match_truthy.
Qed.

Lemma parse_body_spec r :
  parse_body r =
  match result_extraction r with
  | Null => Raise (AttributeError "'NoneType' object has no attribute 'get'")
  | Value Null => Raise (TypeError "'NoneType' object is not iterable")
  | _ =>
      match last_match "invoiceNumber" (header_fields_of r),
            last_match "senderName" (header_fields_of r) with
      | None, _ => Raise (Exception "Invoice number not found in extraction results")
      | Some _, None => Raise (Exception "Vendor name not found in extraction results")
      | Some vi, Some vv =>
          Return (mkParsed (str vi) (str vv)
                    (float_round2 (arithmetic_mean (present_nonzero (header_fields_of r))))
                    (serialized r))
      end
  end.
Proof.
  unfold parse_body. rewrite read_header_fields_spec.
  destruct (result_extraction r) as [| |[| |fs]] eqn:E; try reflexivity.
  all: apply parse_fields_spec.
Qed.

(** A result that holds [null] where the fields are read lists no field. *)
Lemma null_has_no_fields r :
  result_extraction r = Null \/ result_extraction r = Value Null ->
  header_fields_of r = [].
Proof. unfold header_fields_of. by intros [-> | ->]. Qed.

End Parser.

Section ParserClaims.
Import Py Payload World Reference Samples.
Import DocumentAI.

(** C1, as amended: when the field list holds non-empty fields named
    "invoiceNumber" and "senderName", however many of each, the parser
    returns, and the value it returns for a name is the one of the LAST
    non-empty field of that name: every later match overwrites the
    earlier one. *)
Theorem parse_last_match_wins (r : ExtractionResult) (vi vv : jvalue) :
  last_match "invoiceNumber" (header_fields_of r) = Some vi ->
  last_match "senderName" (header_fields_of r) = Some vv ->
  exists p, _parse_extraction_results r = Return p /\
            invoice_number p = str vi /\ vendor_name p = str vv.
Proof.
  intros Hi Hv. unfold _parse_extraction_results. rewrite parse_body_spec.
  destruct (result_extraction r) as [| |[| |fs]] eqn:E.
  2, 4: rewrite null_has_no_fields in Hi by auto; discriminate.
  all: rewrite Hi, Hv; eexists; split; [reflexivity|]; by cbn.
Qed.

Lemma parse_last_match_wins_witness :
  last_match "invoiceNumber" (header_fields_of duplicate_numbers) = Some (JStr "B") /\
  last_match "senderName" (header_fields_of duplicate_numbers) = Some (JStr "Acme") /\
  exists p, _parse_extraction_results duplicate_numbers = Return p /\
            invoice_number p = "B" /\ vendor_name p = "Acme".
Proof.
  split; [reflexivity|]. split; [reflexivity|].
  apply (parse_last_match_wins duplicate_numbers (JStr "B") (JStr "Acme")); reflexivity.
Defined.

(** C1 as stated fails: with the invoice numbers "A" then "B", the first
    non-empty match is "A" and the parser returns "B". *)
Lemma first_match_does_not_win :
  first_match "invoiceNumber" (header_fields_of duplicate_numbers) = Some (JStr "A") /\
  _parse_extraction_results duplicate_numbers
    = Return (mkParsed "B" "Acme" (float_of_Z 0) "{}") /\
  "B" <> str (JStr "A").
Proof. split; [reflexivity|]. split; [reflexivity|]. discriminate. Qed.

(** C2, as amended: whenever the parser returns, its confidence_score is
    the arithmetic mean of the confidence values that are present and
    non-zero, ROUNDED to two decimal places as [round(avg, 2)] rounds a
    float, and it is 0 when there is no such value; the fields
    invoiceNumber="INV-1" (0.9) and senderName="Acme" (0.8) give "INV-1",
    "Acme" and 0.85.  The mean and the rounding are those of floats: the
    values are added in list order and the sum is divided by their
    number, each step giving the nearest double. *)
Theorem parse_confidence_is_rounded_mean :
  (forall r p,
      _parse_extraction_results r = Return p ->
      confidence_score p
        = float_round2 (arithmetic_mean (present_nonzero (header_fields_of r))) /\
      (present_nonzero (header_fields_of r) = [] -> confidence_score p = float_of_Z 0)) /\
  _parse_extraction_results done_payload
    = Return (mkParsed "INV-1" "Acme" (float_of_decimal 85 100) "{}").
Proof.
  split; [|vm_compute; reflexivity].
  intros r p. unfold _parse_extraction_results. rewrite parse_body_spec.
  assert (forall o : outcome Parsed,
            match o with
            | Return parsed => Return parsed
            | Raise e =>
                if is_KeyError e
                then Raise (Exception ("Error parsing extraction results: Missing key "
                                       +:+ str_of_exn e))
                else Raise (Exception ("Error parsing extraction results: " +:+ str_of_exn e))
            end = Return p -> o = Return p) as Hout.
  { intros [parsed|e]; [done|]. by destruct (is_KeyError e). }
  intros Hrun%Hout.
  destruct (result_extraction r) as [| |[| |fs]]; try discriminate.
  all: destruct (last_match "invoiceNumber" _) as [vi|]; [|discriminate].
  all: destruct (last_match "senderName" _) as [vv|]; [|discriminate].
  all: injection Hrun as <-; cbn [confidence_score]; split; [reflexivity|].
  all: by intros ->.
Qed.

(** One confidence of 0.333 gives 0.33.  One of 0.665 gives 0.67, and
    so do 0.67 and 0.66 together: the doubles lie above the middle. *)
Lemma parse_confidence_is_rounded_mean_witness :
  (_parse_extraction_results third_payload
     = Return (mkParsed "INV-1" "Acme" (float_of_decimal 33 100) "{}") /\
   float_of_decimal 33 100 = float_round2 (arithmetic_mean [float_of_decimal 333 1000])) /\
  (_parse_extraction_results above_tie_payload
     = Return (mkParsed "INV-1" "Acme" (float_of_decimal 67 100) "{}") /\
   float_of_decimal 67 100 = float_round2 (arithmetic_mean [float_of_decimal 665 1000])) /\
  (_parse_extraction_results uneven_pair_payload
     = Return (mkParsed "INV-1" "Acme" (float_of_decimal 67 100) "{}") /\
   float_of_decimal 67 100
   = float_round2 (arithmetic_mean [float_of_decimal 67 100; float_of_decimal 66 100])).
Proof.
  split; [|split].
  - split; [vm_compute; reflexivity|].
    exact (proj1 (proj1 parse_confidence_is_rounded_mean third_payload
                    (mkParsed "INV-1" "Acme" (float_of_decimal 33 100) "{}")
                    ltac:(vm_compute; reflexivity))).
  - split; [vm_compute; reflexivity|].
    exact (proj1 (proj1 parse_confidence_is_rounded_mean above_tie_payload
                    (mkParsed "INV-1" "Acme" (float_of_decimal 67 100) "{}")
                    ltac:(vm_compute; reflexivity))).
  - split; [vm_compute; reflexivity|].
    exact (proj1 (proj1 parse_confidence_is_rounded_mean uneven_pair_payload
                    (mkParsed "INV-1" "Acme" (float_of_decimal 67 100) "{}")
                    ltac:(vm_compute; reflexivity))).
Defined.

(** C2 as stated fails: one confidence of 0.333 has mean 0.333, and the
    parser returns 0.33. *)
Lemma confidence_is_not_the_mean :
  _parse_extraction_results third_payload
    = Return (mkParsed "INV-1" "Acme" (float_of_decimal 33 100) "{}") /\
  arithmetic_mean (present_nonzero (header_fields_of third_payload))
    = float_of_decimal 333 1000 /\
  float_of_decimal 33 100 <> float_of_decimal 333 1000.
Proof.
  split; [vm_compute; reflexivity|]. split; [vm_compute; reflexivity|].
  vm_compute. discriminate.
Qed.

(** C6, as amended: a result without a non-empty "invoiceNumber" field,
    or without a non-empty "senderName" field, makes the parser fail,
    whatever other fields it has: with the field-missing error when
    neither "extraction" nor its "headerFields" is null, and with the
    parsing error that the null causes otherwise; and a result the parser
    returns has a non-empty invoice number and vendor name, both taken
    from fields of the payload. *)
Theorem parse_requires_both_fields (r : ExtractionResult) :
  (result_extraction r <> Null -> result_extraction r <> Value Null ->
   (existsb (is_match "invoiceNumber") (header_fields_of r) = false ->
    _parse_extraction_results r
      = Raise (Exception "Error parsing extraction results: Invoice number not found in extraction results")) /\
   (existsb (is_match "invoiceNumber") (header_fields_of r) = true ->
    existsb (is_match "senderName") (header_fields_of r) = false ->
    _parse_extraction_results r
      = Raise (Exception "Error parsing extraction results: Vendor name not found in extraction results"))) /\
  (result_extraction r = Null ->
   _parse_extraction_results r
     = Raise (Exception "Error parsing extraction results: 'NoneType' object has no attribute 'get'")) /\
  (result_extraction r = Value Null ->
   _parse_extraction_results r
     = Raise (Exception "Error parsing extraction results: 'NoneType' object is not iterable")) /\
  (forall p, _parse_extraction_results r = Return p ->
     truthy_str (invoice_number p) = true /\
     truthy_str (vendor_name p) = true /\
     existsb (is_match "invoiceNumber") (header_fields_of r) = true /\
     existsb (is_match "senderName") (header_fields_of r) = true).
Proof.
  unfold _parse_extraction_results. rewrite parse_body_spec.
  split; [|split; [|split]].
  - intros Hn1 Hn2.
    assert (forall X : outcome Parsed,
              match result_extraction r with
              | Null => Raise (AttributeError "'NoneType' object has no attribute 'get'")
              | Value Null => Raise (TypeError "'NoneType' object is not iterable")
              | _ => X
              end = X) as ->.
    { intros X. by destruct (result_extraction r) as [| |[| |fs]]. }
    split.
    + intros H. apply last_match_None in H. by rewrite H.
    + intros Hi Hv. apply last_match_None in Hv. rewrite Hv.
      destruct (last_match "invoiceNumber" _) eqn:E; [reflexivity|].
      apply last_match_None in E. congruence.
  - by intros ->.
  - by intros ->.
  - intros p.
    destruct (result_extraction r) as [| |[| |fs]] eqn:E; try discriminate.
    all: destruct (last_match "invoiceNumber" _) as [vi|] eqn:Ei; [|discriminate].
    all: destruct (last_match "senderName" _) as [vv|] eqn:Ev; [|discriminate].
    all: intros [= <-]; cbn [invoice_number vendor_name].
    all: repeat split; eauto using str_truthy, last_match_truthy.
    all: apply not_false_iff_true; rewrite <- last_match_None; congruence.
Qed.

Lemma parse_requires_both_fields_witness :
  existsb (is_match "invoiceNumber") (header_fields_of no_sender) = true /\
  existsb (is_match "senderName") (header_fields_of no_sender) = false /\
  _parse_extraction_results no_sender
    = Raise (Exception "Error parsing extraction results: Vendor name not found in extraction results").
Proof.
  split; [reflexivity|]. split; [reflexivity|].
  apply (proj2 (proj1 (parse_requires_both_fields no_sender)
                  ltac:(discriminate) ltac:(discriminate))); reflexivity.
Defined.

(** C6 as stated fails: a result whose "extraction" is null, or whose
    "headerFields" is null, has no field named "invoiceNumber", and the
    parser fails with the error of reading from [None], not with the
    field-missing error. *)
Lemma null_is_not_field_missing :
  (existsb (is_match "invoiceNumber") (header_fields_of null_extraction) = false /\
   _parse_extraction_results null_extraction
     = Raise (Exception "Error parsing extraction results: 'NoneType' object has no attribute 'get'")) /\
  (existsb (is_match "invoiceNumber") (header_fields_of null_header_fields) = false /\
   _parse_extraction_results null_header_fields
     = Raise (Exception "Error parsing extraction results: 'NoneType' object is not iterable")).
Proof. split; split; reflexivity. Qed.

End ParserClaims.

(* ===================================================================== *)
(** * Properties of the poll loop *)
(* ===================================================================== *)

Section Polling.
Import Py Payload World Effects Reference Samples.
Import DocumentAI.


Lemma status_is_eq s x : status_is s x = true <-> s = Some x.
Proof.
  destruct s as [s|]; cbn; [|naive_solver].
  rewrite String.eqb_eq. naive_solver.
Qed.

(** One iteration of the loop, run. *)
Lemma poll_loop_S n id env st :
  poll_loop (S n) id env st =
  let r := poll_endpoint env id (polls st) in
  let status := result_status (poll_json r) in
  let st1 := set_trace (fun t => t ++ [EvPoll id]) (set_polls S st) in
  if negb (poll_status_code r =? 200) then
    (Raise (Exception ("Polling failed: " +:+ str_of_Z (poll_status_code r)
                       +:+ " - " +:+ poll_text r)), st1)
  else if status_is status "DONE" then (Return (poll_json r), st1)
  else if status_is status "FAILED" then
    (Raise (Exception ("Document extraction failed: "
                       +:+ str_of_error (result_error (poll_json r)))), st1)
  else if status_is status "PENDING" || status_is status "RUNNING" then
    poll_loop n id env (set_trace (fun t => t ++ [EvSleep poll_interval]) st1)
  else (Raise (Exception ("Unknown status: " +:+ str_of_status status)), st1).
Proof.
  cbn [poll_loop]. unfold bind, get_poll, asyncio_sleep, log, modify, raise, ret.
  cbv zeta.
  destruct (negb _); [done|]. destruct (status_is _ "DONE"); [done|].
  destruct (status_is _ "FAILED"); [done|]. by destruct (_ || _).
Qed.

Lemma in_progress_step r :
  in_progress r = true ->
  (poll_status_code r =? 200) = true /\
  status_is (result_status (poll_json r)) "DONE" = false /\
  status_is (result_status (poll_json r)) "FAILED" = false /\
  (status_is (result_status (poll_json r)) "PENDING"
   || status_is (result_status (poll_json r)) "RUNNING") = true.
Proof.
  unfold in_progress. intros [Hc Hs]%andb_true_iff. repeat split; auto.
  all: apply orb_true_iff in Hs as [Hs|Hs]; apply status_is_eq in Hs; rewrite Hs; reflexivity.
Qed.

Lemma after_rounds_0 id st : after_rounds id 0 st = st.
Proof. destruct st. unfold after_rounds, set_trace, set_polls. cbn. by rewrite app_nil_r, Nat.add_0_r. Qed.

Lemma poll_loop_rounds id env k : forall n st,
  (forall i, (i < k)%nat -> in_progress (poll_endpoint env id (polls st + i)) = true) ->
  poll_loop (k + n) id env st = poll_loop n id env (after_rounds id k st).
Proof.
  induction k as [|k IH]; intros n st Hk.
  - by rewrite after_rounds_0.
  - cbn [Nat.add]. rewrite poll_loop_S. cbv zeta.
    destruct (in_progress_step _ (Hk 0%nat ltac:(lia))) as (Hc & Hd & Hf & Hp).
    rewrite Nat.add_0_r in Hc, Hd, Hf, Hp.
    rewrite Hc, Hd, Hf, Hp. cbn [negb].
    rewrite IH.
    + f_equal. destruct st. unfold after_rounds, set_trace, set_polls. cbn.
      f_equal; [lia|]. by rewrite <- !app_assoc.
    + intros i Hi. cbn. specialize (Hk (S i) ltac:(lia)).
      by rewrite Nat.add_succ_r in Hk.
Qed.

Lemma after_last_poll_eq id k st :
  set_trace (fun t => t ++ [EvPoll id]) (set_polls S (after_rounds id k st))
  = after_last_poll id k st.
Proof.
  destruct st. unfold after_last_poll, after_rounds, set_trace, set_polls. cbn.
  by rewrite <- app_assoc.
Qed.

(** The loop never polls more often than it has iterations. *)
Lemma poll_loop_polls_bound id env n : forall st,
  (polls (state_of (poll_loop n id env st)) <= polls st + n)%nat.
Proof.
  induction n as [|n IH]; intros st.
  - cbn. lia.
  - rewrite poll_loop_S. cbv zeta.
    destruct (negb _); [cbn; lia|].
    destruct (status_is _ "DONE"); [cbn; lia|].
    destruct (status_is _ "FAILED"); [cbn; lia|].
    destruct (_ || _); [|cbn; lia].
    etrans; [apply IH|]. destruct st; cbn. lia.
Qed.

(** C3, as amended: a poll answered with an HTTP status other than 200
    fails the loop at once with a polling error, whatever its body.
    Among polls answered with HTTP 200, the loop returns the full body of
    the first response with status DONE, fails with the vendor-reported
    error on the first FAILED, and fails at once with an
    unrecognized-status error on the first status outside DONE, FAILED,
    PENDING, RUNNING; it sleeps exactly once, for 2 seconds, after every
    PENDING or RUNNING response; after 30 such responses it fails with
    the timeout error; and it never polls more than 30 times.  (A FAILED
    body without an "error" key is reported as "Unknown error", one whose
    "error" is null as "None".) *)
Theorem poll_for_results_contract env st id tok :
  let resp i := poll_endpoint env id (polls st + i) in
  let run := _poll_for_results id tok env st in
  (forall k, (k < max_poll_attempts)%nat ->
     (forall i, (i < k)%nat -> in_progress (resp i) = true) ->
     let status := result_status (poll_json (resp k)) in
     (poll_status_code (resp k) <> 200 ->
      run = (Raise (Exception ("Polling failed: "
                               +:+ str_of_Z (poll_status_code (resp k))
                               +:+ " - " +:+ poll_text (resp k))),
             after_last_poll id k st)) /\
     (poll_status_code (resp k) = 200 ->
      (status = Some "DONE" ->
       run = (Return (poll_json (resp k)), after_last_poll id k st)) /\
      (status = Some "FAILED" ->
       let failed text :=
         run = (Raise (Exception ("Document extraction failed: " +:+ text)),
                after_last_poll id k st) in
       (forall text, result_error (poll_json (resp k)) = Value text -> failed text) /\
       (result_error (poll_json (resp k)) = Absent -> failed "Unknown error") /\
       (result_error (poll_json (resp k)) = Null -> failed "None")) /\
      (status <> Some "DONE" -> status <> Some "FAILED" ->
       status <> Some "PENDING" -> status <> Some "RUNNING" ->
       run = (Raise (Exception ("Unknown status: " +:+ str_of_status status)),
              after_last_poll id k st)))) /\
  ((forall i, (i < max_poll_attempts)%nat -> in_progress (resp i) = true) ->
   run = (Raise (Exception "Extraction timeout after 60 seconds"),
          after_rounds id max_poll_attempts st)) /\
  (polls (state_of run) <= polls st + max_poll_attempts)%nat.
Proof.
  intros resp run. subst resp run. unfold _poll_for_results. cbv beta zeta.
  split; [|split].
  - intros k Hk Hprefix.
    replace max_poll_attempts with (k + S (max_poll_attempts - S k))%nat by lia.
    rewrite poll_loop_rounds by exact Hprefix.
    rewrite poll_loop_S. cbv zeta.
    rewrite after_last_poll_eq.
    replace (polls (after_rounds id k st)) with (polls st + k)%nat by (by destruct st).
    set (r := poll_endpoint env id (polls st + k)).
    set (status := result_status (poll_json r)).
    split; [|intros H200; split; [|split]].
    + intros Hne. apply Z.eqb_neq in Hne. by rewrite Hne.
    + intros Hs. rewrite H200, Hs. reflexivity.
    + intros Hs. rewrite H200, Hs. cbv zeta. cbn [Z.eqb Pos.eqb negb status_is String.eqb].
      change (status_is (Some "FAILED") "DONE") with false.
      change (status_is (Some "FAILED") "FAILED") with true. cbv iota.
      split; [|split]; [intros text ->|intros ->..]; reflexivity.
    + intros Hd Hf Hp Hr. rewrite H200. cbn [Z.eqb Pos.eqb negb].
      rewrite <- status_is_eq in Hd, Hf, Hp, Hr.
      apply not_true_is_false in Hd, Hf, Hp, Hr. by rewrite Hd, Hf, Hp, Hr.
  - intros Hall.
    replace max_poll_attempts with (max_poll_attempts + 0)%nat at 1 by lia.
    rewrite poll_loop_rounds by exact Hall. reflexivity.
  - apply poll_loop_polls_bound.
Qed.

Lemma sleeps_rounds id k : sleeps (rounds id k) = k.
Proof. induction k as [|k IH]; cbn; [done|]. unfold sleeps in IH. by rewrite IH. Qed.

Lemma polls_in_rounds id k : polls_in (rounds id k) = k.
Proof. induction k as [|k IH]; cbn; [done|]. unfold polls_in in IH. by rewrite IH. Qed.

(** PENDING, PENDING, DONE: two sleeps, three polls, the DONE payload. *)
Lemma poll_for_results_contract_witness :
  _poll_for_results "job1" (Some "token-1") fair_env fresh_state
    = (Return done_payload, after_last_poll "job1" 2 fresh_state) /\
  sleeps (trace (after_last_poll "job1" 2 fresh_state)) = 2%nat /\
  polls_in (trace (after_last_poll "job1" 2 fresh_state)) = 3%nat.
Proof.
  split; [|split; reflexivity].
  destruct (poll_for_results_contract fair_env fresh_state "job1" (Some "token-1"))
    as [H _].
  specialize (H 2%nat). cbv zeta in H.
  apply H.
  - unfold max_poll_attempts. lia.
  - intros [|[|i]] Hi; [reflexivity|reflexivity|lia].
  - reflexivity.
  - reflexivity.
Defined.

(** C3 as stated fails: the first response has status DONE, and the
    loop raises instead of returning its body, because the response
    came with HTTP 500. *)
Lemma poll_http_status_counterexample :
  result_status (poll_json (poll_endpoint server_error_env "job1" 0)) = Some "DONE" /\
  _poll_for_results "job1" (Some "token-1") server_error_env fresh_state
    = (Raise (Exception "Polling failed: 500 - Internal Server Error"),
       after_last_poll "job1" 0 fresh_state).
Proof. split; reflexivity. Qed.

End Polling.

(* ===================================================================== *)
(** * Properties of the token cache *)
(* ===================================================================== *)

Section TokenCache.
Import Py Payload World Effects Reference Samples.
Import UAA.

Lemma truthy_str_ne s : truthy_str s = true <-> s <> "".
Proof. destruct s; cbn; naive_solver. Qed.

Lemma cache_test_fresh env st :
  cache_test env st = true <-> token_is_fresh (uaa_service st) (clock env (ticks st)).
Proof.
  unfold cache_test, token_is_fresh.
  rewrite andb_true_iff, negb_true_iff.
  destruct (_cached_token (uaa_service st)) as [tok|]; cbn [truthy_opt_str].
  - rewrite truthy_str_ne. split.
    + intros [Hne Hle]. exists tok. repeat split; auto.
      apply Qnot_le_lt. rewrite <- Qle_bool_iff. congruence.
    + intros (tok' & [= <-] & Hne & Hlt). split; auto.
      apply not_true_is_false. rewrite Qle_bool_iff. by apply Qlt_not_le.
  - split; [intros [? _]; discriminate|intros (? & ? & _); discriminate].
Qed.

Lemma cached_token_is_valid_run env st :
  cached_token_is_valid env st = (Return (cache_test env st), after_check st).
Proof.
  unfold cached_token_is_valid, cache_test, after_check, bind, get, time_time, ret.
  by destruct (truthy_opt_str _).
Qed.

(** The ways a call ends. *)
Lemma get_access_token_run env st :
  get_access_token env st =
  let response := token_endpoint env (token_requests st) in
  if cache_test env st then
    (Return (_cached_token (uaa_service st)), after_check st)
  else if negb (token_status_code response =? 200) then
    (Raise (HTTPError ("UAA authentication failed: "
                       +:+ str_of_Z (token_status_code response)
                       +:+ " - " +:+ token_text response)),
     after_request st)
  else
    match subscript_access_token response with
    | Raise e => (Raise e, after_request st)
    | Return token =>
        match get_expires_in response with
        | None =>
            (Raise (TypeError "unsupported operand type(s) for +: 'float' and 'NoneType'"),
             after_failed_refresh token st)
        | Some seconds => (Return token, after_refresh env token seconds st)
        end
    end.
Proof.
  assert (Hreq : token_requests (after_check st) = token_requests st).
  { unfold after_check. by destruct (truthy_opt_str _), st. }
  assert (Hu : uaa_service (after_check st) = uaa_service st).
  { unfold after_check. by destruct (truthy_opt_str _), st. }
  unfold get_access_token. unfold bind at 1. rewrite cached_token_is_valid_run.
  cbv zeta. destruct (cache_test env st).
  { unfold bind, get, ret. by rewrite Hu. }
  unfold bind at 1, post_token at 1. rewrite Hreq. fold (after_request st).
  destruct (negb _); [reflexivity|].
  unfold bind at 1, lift at 1.
  destruct (subscript_access_token _) as [token|e]; [|reflexivity].
  unfold bind at 1, modify at 1. unfold bind at 1, time_time at 1.
  destruct (get_expires_in _) as [seconds|].
  - unfold bind, modify, get, ret, after_refresh, after_request.
    destruct (after_check st). reflexivity.
  - unfold raise, after_failed_refresh, after_request.
    destruct (after_check st). reflexivity.
Qed.

Lemma not_fresh_test env st :
  ~ token_is_fresh (uaa_service st) (clock env (ticks st)) -> cache_test env st = false.
Proof. rewrite <- cache_test_fresh. apply not_true_is_false. Qed.

(** What a refresh leaves: the new token, its expiry counted from the
    clock reading taken when it is stored, and one more request. *)
Lemma after_refresh_facts env token seconds st :
  uaa_service (after_refresh env token seconds st)
    = mkUAA token (clock env (ticks (after_check st)) + seconds)%Q /\
  trace (after_refresh env token seconds st) = trace st ++ [EvTokenRequest] /\
  token_requests (after_refresh env token seconds st) = S (token_requests st).
Proof.
  unfold after_refresh, after_request, after_check.
  by destruct (truthy_opt_str _), st.
Qed.

Lemma after_request_facts st :
  uaa_service (after_request st) = uaa_service st /\
  trace (after_request st) = trace st ++ [EvTokenRequest] /\
  token_requests (after_request st) = S (token_requests st).
Proof. unfold after_request, after_check. by destruct (truthy_opt_str _), st. Qed.

(** What a refresh that fails on the expiry leaves: the new token with
    the old expiry, and one more request. *)
Lemma after_failed_refresh_facts token st :
  uaa_service (after_failed_refresh token st)
    = mkUAA token (_token_expires_at (uaa_service st)) /\
  trace (after_failed_refresh token st) = trace st ++ [EvTokenRequest] /\
  token_requests (after_failed_refresh token st) = S (token_requests st).
Proof.
  unfold after_failed_refresh, after_request, after_check.
  by destruct (truthy_opt_str _), st.
Qed.

(** A call that does not find a fresh token makes exactly one request,
    however it ends. *)
Lemma stale_call_requests_once env st :
  ~ token_is_fresh (uaa_service st) (clock env (ticks st)) ->
  token_requests (state_of (get_access_token env st)) = S (token_requests st) /\
  trace (state_of (get_access_token env st)) = trace st ++ [EvTokenRequest].
Proof.
  intros Hn. rewrite get_access_token_run. cbv zeta.
  rewrite (not_fresh_test _ _ Hn).
  destruct (after_request_facts st) as (_ & Htr & Hreq).
  destruct (negb _); [by split|].
  destruct (subscript_access_token _) as [token|e]; [|by split].
  unfold state_of. destruct (get_expires_in _) as [seconds|]; cbn [snd].
  - by destruct (after_refresh_facts env token seconds st) as (_ & ? & ?).
  - by destruct (after_failed_refresh_facts token st) as (_ & ? & ?).
Qed.




(** C10: when the call reaches the identity endpoint and the endpoint
    answers with a status other than 200, the call raises the
    authentication error and the cache is as it was: the same token
    string and the same expiry instant. *)
Theorem failed_refresh_keeps_cache env st :
  ~ token_is_fresh (uaa_service st) (clock env (ticks st)) ->
  token_status_code (token_endpoint env (token_requests st)) <> 200 ->
  (exists msg, result_of (get_access_token env st) = Raise (HTTPError msg)) /\
  uaa_service (state_of (get_access_token env st)) = uaa_service st.
Proof.
  intros Hn Hne. rewrite get_access_token_run. cbv zeta.
  rewrite (not_fresh_test _ _ Hn). apply Z.eqb_neq in Hne. rewrite Hne. cbn.
  split; [eauto|].
  unfold after_request, after_check. by destruct (truthy_opt_str _), st.
Qed.

Lemma failed_refresh_keeps_cache_witness :
  (exists msg, result_of (get_access_token unauthorized_env expired_state)
               = Raise (HTTPError msg)) /\
  uaa_service (state_of (get_access_token unauthorized_env expired_state))
    = mkUAA (Some "token-0") 100.
Proof.
  apply (failed_refresh_keeps_cache unauthorized_env expired_state).
  - intros (tok & _ & _ & Hlt). compute in Hlt. discriminate.
  - discriminate.
Defined.

End TokenCache.

(* ===================================================================== *)
(** * Properties of the persistence gateway *)
(* ===================================================================== *)

Section Connection.
Import Py Payload World Effects Reference Samples.
Import Database.

Lemma driver_call_run op env st :
  driver_call op env st =
  (match fault_at env st op with
   | Some msg => Raise (DBError msg)
   | None => Return tt
   end, driver_called op st).
Proof. unfold driver_call, fault_at. by destruct (db_fault _ _ _). Qed.

Lemma dbapi_connect_run env st :
  dbapi_connect env st =
  match fault_at env st Connect with
  | Some msg => (Raise (DBError msg), driver_called Connect st)
  | None => (Return tt, connected st)
  end.
Proof.
  unfold dbapi_connect, bind. rewrite driver_call_run.
  by destruct (fault_at _ _ _).
Qed.

Lemma driver_called_store op st :
  store (driver_called op st)
  = mkStore (table (store st)) (next_id (store st)) (session (store st))
            (S (db_calls (store st))).
Proof. by destruct st. Qed.

Lemma driver_called_trace op st : trace (driver_called op st) = trace st ++ [EvDb op].
Proof. by destruct st. Qed.

Lemma fault_at_driver_called env op st op' :
  fault_at env (driver_called op st) op' = db_fault env (S (db_calls (store st))) op'.
Proof. unfold fault_at. by rewrite driver_called_store. Qed.

(** A call on the open connection that leaves the data alone. *)
Lemma connection_call_run op env st :
  bind (driver_call op) (fun _ => bind the_session (fun _ => ret tt)) env st =
  (match fault_at env st op, session (store st) with
   | Some msg, _ => Raise (DBError msg)
   | None, None => Raise (DBError "Connection is closed")
   | None, Some _ => Return tt
   end, driver_called op st).
Proof.
  unfold bind. rewrite driver_call_run.
  destruct (fault_at _ _ _); [done|].
  unfold the_session, bind, get. rewrite driver_called_store. cbn [session].
  by destruct (session (store st)).
Qed.

Lemma connection_commit_run env st :
  connection_commit env st =
  (match fault_at env st Commit, session (store st) with
   | Some msg, _ => Raise (DBError msg)
   | None, None => Raise (DBError "Connection is closed")
   | None, Some _ => Return tt
   end, driver_called Commit st).
Proof. apply connection_call_run. Qed.

Lemma connection_rollback_run env st :
  connection_rollback env st =
  (match fault_at env st Rollback, session (store st) with
   | Some msg, _ => Raise (DBError msg)
   | None, None => Raise (DBError "Connection is closed")
   | None, Some _ => Return tt
   end, driver_called Rollback st).
Proof. apply connection_call_run. Qed.

Lemma connection_close_run env st :
  connection_close env st =
  match fault_at env st Close with
  | Some msg => (Raise (DBError msg), driver_called Close st)
  | None => (Return tt, closed st)
  end.
Proof.
  unfold connection_close, bind. rewrite driver_call_run.
  by destruct (fault_at _ _ _).
Qed.

(** [get_connection] once the connection is open and the body has run. *)
Lemma get_connection_run {A} (body : M A) env st :
  get_connection body env st =
  match fault_at env st Connect with
  | Some msg => (Raise (DBError msg), driver_called Connect st)
  | None =>
      let '(r, st2) := body env (connected st) in
      let '(r3, st3) :=
        match r with
        | Return v =>
            match connection_commit env st2 with
            | (Return _, st') => (Return v, st')
            | (Raise e, st') =>
                match connection_rollback env st' with
                | (Return _, st'') => (Raise e, st'')
                | (Raise e', st'') => (Raise e', st'')
                end
            end
        | Raise e =>
            match connection_rollback env st2 with
            | (Return _, st') => (Raise e, st')
            | (Raise e', st') => (Raise e', st')
            end
        end in
      match connection_close env st3 with
      | (Return _, st4) => (r3, st4)
      | (Raise e, st4) => (Raise e, st4)
      end
  end.
Proof.
  unfold get_connection. rewrite dbapi_connect_run.
  destruct (fault_at _ _ _); [done|].
  unfold try_finally, try_except, bind, raise, ret.
  destruct (body env (connected st)) as [[v|e] st2]; [|by destruct (connection_rollback _ _) as [[] ?]].
  destruct (connection_commit env st2) as [[] ?]; [done|].
  by destruct (connection_rollback _ _) as [[] ?].
Qed.

Lemma keeps_connection_bind {A B} (m : M A) (k : A -> M B) :
  keeps_connection m -> (forall a, keeps_connection (k a)) -> keeps_connection (bind m k).
Proof.
  intros Hm Hk env st Hs. unfold bind. specialize (Hm env st Hs). unfold state_of in *.
  destruct (m env st) as [[a|e] st1]; [by apply Hk|done].
Qed.

Lemma keeps_connection_ret {A} (a : A) : keeps_connection (ret a).
Proof. by intros env st. Qed.

Lemma keeps_connection_ask : keeps_connection ask.
Proof. by intros env st. Qed.

Lemma keeps_connection_get : keeps_connection get.
Proof. by intros env st. Qed.

Lemma driver_call_keeps op : keeps_connection (driver_call op).
Proof.
  intros env st Hs. rewrite driver_call_run. unfold state_of; cbn [snd].
  by rewrite driver_called_store.
Qed.

Lemma the_session_keeps : keeps_connection the_session.
Proof.
  intros env st Hs. unfold state_of, the_session, bind, get.
  destruct (session (store st)) eqn:E; cbn; congruence.
Qed.

Lemma execute_insert_keeps a : keeps_connection (execute_insert a).
Proof.
  apply keeps_connection_bind; [apply driver_call_keeps|]. intros _.
  apply keeps_connection_bind; [apply the_session_keeps|]. intros _.
  apply keeps_connection_bind; [apply keeps_connection_ask|]. intros env0.
  intros env st Hs. by destruct st.
Qed.

(** The bodies of insert, get, list and ping leave the connection open. *)
Lemma operations_keep_connection :
  (forall a, keeps_connection (bind (execute_insert a)
               (fun _ => bind execute_select_identity (fun invoice_id => ret invoice_id)))) /\
  (forall id, keeps_connection (bind (execute_select_by_id id) (fun row =>
               match row with
               | None => ret None
               | Some r => ret (Some (detail_dict r))
               end))) /\
  (forall limit offset, keeps_connection (bind (execute_select_page limit offset)
               (fun rows => ret (map list_dict rows)))) /\
  keeps_connection (bind execute_select_one (fun result => ret (result =? 1))).
Proof.
  split; [|split; [|split]]; intros.
  - apply keeps_connection_bind; [apply execute_insert_keeps|]. intros _.
    apply keeps_connection_bind; [|intros; apply keeps_connection_ret].
    apply keeps_connection_bind; [apply driver_call_keeps|]. intros _.
    apply keeps_connection_bind; [apply the_session_keeps|]. intros ?.
    apply keeps_connection_ret.
  - apply keeps_connection_bind; [|intros []; apply keeps_connection_ret].
    apply keeps_connection_bind; [apply driver_call_keeps|]. intros _.
    apply keeps_connection_bind; [apply the_session_keeps|]. intros _.
    apply keeps_connection_bind; [apply keeps_connection_get|]. intros ?.
    apply keeps_connection_ret.
  - apply keeps_connection_bind; [|intros; apply keeps_connection_ret].
    apply keeps_connection_bind; [apply keeps_connection_ask|]. intros ?.
    apply keeps_connection_bind; [apply keeps_connection_get|]. intros ?.
    apply keeps_connection_bind; [apply driver_call_keeps|]. intros _.
    apply keeps_connection_bind; [apply the_session_keeps|]. intros _.
    apply keeps_connection_bind; [apply keeps_connection_get|]. intros ?.
    apply keeps_connection_ret.
  - apply keeps_connection_bind; [|intros; apply keeps_connection_ret].
    apply keeps_connection_bind; [apply driver_call_keeps|]. intros _.
    apply keeps_connection_bind; [apply the_session_keeps|]. intros _.
    apply keeps_connection_ret.
Qed.




(** A value comes out of the scope only through a body that returned it. *)
Lemma get_connection_returns {A} (body : M A) env st v st' :
  get_connection body env st = (Return v, st') ->
  exists st2, body env (connected st) = (Return v, st2).
Proof.
  rewrite get_connection_run.
  destruct (fault_at _ _ Connect); [discriminate|].
  destruct (body env (connected st)) as [[v'|e] st2].
  - destruct (connection_commit env st2) as [[] st3].
    + destruct (connection_close env st3) as [[] ?]; [|discriminate].
      intros [= <- <-]. eauto.
    + destruct (connection_rollback env st3) as [[] st4];
        destruct (connection_close env st4) as [[] ?]; discriminate.
  - destruct (connection_rollback env st2) as [[] st3];
      destruct (connection_close env st3) as [[] ?]; discriminate.
Qed.

End Connection.

Section Listing.
Import Py Payload World Effects Reference Samples.
Import Database Models.

#[local] Instance comes_first_total rank : Total (comes_first rank).
Proof.
  intros r1 r2. unfold comes_first, ts_geb.
  destruct (UPLOAD_TIMESTAMP r1) as [x|], (UPLOAD_TIMESTAMP r2) as [y|]; cbn.
  all: repeat match goal with
         | |- context [?a <=? ?b] => destruct (Z.leb_spec a b)
         end; cbn; auto; lia.
Qed.

#[local] Instance comes_first_trans rank : Transitive (comes_first rank).
Proof.
  intros r1 r2 r3. unfold comes_first, ts_geb.
  destruct (UPLOAD_TIMESTAMP r1) as [x|], (UPLOAD_TIMESTAMP r2) as [y|],
    (UPLOAD_TIMESTAMP r3) as [z|]; cbn.
  all: repeat match goal with
         | |- context [?a <=? ?b] => destruct (Z.leb_spec a b)
         end; cbn; auto; try discriminate; lia.
Qed.

(** Whatever the ranks, a row that comes first is not older. *)
Lemma comes_first_newer rank r1 r2 : comes_first rank r1 r2 -> newer_or_equal r1 r2.
Proof. unfold comes_first, newer_or_equal. by intros [? _]%andb_true_iff. Qed.

Lemma order_by_sorted rank rows :
  StronglySorted newer_or_equal (order_by_upload_timestamp_desc rank rows).
Proof.
  unfold order_by_upload_timestamp_desc.
  pose proof (StronglySorted_merge_sort (comes_first rank) rows) as Hs.
  rewrite <- (list_fmap_id (merge_sort _ rows)).
  apply (StronglySorted_fmap id (comes_first rank) newer_or_equal); [|exact Hs].
  intros x y. apply comes_first_newer.
Qed.

Lemma select_page_sorted rank rows limit offset :
  StronglySorted newer_or_equal (select_page rank rows limit offset).
Proof.
  unfold select_page.
  pose proof (order_by_sorted rank rows) as Hs.
  rewrite <- (take_drop (Z.to_nat offset) (order_by_upload_timestamp_desc rank rows)) in Hs.
  apply StronglySorted_app_1_r in Hs.
  rewrite <- (take_drop (Z.to_nat limit) (drop _ _)) in Hs.
  by apply StronglySorted_app_1_l in Hs.
Qed.

Lemma select_page_length rank rows limit offset :
  (length (select_page rank rows limit offset) <= Z.to_nat limit)%nat.
Proof. unfold select_page. rewrite length_take. lia. Qed.

Lemma map_fmap {A B} (f : A -> B) l : map f l = f <$> l.
Proof. induction l; cbn; congruence. Qed.

Lemma execute_select_page_returns env st limit offset rows st' :
  execute_select_page limit offset env st = (Return rows, st') ->
  exists rank visible_rows, rows = select_page rank visible_rows limit offset.
Proof.
  unfold execute_select_page, bind at 1, ask at 1. unfold bind at 1, get at 1.
  unfold bind at 1. rewrite driver_call_run.
  destruct (fault_at _ _ _); [discriminate|].
  unfold the_session, bind, get.
  destruct (session _); [|discriminate].
  intros [= <- <-]. eauto.
Qed.

(** C9: whenever the list endpoint returns, its records are ordered by
    upload timestamp descending (newest first), [total] is the number of
    records on that page, and [limit] and [offset] are echoed; and with
    1 <= limit <= 100, 0 <= offset and a working database it does return
    the page of the table selected by limit and offset, records with the
    same upload instant in the order the store gives them in this query. *)
Theorem list_endpoint_contract env st limit offset :
  (forall response st',
      Router.get_all_invoices limit offset env st = (Return response, st') ->
      StronglySorted not_older (invoices response) /\
      total response = Z.of_nat (length (invoices response)) /\
      Models.limit response = limit /\
      Models.offset response = offset /\
      (length (invoices response) <= Z.to_nat limit)%nat) /\
  (1 <= limit <= 100 -> 0 <= offset ->
   (forall n op, db_fault env n op = None) ->
   let rank := db_row_order env (S (db_calls (store st))) in
   result_of (Router.get_all_invoices limit offset env st)
   = Return (mkInvoiceListResponse
               (map Router.InvoiceDetail_of
                    (map list_dict (select_page rank (table (store st)) limit offset)))
               (Z.of_nat (length (select_page rank (table (store st)) limit offset)))
               limit offset)).
Proof.
  split.
  - intros response st'. unfold Router.get_all_invoices.
    destruct (negb _); [discriminate|].
    unfold bind at 1.
    destruct (Database.get_all_invoices limit offset env st) as [[ds|e] st1] eqn:Hdb;
      [|discriminate].
    intros [= <- <-]. cbn [invoices total Models.limit Models.offset].
    apply get_connection_returns in Hdb as [st2 Hbody].
    unfold bind at 1 in Hbody.
    destruct (execute_select_page limit offset env (connected st)) as [[rows|e] st3] eqn:Hq;
      [|discriminate].
    injection Hbody as <- <-.
    apply execute_select_page_returns in Hq as (rank & vis & ->).
    repeat split.
    + rewrite List.map_map, map_fmap.
      apply (StronglySorted_fmap _ newer_or_equal); [|apply select_page_sorted].
      by intros x y.
    + rewrite !length_map. apply select_page_length.
  - intros [Hl1 Hl2] Ho Hnf rank. subst rank. unfold Router.get_all_invoices.
    assert (negb ((1 <=? limit) && (limit <=? 100) && (0 <=? offset)) = false) as ->.
    { apply negb_false_iff. rewrite !andb_true_iff, !Z.leb_le. lia. }
    unfold bind at 1. unfold Database.get_all_invoices.
    rewrite get_connection_run. unfold fault_at. rewrite Hnf.
    unfold bind at 1, execute_select_page, bind at 1, ask at 1.
    unfold bind at 1, get at 1. unfold bind at 1. rewrite driver_call_run.
    unfold fault_at. rewrite Hnf.
    destruct st as [u [tb nid ses calls] fs tk tr pl tc].
    unfold the_session, bind, get, ret. cbn.
    rewrite connection_commit_run. unfold fault_at. rewrite Hnf. cbn.
    rewrite connection_close_run. unfold fault_at. rewrite Hnf. cbn.
    rewrite !length_map. reflexivity.
Qed.

(** A table of three records and a page of two: [total] is 2. *)
Lemma list_endpoint_contract_witness :
  result_of (Router.get_all_invoices 2 0 fair_env three_rows_state)
  = Return (mkInvoiceListResponse
              [Router.InvoiceDetail_of (list_dict (row_at 2 30));
               Router.InvoiceDetail_of (list_dict (row_at 3 20))]
              2 2 0) /\
  length (table (store three_rows_state)) = 3%nat.
Proof.
  split; [|reflexivity].
  exact (proj2 (list_endpoint_contract fair_env three_rows_state 2 0)
           ltac:(lia) ltac:(lia) (fun _ _ => eq_refl)).
Defined.

End Listing.

(* ===================================================================== *)
(** * The extraction leaves the database alone *)
(* ===================================================================== *)

Create HintDb quiet.

Section Quiet.
Import Py Payload World Effects Reference Samples.

Lemma quiet_ret {A} (a : A) : quiet (ret a).
Proof. intros env st. split; [done|]. discriminate. Qed.

Lemma quiet_raise {A} e : is_HTTPException e = false -> quiet (@raise A e).
Proof. intros He env st. split; [done|]. by intros e' [= <-]. Qed.

Lemma quiet_lift {A} (r : outcome A) :
  (forall e, r = Raise e -> is_HTTPException e = false) -> quiet (lift r).
Proof. intros Hr env st. split; [done|]. exact Hr. Qed.

Lemma quiet_bind {A B} (m : M A) (k : A -> M B) :
  quiet m -> (forall a, quiet (k a)) -> quiet (bind m k).
Proof.
  intros Hm Hk env st. unfold bind, state_of, result_of.
  destruct (Hm env st) as [Hs He]. unfold state_of, result_of in *.
  destruct (m env st) as [[a|e] st1]; cbn [fst snd] in *.
  - destruct (Hk a env st1) as [Hs' He']. unfold state_of, result_of in *.
    split; [congruence|exact He'].
  - split; [done|]. intros e' [= <-]. by apply He.
Qed.

Lemma quiet_get : quiet get.
Proof. intros env st. split; [done|]. discriminate. Qed.

Lemma quiet_ask : quiet ask.
Proof. intros env st. split; [done|]. discriminate. Qed.

Lemma db_side_set_trace ev st :
  is_db_event ev = false ->
  db_side (set_trace (fun t => t ++ [ev]) st) = db_side st.
Proof.
  intros Hev. destruct st. unfold db_side. cbn.
  by rewrite List.filter_app; cbn; rewrite Hev, app_nil_r.
Qed.

Lemma quiet_log ev : is_db_event ev = false -> quiet (log ev).
Proof. intros Hev env st. split; [by apply db_side_set_trace|]. discriminate. Qed.

Lemma quiet_time_time : quiet time_time.
Proof. intros env st. split; [by destruct st|]. discriminate. Qed.

Lemma quiet_post_token : quiet post_token.
Proof.
  intros env st. split; [|discriminate].
  unfold post_token, state_of; cbn [snd]. rewrite db_side_set_trace by done. by destruct st.
Qed.

Lemma quiet_post_upload path content : quiet (post_upload path content).
Proof.
  intros env st. split; [|discriminate].
  unfold post_upload, state_of; cbn [snd]. by rewrite db_side_set_trace.
Qed.

Lemma quiet_get_poll id : quiet (get_poll id).
Proof.
  intros env st. split; [|discriminate].
  unfold get_poll, state_of; cbn [snd]. rewrite db_side_set_trace by done. by destruct st.
Qed.

Lemma quiet_modify_uaa f : quiet (modify (set_uaa_service f)).
Proof. intros env st. split; [by destruct st|]. discriminate. Qed.

Lemma quiet_modify_files f : quiet (modify (set_files f)).
Proof. intros env st. split; [by destruct st|]. discriminate. Qed.

Lemma quiet_fs_call op path : quiet (fs_call op path).
Proof.
  intros env st. unfold fs_call, state_of, result_of.
  destruct (fs_fault env op path); cbn [fst snd].
  - split; [by rewrite db_side_set_trace|]. by intros e [= <-].
  - split; [by rewrite db_side_set_trace|]. discriminate.
Qed.

(** The blocks above are the leaves; [auto with quiet] finds them. *)
#[local] Hint Resolve quiet_ret quiet_get quiet_ask quiet_time_time quiet_post_token
  quiet_post_upload quiet_get_poll quiet_modify_uaa quiet_modify_files
  quiet_fs_call : quiet.
#[local] Hint Extern 1 (quiet (raise _)) => (apply quiet_raise; reflexivity) : quiet.

(** Split a sequence into its first call, closed by the hints, and the rest. *)
Ltac quiet_seq := apply quiet_bind; [solve [auto with quiet]|intros ?].

Lemma quiet_open_rb path : quiet (open_rb path).
Proof.
  unfold open_rb. quiet_seq. apply quiet_bind; [auto with quiet|]. intros st.
  destruct (files st !! path); auto with quiet.
Qed.

Lemma quiet_get_access_token : quiet UAA.get_access_token.
Proof.
  apply quiet_bind.
  { apply quiet_bind; [auto with quiet|]. intros st.
    destruct (truthy_opt_str _); [|auto with quiet].
    quiet_seq. auto with quiet. }
  intros [|]; [quiet_seq; auto with quiet|].
  apply quiet_bind; [auto with quiet|]. intros response.
  destruct (negb _); [auto with quiet|].
  apply quiet_bind.
  { apply quiet_lift. unfold UAA.subscript_access_token.
    destruct (access_token response); [by intros e [= <-]|discriminate..]. }
  intros token. do 2 quiet_seq.
  destruct (UAA.get_expires_in response); [|auto with quiet].
  do 2 quiet_seq. auto with quiet.
Qed.

Lemma quiet_upload_document path token : quiet (DocumentAI._upload_document path token).
Proof.
  apply quiet_bind; [apply quiet_open_rb|]. intros content.
  apply quiet_bind; [auto with quiet|]. intros response.
  destruct (negb _); [auto with quiet|].
  destruct (upload_id response) as [id|]; [|auto with quiet].
  destruct (truthy_str id); auto with quiet.
Qed.

Lemma quiet_poll_loop n id : quiet (DocumentAI.poll_loop n id).
Proof.
  induction n as [|n IH]; cbn [DocumentAI.poll_loop]; [auto with quiet|].
  apply quiet_bind; [auto with quiet|]. intros response.
  destruct (negb _); [auto with quiet|].
  destruct (DocumentAI.status_is _ "DONE"); [auto with quiet|].
  destruct (DocumentAI.status_is _ "FAILED"); [auto with quiet|].
  destruct (_ || _); [|auto with quiet].
  apply quiet_bind; [by apply quiet_log|]. intros _. exact IH.
Qed.

Lemma parse_raises_exception r e :
  DocumentAI._parse_extraction_results r = Raise e -> is_HTTPException e = false.
Proof.
  unfold DocumentAI._parse_extraction_results.
  destruct (DocumentAI.parse_body r) as [p|e']; [discriminate|].
  by destruct (is_KeyError e'); intros [= <-].
Qed.

(** The extraction never touches the database and never raises an
    [HTTPException]. *)
Lemma quiet_extract_invoice_data path : quiet (DocumentAI.extract_invoice_data path).
Proof.
  apply quiet_bind; [apply quiet_get_access_token|]. intros token.
  apply quiet_bind; [apply quiet_upload_document|]. intros id.
  apply quiet_bind; [apply quiet_poll_loop|]. intros result.
  apply quiet_bind; [apply quiet_lift, parse_raises_exception|]. intros parsed.
  apply quiet_ret.
Qed.


Lemma quiet_try_except {A} (m : M A) (h : exn -> M A) :
  quiet m -> (forall e, quiet (h e)) -> quiet (try_except m h).
Proof.
  intros Hm Hh env st. unfold try_except, state_of, result_of.
  destruct (Hm env st) as [Hs He]. unfold state_of, result_of in *.
  destruct (m env st) as [[a|e] st1]; cbn [fst snd] in *.
  - split; [done|]. discriminate.
  - destruct (Hh e env st1) as [Hs' He']. unfold state_of, result_of in *.
    split; [congruence|exact He'].
Qed.

End Quiet.

(* ===================================================================== *)
(** * Properties of the upload handler *)
(* ===================================================================== *)

Section Handler.
Import Py Payload World Effects Reference Samples.
Import Router.

Lemma fs_call_run op path env st :
  fs_call op path env st =
  (match fs_fault env op path with
   | Some msg => Raise (OSError msg)
   | None => Return tt
   end, fs_called op path st).
Proof. unfold fs_call, fs_called. by destruct (fs_fault _ _ _). Qed.

Lemma try_finally_state {A} (body : M A) (cl : M unit) env st :
  state_of (try_finally body cl env st) = state_of (cl env (state_of (body env st))).
Proof.
  unfold try_finally, state_of. destruct (body env st) as [r st1]; cbn [snd].
  by destruct (cl env st1) as [[] ?].
Qed.

Lemma try_finally_result {A} (body : M A) (cl : M unit) env st :
  result_of (cl env (state_of (body env st))) = Return tt ->
  result_of (try_finally body cl env st) = result_of (body env st).
Proof.
  unfold try_finally, state_of, result_of. destruct (body env st) as [r st1]; cbn [fst snd].
  destruct (cl env st1) as [[] ?]; cbn; [done|discriminate].
Qed.

(** A call that does not fail is a call on a path that is not refused. *)
Lemma fs_fault_refused env op path :
  fs_fault env op path = None -> fs_refused env path = None.
Proof. unfold fs_fault. by destruct (fs_refused env path). Qed.

Lemma exists_run path env st :
  exists_ path env st =
  match fs_refused env path with
  | Some msg => (Raise (OSError msg), st)
  | None => (Return (bool_decide (is_Some (files st !! path))), st)
  end.
Proof. unfold exists_, bind, ask. by destruct (fs_refused env path). Qed.

(** The [finally] block raises only what the test for the file raises:
    on a path that is not refused it returns. *)
Lemma cleanup_returns path env st :
  fs_refused env path = None -> result_of (cleanup path env st) = Return tt.
Proof.
  intros Hok. unfold cleanup, bind at 1. rewrite exists_run, Hok.
  unfold ret, result_of.
  destruct (bool_decide _); [|done].
  unfold try_except. by destruct (os_remove path env st) as [[[]|] ?].
Qed.

(** On a refused path the test for the file raises, and nothing else is
    done. *)
Lemma cleanup_refused path env st msg :
  fs_refused env path = Some msg -> cleanup path env st = (Raise (OSError msg), st).
Proof. intros Hno. unfold cleanup, bind at 1. by rewrite exists_run, Hno. Qed.

(** If the removal does not fail, no file is left at the path. *)
Lemma cleanup_removes path env st :
  fs_fault env Remove path = None ->
  files (state_of (cleanup path env st)) !! path = None.
Proof.
  intros Hrm. unfold cleanup, bind at 1.
  rewrite exists_run, (fs_fault_refused _ _ _ Hrm). unfold state_of.
  destruct (bool_decide _) eqn:Hex.
  - unfold try_except, os_remove, bind. rewrite fs_call_run, Hrm.
    unfold get, modify, raise. 
    replace (files (fs_called Remove path st)) with (files st) by (by destruct st).
    apply bool_decide_eq_true in Hex as [c Hc]. rewrite Hc. cbn.
    destruct st; cbn. apply lookup_delete_eq.
  - apply bool_decide_eq_false in Hex. cbn.
    by apply eq_None_not_Some.
Qed.

Lemma quiet_cleanup path : quiet (cleanup path).
Proof.
  apply quiet_bind.
  { apply quiet_bind; [apply quiet_ask|]. intros env.
    destruct (fs_refused env path); [by apply quiet_raise|].
    apply quiet_bind; [apply quiet_get|]. intros; apply quiet_ret. }
  intros [|]; [|apply quiet_ret].
  apply quiet_try_except; [|intros; apply quiet_ret].
  apply quiet_bind; [apply quiet_fs_call|]. intros _.
  apply quiet_bind; [apply quiet_get|]. intros st.
  destruct (files st !! path); [apply quiet_modify_files|by apply quiet_raise].
Qed.


(** The request past the file-type check and the [mkdir]. *)
Lemma upload_invoice_run file env st :
  endswith (lower (filename file)) ".pdf" = true ->
  upload_invoice file env st =
  match fs_fault env Mkdir (UPLOAD_DIR env) with
  | Some msg => (Raise (OSError msg), fs_called Mkdir (UPLOAD_DIR env) st)
  | None =>
      try_finally (try_and_except file (temp_filepath_of env file))
                  (cleanup (temp_filepath_of env file))
                  env (fs_called Mkdir (UPLOAD_DIR env) st)
  end.
Proof.
  intros Hpdf. unfold upload_invoice. rewrite Hpdf. cbn [negb].
  unfold bind at 1, ask at 1. unfold bind at 1, mkdir at 1. rewrite fs_call_run.
  by destruct (fs_fault _ _ _).
Qed.

Lemma open_wb_run path env st :
  open_wb path env st =
  match fs_fault env OpenWrite path with
  | Some msg => (Raise (OSError msg), fs_called OpenWrite path st)
  | None => (Return tt, set_files (fun fs => <[path := []]> fs) (fs_called OpenWrite path st))
  end.
Proof. unfold open_wb, bind. rewrite fs_call_run. by destruct (fs_fault _ _ _). Qed.

Lemma write_run path content env st :
  write path content env st =
  match fs_fault env Write path with
  | Some msg => (Raise (OSError msg), fs_called Write path st)
  | None => (Return tt, set_files (fun fs => <[path := content]> fs) (fs_called Write path st))
  end.
Proof. unfold write, bind. rewrite fs_call_run. by destruct (fs_fault _ _ _). Qed.

(** The [except] clauses on an exception that is not an [HTTPException]:
    one insert of a FAILED record, whose own failure is dropped, then
    the 422. *)
Lemma on_exception_run file size e env st :
  is_HTTPException e = false ->
  on_exception file size e env st =
  (Raise (HTTPException 422 ("Failed to process invoice: " +:+ str_of_exn e)),
   state_of (Database.insert_invoice
               (mkInsertArgs "UNKNOWN" "UNKNOWN" (filename file) size
                             "" "FAILED" (Some (str_of_exn e))) env st)).
Proof.
  intros He. unfold on_exception. rewrite He.
  unfold bind, try_except, state_of, raise, ret.
  by destruct (Database.insert_invoice _ env st) as [[] ?].
Qed.

Lemma connects_app t1 t2 : connects (t1 ++ t2) = (connects t1 + connects t2)%nat.
Proof. unfold connects. by rewrite List.filter_app, length_app. Qed.

Lemma connects_db_events t : connects (List.filter is_db_event t) = connects t.
Proof.
  unfold connects. induction t as [|ev t IH]; [done|].
  destruct ev as [| | | |[]|]; cbn; rewrite ?IH; done.
Qed.

Lemma db_side_connects st st' :
  db_side st' = db_side st -> connects (trace st') = connects (trace st).
Proof.
  intros [= _ H]. by rewrite <- (connects_db_events (trace st')), H, connects_db_events.
Qed.

Lemma db_side_saved env file st : db_side (saved env file st) = db_side st.
Proof.
  destruct st. unfold saved, db_side, fs_called. cbn.
  by rewrite !List.filter_app; cbn; rewrite !app_nil_r.
Qed.

(** One step of running driver calls: use the equation of the call at the
    head, or unfold the monad and compute. *)
Ltac run_driver_step :=
  first
    [ rewrite driver_call_run | rewrite connection_commit_run
    | rewrite connection_rollback_run | rewrite connection_close_run
    | progress (unfold execute_insert, execute_select_identity, bind, the_session, get,
                       ask, modify, ret, raise, fault_at; cbn) ].

(** Every call of [insert_invoice] tries to connect exactly once,
    whatever fails afterwards. *)
Lemma insert_invoice_connects a env st :
  connects (trace (state_of (Database.insert_invoice a env st))) = S (connects (trace st)).
Proof.
  unfold Database.insert_invoice. rewrite get_connection_run.
  unfold state_of.
  destruct (fault_at env st Connect); cbn [snd].
  { rewrite driver_called_trace, connects_app. cbn. lia. }
  destruct st as [u [tb nid ses calls] fs tk tr pl tc].
  repeat first
    [ run_driver_step
    | match goal with
      | |- context [db_fault ?e ?n ?o] => destruct (db_fault e n o)
      end ].
  all: unfold connects; rewrite ?List.filter_app, ?length_app; cbn; lia.
Qed.

(** With a working database the insert returns the new identifier and
    the table gains exactly the new row. *)
Lemma insert_invoice_working a env st :
  (forall n op, db_fault env n op = None) ->
  Database.insert_invoice a env st
  = (Return (Some (next_id (store st))), inserted env a st).
Proof.
  intros Hnf. unfold Database.insert_invoice. rewrite get_connection_run.
  destruct st as [u [tb nid ses calls] fs tk tr pl tc].
  repeat first [ run_driver_step | rewrite Hnf ].
  cbv [inserted closed driver_called connected set_store set_trace set_session
       uaa_service store files ticks token_requests polls trace
       table next_id session db_calls current_identity].
  by rewrite <- !app_assoc.
Qed.

(** The [try] block when the extraction raises. *)
Lemma try_and_except_extraction_failure env st file e s2 :
  let path := temp_filepath_of env file in
  Z.of_nat (length (content file)) <= MAX_FILE_SIZE_MB env * 1024 * 1024 ->
  fs_fault env OpenWrite path = None ->
  fs_fault env Write path = None ->
  DocumentAI.extract_invoice_data path env (saved env file st) = (Raise e, s2) ->
  try_and_except file path env (fs_called Mkdir (UPLOAD_DIR env) st)
  = (Raise (HTTPException 422 ("Failed to process invoice: " +:+ str_of_exn e)),
     state_of (Database.insert_invoice
                 (mkInsertArgs "UNKNOWN" "UNKNOWN" (filename file) (file_size_kb_of file)
                               "" "FAILED" (Some (str_of_exn e))) env s2)).
Proof.
  intros path Hsize Hop Hwr Hex.
  assert (is_HTTPException e = false) as He.
  { apply (proj2 (quiet_extract_invoice_data path env (saved env file st)) e).
    unfold result_of. by rewrite Hex. }
  unfold try_and_except. rewrite open_wb_run, Hop.
  unfold try_except, process. unfold bind at 1, ask at 1.
  apply Z.ltb_ge in Hsize. rewrite Hsize.
  unfold bind at 1, ret at 1. unfold bind at 1. rewrite write_run, Hwr.
  unfold bind at 1. unfold saved in Hex. fold path in Hex. cbv zeta in Hex.
  rewrite Hex. by apply on_exception_run.
Qed.

Lemma try_finally_run {A} (body : M A) (cl : M unit) env st :
  result_of (cl env (state_of (body env st))) = Return tt ->
  try_finally body cl env st
  = (result_of (body env st), state_of (cl env (state_of (body env st)))).
Proof.
  intros Hcl. apply injective_projections; cbn [fst snd].
  - by apply try_finally_result.
  - apply try_finally_state.
Qed.

(** C5: when an upload has passed validation and been saved, and the
    extraction (token, upload, poll or parse) then raises an error [e],
    the handler calls [insert_invoice] exactly once, for a record with
    status FAILED carrying [str(e)]; whatever that insert does, also when
    it fails, the request ends with the HTTP 422 error whose detail is
    "Failed to process invoice: " followed by [str(e)]; exactly one
    connection to the database is attempted; and with a working database
    the table gains exactly that FAILED record. *)
Theorem upload_failure_recorded_once env st file e s2 :
  let path := temp_filepath_of env file in
  endswith (lower (filename file)) ".pdf" = true ->
  Z.of_nat (length (content file)) <= MAX_FILE_SIZE_MB env * 1024 * 1024 ->
  fs_fault env Mkdir (UPLOAD_DIR env) = None ->
  fs_fault env OpenWrite path = None ->
  fs_fault env Write path = None ->
  DocumentAI.extract_invoice_data path env (saved env file st) = (Raise e, s2) ->
  let failed :=
    mkInsertArgs "UNKNOWN" "UNKNOWN" (filename file) (file_size_kb_of file)
                 "" "FAILED" (Some (str_of_exn e)) in
  let recorded := state_of (Database.insert_invoice failed env s2) in
  let final := state_of (upload_invoice file env st) in
  upload_invoice file env st
  = (Raise (HTTPException 422 ("Failed to process invoice: " +:+ str_of_exn e)),
     state_of (cleanup path env recorded)) /\
  connects (trace final) = S (connects (trace st)) /\
  ((forall n op, db_fault env n op = None) ->
   table (store final) = table (store st) ++ [new_row env (next_id (store st)) failed]).
Proof.
  intros path Hpdf Hsize Hmk Hop Hwr Hex failed recorded final.
  assert (Hrun : upload_invoice file env st
    = (Raise (HTTPException 422 ("Failed to process invoice: " +:+ str_of_exn e)),
       state_of (cleanup path env recorded))).
  { rewrite upload_invoice_run, Hmk by done.
    pose proof (try_and_except_extraction_failure env st file e s2 Hsize Hop Hwr Hex)
      as Htry.
    rewrite try_finally_run; rewrite Htry;
      [reflexivity|apply cleanup_returns, (fs_fault_refused _ _ _ Hop)]. }
  assert (Hs2 : db_side s2 = db_side st).
  { pose proof (proj1 (quiet_extract_invoice_data path env (saved env file st))) as H.
    unfold state_of in H. rewrite Hex in H. cbn [snd] in H.
    by rewrite H, db_side_saved. }
  assert (Hfinal : db_side final = db_side recorded).
  { subst final. rewrite Hrun. apply quiet_cleanup. }
  split; [exact Hrun|split].
  - rewrite (db_side_connects _ _ Hfinal). subst recorded.
    rewrite insert_invoice_connects. f_equal. by apply db_side_connects.
  - intros Hnf. injection Hfinal as -> _. subst recorded.
    rewrite insert_invoice_working by done. injection Hs2 as Hs2 _.
    unfold state_of, inserted. cbn [snd]. destruct s2; cbn in *. by rewrite Hs2.
Qed.

(** A failed job, with the database working and with it unreachable. *)
Lemma upload_failure_recorded_once_witness :
  (result_of (upload_invoice small_pdf failed_job_env fresh_state)
   = Raise (HTTPException 422
              "Failed to process invoice: Document extraction failed: unreadable scan") /\
   table (store (state_of (upload_invoice small_pdf failed_job_env fresh_state)))
   = [mkRow 1 "UNKNOWN" "UNKNOWN" (Some 1) "scan.pdf" (1 / 1024) "" "FAILED"
            (Some "Document extraction failed: unreadable scan") (Some 1)]) /\
  (result_of (upload_invoice small_pdf failed_job_no_db_env fresh_state)
   = Raise (HTTPException 422
              "Failed to process invoice: Document extraction failed: unreadable scan") /\
   connects (trace (state_of (upload_invoice small_pdf failed_job_no_db_env fresh_state)))
   = 1%nat).
Proof.
  split.
  - edestruct (upload_failure_recorded_once failed_job_env fresh_state small_pdf)
      as (Hrun & _ & Htable);
      [reflexivity|vm_compute; discriminate|reflexivity|reflexivity|reflexivity
      |vm_compute; reflexivity|].
    split; [by rewrite Hrun|]. exact (Htable (fun _ _ => eq_refl)).
  - edestruct (upload_failure_recorded_once failed_job_no_db_env fresh_state small_pdf)
      as (Hrun & Hconnects & _);
      [reflexivity|vm_compute; discriminate|reflexivity|reflexivity|reflexivity
      |vm_compute; reflexivity|].
    split; [by rewrite Hrun|exact Hconnects].
Defined.

(** [insert_invoice] leaves the files alone. *)
Lemma insert_invoice_files a env st :
  files (state_of (Database.insert_invoice a env st)) = files st.
Proof.
  unfold Database.insert_invoice. rewrite get_connection_run.
  unfold state_of.
  destruct (fault_at env st Connect); cbn [snd]; [by destruct st|].
  destruct st as [u [tb nid ses calls] fs tk tr pl tc].
  repeat first
    [ run_driver_step
    | match goal with
      | |- context [db_fault ?e ?n ?o] => destruct (db_fault e n o)
      end ].
  all: reflexivity.
Qed.

(** C7, as amended: a file that is not a PDF is rejected before any
    temporary file is created, and so is a request whose upload directory
    cannot be made.  On every other way out of the request (success,
    oversize rejection, extraction or parsing failure, persistence
    failure) no file is left at the temporary path, PROVIDED the removal
    itself does not fail; a file larger than the configured maximum is
    rejected with HTTP 400 once its temporary file could be opened.  A
    request whose temporary file cannot be opened ends with HTTP 422 when
    only the opening fails; when the file system refuses the path
    altogether, the test for the file in the [finally] block fails too,
    and its error ends the request in place of the 422: no file was
    created. *)
Theorem temporary_file_cleanup env st file :
  let path := temp_filepath_of env file in
  let final := state_of (upload_invoice file env st) in
  (endswith (lower (filename file)) ".pdf" = false ->
   upload_invoice file env st
   = (Raise (HTTPException 400 "Invalid file type. Only PDF files are allowed."), st)) /\
  (endswith (lower (filename file)) ".pdf" = true ->
   (forall msg, fs_fault env Mkdir (UPLOAD_DIR env) = Some msg ->
      upload_invoice file env st
      = (Raise (OSError msg), fs_called Mkdir (UPLOAD_DIR env) st)) /\
   (fs_fault env Mkdir (UPLOAD_DIR env) = None ->
    (fs_fault env Remove path = None -> files final !! path = None) /\
    (fs_fault env OpenWrite path = None ->
     MAX_FILE_SIZE_MB env * 1024 * 1024 < Z.of_nat (length (content file)) ->
     result_of (upload_invoice file env st)
     = Raise (HTTPException 400
                ("File size exceeds maximum allowed size of "
                 +:+ str_of_Z (MAX_FILE_SIZE_MB env) +:+ "MB"))) /\
    (forall msg,
     fs_refused env path = None -> fs_op_fault env OpenWrite path = Some msg ->
     result_of (upload_invoice file env st)
     = Raise (HTTPException 422 ("Failed to process invoice: " +:+ msg))) /\
    (forall msg,
     fs_refused env path = Some msg ->
     result_of (upload_invoice file env st) = Raise (OSError msg) /\
     files final = files st))).
Proof.
  intros path final. split; [|intros Hpdf; split; [|intros Hmk; split; [|split; [|split]]]].
  - intros Hpdf. unfold upload_invoice. by rewrite Hpdf.
  - intros msg Hmk. by rewrite upload_invoice_run, Hmk.
  - intros Hrm. subst final. rewrite upload_invoice_run, Hmk by done.
    rewrite try_finally_state. by apply cleanup_removes.
  - intros Hop Hbig. rewrite upload_invoice_run, Hmk by done. fold path.
    rewrite try_finally_result by apply cleanup_returns, (fs_fault_refused _ _ _ Hop).
    unfold try_and_except. rewrite open_wb_run, Hop.
    unfold try_except, process. unfold bind at 1, ask at 1.
    apply Z.ltb_lt in Hbig. rewrite Hbig.
    unfold bind at 1, raise at 1. reflexivity.
  - intros msg Hok Hop.
    assert (fs_fault env OpenWrite path = Some msg) as Hfault
      by (unfold fs_fault; by rewrite Hok).
    rewrite upload_invoice_run, Hmk by done. fold path.
    rewrite try_finally_result by by apply cleanup_returns.
    unfold try_and_except. rewrite open_wb_run, Hfault.
    by rewrite on_exception_run.
  - intros msg Hno.
    assert (fs_fault env OpenWrite path = Some msg) as Hfault
      by (unfold fs_fault; by rewrite Hno).
    subst final. rewrite upload_invoice_run, Hmk by done. fold path.
    unfold try_finally, try_and_except. rewrite open_wb_run, Hfault.
    rewrite on_exception_run by done.
    rewrite (cleanup_refused _ _ _ _ Hno).
    split; [reflexivity|]. unfold state_of at 1. cbn [snd].
    rewrite insert_invoice_files. by destruct st.
Qed.

Lemma temporary_file_cleanup_witness :
  files (state_of (upload_invoice small_pdf fair_env fresh_state))
    !! temp_filepath_of fair_env small_pdf = None /\
  result_of (upload_invoice small_pdf no_room_env fresh_state)
  = Raise (HTTPException 400 "File size exceeds maximum allowed size of 0MB") /\
  files (state_of (upload_invoice small_pdf no_room_env fresh_state))
    !! temp_filepath_of no_room_env small_pdf = None /\
  result_of (upload_invoice small_pdf read_only_env fresh_state)
  = Raise (HTTPException 422 "Failed to process invoice: Read-only file system") /\
  result_of (upload_invoice small_pdf long_name_env fresh_state)
  = Raise (OSError "File name too long").
Proof.
  split; [|split; [|split; [|split]]].
  - apply (proj1 (proj2 (proj2 (temporary_file_cleanup fair_env fresh_state small_pdf)
                           eq_refl) eq_refl)). reflexivity.
  - apply (proj1 (proj2 (proj2 (proj2 (temporary_file_cleanup no_room_env fresh_state
                                          small_pdf) eq_refl) eq_refl)));
      [reflexivity|vm_compute; reflexivity].
  - apply (proj1 (proj2 (proj2 (temporary_file_cleanup no_room_env fresh_state small_pdf)
                           eq_refl) eq_refl)). reflexivity.
  - apply (proj1 (proj2 (proj2 (proj2 (proj2 (temporary_file_cleanup read_only_env
                                                 fresh_state small_pdf) eq_refl)
                                         eq_refl)))); reflexivity.
  - apply (proj2 (proj2 (proj2 (proj2 (proj2 (temporary_file_cleanup long_name_env
                                                 fresh_state small_pdf) eq_refl)
                                         eq_refl)))). reflexivity.
Defined.

(** C7 as stated fails: the upload is too large and is rejected, the
    removal of the temporary file fails, the failure is ignored, and the
    (empty) temporary file is still there when the request is over. *)
Lemma temporary_file_survives :
  result_of (upload_invoice small_pdf sticky_env fresh_state)
  = Raise (HTTPException 400 "File size exceeds maximum allowed size of 0MB") /\
  files (state_of (upload_invoice small_pdf sticky_env fresh_state))
    !! temp_filepath_of sticky_env small_pdf = Some [].
Proof. split; vm_compute; reflexivity. Qed.

End Handler.

(* ===================================================================== *)
(** * More about the token cache *)
(* ===================================================================== *)

Section TokenCacheMore.
Import Py Payload World Effects Reference Samples Notions.
Import UAA.


Lemma after_check_ticks st :
  ticks (after_check st)
  = if truthy_opt_str (_cached_token (uaa_service st)) then S (ticks st) else ticks st.
Proof. unfold after_check. by destruct (truthy_opt_str _), st. Qed.




(** X2: after [clear_cache] the next call always goes to the
    identity service: it makes exactly one token request, whatever was
    cached before, whatever the clock reads and whatever the reply; on a
    200 reply with a token, and with "expires_in" a number or absent, it
    returns the token of that reply. *)
Theorem clear_cache_forces_request env st :
  let response := token_endpoint env (token_requests st) in
  let run := bind clear_cache (fun _ => get_access_token) env st in
  trace (state_of run) = trace st ++ [EvTokenRequest] /\
  token_requests (state_of run) = S (token_requests st) /\
  (token_status_code response = 200 ->
   forall token, access_token response = Value token ->
   expires_in response <> Null ->
   result_of run = Return (Some token)).
Proof.
  intros response run. subst run response.
  unfold bind, clear_cache, modify.
  set (st0 := set_uaa_service (fun _ => mkUAA None 0) st).
  assert (Hn : ~ token_is_fresh (uaa_service st0) (clock env (ticks st0))).
  { intros (token & H & _). by destruct st. }
  destruct (stale_call_requests_once env st0 Hn) as [Hreq Htr].
  replace (token_requests st0) with (token_requests st) in * by (by destruct st).
  replace (trace st0) with (trace st) in * by (by destruct st).
  split; [exact Htr|split; [exact Hreq|]].
  intros H200 token Htok Hexp. rewrite get_access_token_run. cbv zeta.
  rewrite (not_fresh_test _ _ Hn).
  replace (token_requests st0) with (token_requests st) by (by destruct st).
  unfold subscript_access_token, get_expires_in. rewrite H200, Htok.
  cbn [Z.eqb Pos.eqb negb]. by destruct (expires_in _).
Qed.

(** X3: when the identity service answers 200 with a body
    that has no "access_token" key, the call raises [KeyError] for that
    key, and the cache is as it was: the same token and the same
    expiry. *)
Theorem missing_access_token_keeps_cache env st :
  ~ token_is_fresh (uaa_service st) (clock env (ticks st)) ->
  token_status_code (token_endpoint env (token_requests st)) = 200 ->
  access_token (token_endpoint env (token_requests st)) = Absent ->
  result_of (get_access_token env st) = Raise (KeyError "access_token") /\
  uaa_service (state_of (get_access_token env st)) = uaa_service st.
Proof.
  intros Hn H200 Hnone. rewrite get_access_token_run. cbv zeta.
  unfold subscript_access_token.
  rewrite (not_fresh_test _ _ Hn), H200, Hnone. cbn.
  split; [done|apply after_request_facts].
Qed.


End TokenCacheMore.

(* ===================================================================== *)
(** * More about the extraction *)
(* ===================================================================== *)

Section PollBudget.
Import Py Payload World Effects Reference Samples Notions.
Import DocumentAI.


Lemma poll_loop_budget_n env id n : forall st,
  exists evs,
    state_of (poll_loop n id env st) = after_polling evs st /\
    Forall (fun ev => ev = EvPoll id \/ ev = EvSleep poll_interval) evs /\
    (polls_in evs <= n)%nat /\
    (sleeps evs <= polls_in evs)%nat /\
    slept evs = poll_interval * Z.of_nat (sleeps evs).
Proof.
  induction n as [|n IH]; intros st.
  - exists []. split; [|by repeat split; auto].
    unfold after_polling, polls_in. destruct st; unfold set_trace, set_polls; cbn.
    by rewrite app_nil_r, Nat.add_0_r.
  - rewrite poll_loop_S. cbv zeta.
    set (st1 := set_trace _ (set_polls S st)).
    assert (Hstop : exists evs,
      st1 = after_polling evs st /\
      Forall (fun ev => ev = EvPoll id \/ ev = EvSleep poll_interval) evs /\
      (polls_in evs <= S n)%nat /\ (sleeps evs <= polls_in evs)%nat /\
      slept evs = poll_interval * Z.of_nat (sleeps evs)).
    { exists [EvPoll id]. split; [|split; [|split; [|split]]]; try (cbn; lia).
      - subst st1. unfold after_polling. destruct st; unfold set_trace, set_polls; cbn.
        f_equal. lia.
      - constructor; [by left|constructor]. }
    destruct (negb _); [exact Hstop|].
    destruct (status_is _ "DONE"); [exact Hstop|].
    destruct (status_is _ "FAILED"); [exact Hstop|].
    destruct (_ || _); [|exact Hstop].
    destruct (IH (set_trace (fun t => t ++ [EvSleep poll_interval]) st1))
      as (evs & Hst & Hall & Hp & Hs & Hz).
    exists (EvPoll id :: EvSleep poll_interval :: evs).
    split; [|split; [|split; [|split]]].
    + rewrite Hst. subst st1. unfold after_polling. destruct st; unfold set_trace, set_polls; cbn.
      f_equal; [unfold polls_in; cbn; lia|]. by rewrite <- !app_assoc.
    + constructor; [by left|constructor; [by right|done]].
    + unfold polls_in in *. cbn. lia.
    + unfold polls_in, sleeps in *. cbn. lia.
    + unfold sleeps in *. cbn [slept List.filter is_sleep length]. rewrite Hz.
      unfold poll_interval. lia.
Qed.

(** X5: the budget of the poll loop.  Whatever the service
    answers, a run of [_poll_for_results] changes nothing but the poll
    counter and the trace, adds only polls of the given document and
    sleeps of 2 seconds, polls at most 30 times, sleeps at most once per
    poll, and so sleeps at most 60 seconds in all. *)
Theorem poll_for_results_budget env st id tok :
  exists evs,
    state_of (_poll_for_results id tok env st) = after_polling evs st /\
    Forall (fun ev => ev = EvPoll id \/ ev = EvSleep 2) evs /\
    (sleeps evs <= polls_in evs <= 30)%nat /\
    0 <= slept evs <= 60.
Proof.
  destruct (poll_loop_budget_n env id max_poll_attempts st)
    as (evs & Hst & Hall & Hp & Hs & Hz).
  exists evs. unfold max_poll_attempts, poll_interval in *.
  repeat split; auto; lia.
Qed.

End PollBudget.

Section UploadDocument.
Import Py Payload World Effects Reference Samples Notions.
Import UAA DocumentAI.


Lemma upload_document_run path tok env st :
  _upload_document path tok env st =
  match fs_fault env OpenRead path with
  | Some msg => (Raise (OSError msg), after_open_rb path st)
  | None =>
      match files st !! path with
      | None => (Raise (OSError ("No such file or directory: " +:+ path)),
                 after_open_rb path st)
      | Some content =>
          let response := upload_endpoint env content in
          if negb (accepted response) then
            (Raise (Exception ("Document upload failed: "
                               +:+ str_of_Z (upload_status_code response)
                               +:+ " - " +:+ upload_text response)),
             after_post_upload path st)
          else match upload_id response with
               | Some document_id =>
                   if truthy_str document_id
                   then (Return document_id, after_post_upload path st)
                   else (Raise (Exception "No document ID returned from upload"),
                         after_post_upload path st)
               | None => (Raise (Exception "No document ID returned from upload"),
                          after_post_upload path st)
               end
      end
  end.
Proof.
  unfold _upload_document, open_rb, bind at 1 2. unfold fs_call at 1.
  unfold after_post_upload, after_open_rb, accepted.
  destruct (fs_fault env OpenRead path); [done|].
  unfold bind, get, post_upload, raise, ret.
  replace (files (set_trace (λ t, t ++ [EvFs OpenRead path]) st)) with (files st)
    by by destruct st.
  destruct (files st !! path) as [content|]; [|done].
  cbv zeta. destruct (negb _); [done|].
  destruct (upload_id _) as [document_id|]; [|done].
  by destruct (truthy_str document_id).
Qed.

(** X6: [_upload_document] returns an identifier exactly when the file
    could be read, the service answered 200 or 201, and the answer holds
    a non-empty [id]; it then made one read and one POST, and nothing
    else. *)
Theorem upload_document_returns_iff path tok env st document_id st' :
  _upload_document path tok env st = (Return document_id, st') <->
  fs_fault env OpenRead path = None /\
  (exists content,
     files st !! path = Some content /\
     accepted (upload_endpoint env content) = true /\
     upload_id (upload_endpoint env content) = Some document_id) /\
  document_id <> "" /\
  st' = after_post_upload path st.
Proof.
  rewrite upload_document_run. split.
  - destruct (fs_fault env OpenRead path); [done|].
    destruct (files st !! path) as [content|]; [|done]. cbv zeta.
    destruct (accepted _) eqn:Hacc; [|done]. cbn [negb].
    destruct (upload_id _) as [d|] eqn:Hid; [|done].
    destruct (truthy_str d) eqn:Ht; [|done].
    intros [= <- <-]. split; [done|]. split; [by exists content|].
    split; [by apply truthy_str_ne|done].
  - intros (-> & (content & -> & Hacc & Hid) & Hne & ->). cbv zeta.
    rewrite Hacc, Hid. cbn [negb]. apply truthy_str_ne in Hne. by rewrite Hne.
Qed.

(** X7: without the file there is no POST: the call raises the
    [OSError] of [open] after the one attempt to read. *)
Theorem upload_document_missing_file path tok env st :
  files st !! path = None ->
  exists msg,
    _upload_document path tok env st = (Raise (OSError msg), after_open_rb path st).
Proof.
  intros Hnone. rewrite upload_document_run, Hnone.
  destruct (fs_fault env OpenRead path) as [msg|]; eauto.
Qed.

End UploadDocument.

Section Extraction.
Import Py Payload World Effects Reference Samples Notions.
Import UAA DocumentAI.


Lemma get_access_token_events env st :
  exists a,
    (a = [] \/ a = [EvTokenRequest]) /\
    trace (state_of (get_access_token env st)) = trace st ++ a /\
    files (state_of (get_access_token env st)) = files st /\
    store (state_of (get_access_token env st)) = store st.
Proof.
  rewrite get_access_token_run. cbv zeta.
  assert (Hc : trace (after_check st) = trace st /\ files (after_check st) = files st
               /\ store (after_check st) = store st).
  { unfold after_check. by destruct (truthy_opt_str _), st. }
  assert (Hr : trace (after_request st) = trace st ++ [EvTokenRequest]
               /\ files (after_request st) = files st
               /\ store (after_request st) = store st).
  { unfold after_request, after_check. by destruct (truthy_opt_str _), st. }
  destruct (cache_test env st).
  { exists []. rewrite app_nil_r. split; [by left|exact Hc]. }
  exists [EvTokenRequest]. split; [by right|].
  destruct (negb _); [exact Hr|].
  destruct (subscript_access_token _) as [token|e]; [|exact Hr].
  destruct (get_expires_in _) as [seconds|].
  all: unfold state_of, after_refresh, after_failed_refresh, after_request, after_check;
    cbn [snd].
  all: by destruct (truthy_opt_str _), st.
Qed.

(** X8: the order of the steps of an extraction.  Every run of
    [extract_invoice_data], successful or not, adds to the trace at most
    one token request, then at most one read of the file, then at most one
    upload, then polls and sleeps for one document; it never uploads
    before reading the file, never polls without an upload, and leaves
    the files and the database as they were. *)
Theorem extraction_event_order path env st :
  exists evs,
    trace (state_of (extract_invoice_data path env st)) = trace st ++ evs /\
    extraction_events path evs /\
    files (state_of (extract_invoice_data path env st)) = files st /\
    store (state_of (extract_invoice_data path env st)) = store st.
Proof.
  set (ok := fun st' : State =>
    exists evs, trace st' = trace st ++ evs /\ extraction_events path evs /\
                files st' = files st /\ store st' = store st).
  change (ok (state_of (extract_invoice_data path env st))).
  unfold extract_invoice_data, bind at 1.
  destruct (get_access_token_events env st) as (a & Ha & Htr & Hfi & Hsto).
  destruct (get_access_token env st) as [[tok|e] st1]; unfold state_of in *; cbn [snd] in *.
  2:{ exists a. split; [done|]. split; [|done].
      exists a, [], []. rewrite !app_nil_r. split; [done|]. split; [done|]. by left. }
  unfold bind at 1. rewrite upload_document_run.
  assert (Hopen : ok (after_open_rb path st1)).
  { exists (a ++ [EvFs OpenRead path]). unfold after_open_rb.
    destruct st1; cbn in *. subst. rewrite <- app_assoc. split; [done|]. split; [|done].
    exists a, [EvFs OpenRead path], []. split; [done|]. split; [done|]. right; left. done. }
  assert (Hpost : ok (after_post_upload path st1)).
  { exists (a ++ [EvFs OpenRead path; EvUpload path]). unfold after_post_upload, after_open_rb.
    destruct st1; cbn in *. subst. rewrite <- !app_assoc. split; [done|]. split; [|done].
    exists a, [EvFs OpenRead path; EvUpload path], []. split; [done|]. split; [done|].
    right; right. split; [done|]. exists "". split; [constructor|]. cbn. lia. }
  destruct (fs_fault env OpenRead path); [exact Hopen|].
  destruct (files st1 !! path) as [content|]; [|exact Hopen].
  cbv zeta. destruct (negb _); [exact Hpost|].
  destruct (upload_id _) as [id|]; [|exact Hpost].
  destruct (truthy_str id); [|exact Hpost].
  destruct (poll_loop_budget_n env id max_poll_attempts (after_post_upload path st1))
    as (c & Hst & Hall & Hp & Hs & _).
  assert (Hcount : (sleeps c <= polls_in c <= 30)%nat) by (unfold max_poll_attempts in Hp; lia).
  change (poll_loop max_poll_attempts id env (after_post_upload path st1))
    with (_poll_for_results id tok env (after_post_upload path st1)) in Hst.
  assert (Hpoll : ok (after_polling c (after_post_upload path st1))).
  { exists (a ++ [EvFs OpenRead path; EvUpload path] ++ c).
    unfold after_polling, after_post_upload, after_open_rb.
    destruct st1; cbn in *. subst. rewrite <- !app_assoc. split; [done|]. split; [|done].
    exists a, [EvFs OpenRead path; EvUpload path], c. split; [done|]. split; [done|].
    right; right. split; [done|]. by exists id. }
  unfold bind at 1.
  destruct (_poll_for_results id tok env (after_post_upload path st1)) as [[r|e] st3];
    unfold state_of in *; cbn [snd] in *; subst st3; [|exact Hpoll].
  unfold bind, lift, ret. by destruct (_parse_extraction_results r).
Qed.

End Extraction.

(* ===================================================================== *)
(** * More about the persistence gateway *)
(* ===================================================================== *)

(** One step of a run of driver calls. *)
Ltac run_db_step :=
  first
    [ rewrite driver_call_run | rewrite connection_commit_run
    | rewrite connection_rollback_run | rewrite connection_close_run
    | progress (unfold Effects.execute_insert, Effects.execute_select_identity,
                       Effects.execute_select_by_id, Effects.execute_select_page,
                       Effects.execute_select_one,
                       World.bind, Effects.the_session, World.get, World.ask,
                       World.modify, World.ret, World.raise, Reference.fault_at; cbn) ].

(** Run the driver calls one by one, trying each outcome of every call. *)
Ltac run_all_faults :=
  repeat first
    [ run_db_step
    | match goal with
      | |- context [World.db_fault ?e ?n ?o] => destruct (World.db_fault e n o)
      end ].

Section DatabaseMore.
Import Py Payload World Effects Reference Samples Notions.
Import Database Models.


Lemma not_grown {A} (l : list A) (x : A) : l <> l ++ [x].
Proof. intros H%(f_equal length). rewrite length_app in H. cbn in H. lia. Qed.

(** X9: an insert stores its row as soon as the INSERT statement has
    run, whatever fails afterwards: the table gains exactly the new row
    when the connect and the INSERT are served, and is left as it was
    otherwise.  The call returns exactly when all five driver calls are
    served, and then returns the identifier of the row and leaves the
    connection closed; so a failing identity query, commit or close
    leaves the row stored behind an error. *)
Theorem insert_invoice_stores_at_once a env st :
  let run := insert_invoice a env st in
  let row := new_row env (next_id (store st)) a in
  table (store (state_of run))
  = (if insert_runs env st a then table (store st) ++ [row] else table (store st)) /\
  (if insert_succeeds env st a
   then result_of run = Return (Some (next_id (store st))) /\
        session (store (state_of run)) = None
   else exists e, result_of run = Raise e).
Proof.
  cbv zeta. unfold insert_invoice, insert_succeeds, insert_runs.
  rewrite get_connection_run. unfold state_of, result_of.
  destruct st as [u [tb nid ses calls] fs tk tr pl tc].
  unfold fault_at. cbn [store db_calls table next_id].
  destruct (db_fault env calls Connect); cbn; [eauto|].
  run_all_faults.
  all: cbn; eauto.
Qed.

(** What an insert does to the table and to the next identifier. *)
Lemma insert_invoice_numbering a env st :
  let st' := state_of (insert_invoice a env st) in
  table (store st') = table (store st) /\ next_id (store st) <= next_id (store st') \/
  table (store st') = table (store st) ++ [new_row env (next_id (store st)) a] /\
  next_id (store st') = next_id (store st) + 1.
Proof.
  cbv zeta. unfold insert_invoice. rewrite get_connection_run. unfold state_of.
  destruct (fault_at env st Connect); cbn [snd].
  { rewrite driver_called_store. cbn. left. split; [done|lia]. }
  destruct st as [u [tb nid ses calls] fs tk tr pl tc].
  run_all_faults.
  all: rewrite ?app_nil_r.
  all: first [by right | left; split; [done|lia]].
Qed.

(** X10: the three reading operations never change the table or the next
    identifier, whatever the driver refuses. *)
Theorem reads_leave_table env st :
  let same (st' : State) :=
    table (store st') = table (store st) /\ next_id (store st') = next_id (store st) in
  (forall invoice_id, same (state_of (get_invoice invoice_id env st))) /\
  (forall limit offset, same (state_of (get_all_invoices limit offset env st))) /\
  same (state_of (test_connection env st)).
Proof.
  cbv zeta. unfold get_invoice, get_all_invoices, test_connection.
  split; [|split]; intros.
  all: rewrite get_connection_run; unfold state_of.
  all: destruct (fault_at env st Connect); cbn [snd];
    [by rewrite driver_called_store|].
  all: destruct st as [u [tb nid ses calls] fs tk tr pl tc].
  - run_all_faults.
    all: try (by rewrite ?app_nil_r).
    all: destruct (List.find _ _); run_all_faults; by rewrite ?app_nil_r.
  - run_all_faults. all: by rewrite ?app_nil_r.
  - run_all_faults. all: by rewrite ?app_nil_r.
Qed.

(** X11: an insert keeps the identifiers in order. *)
Theorem insert_invoice_well_numbered a env st :
  well_numbered (store st) ->
  well_numbered (store (state_of (insert_invoice a env st))).
Proof.
  intros [Hlt Hnd]. unfold well_numbered.
  destruct (insert_invoice_numbering a env st) as [[-> Hid] | [-> ->]].
  - split; [|done]. eapply Forall_impl; [exact Hlt|]. cbn. intros; lia.
  - split.
    + apply Forall_app. split.
      * eapply Forall_impl; [exact Hlt|]. cbn. intros; lia.
      * constructor; [cbn; lia|constructor].
    + rewrite map_app. apply NoDup_app. split; [done|]. split; [|apply NoDup_singleton].
      intros x Hx [->|[]%elem_of_nil]%elem_of_cons. cbn in Hx.
      apply list_elem_of_In, in_map_iff in Hx as (r & Hr & Hin).
      rewrite Forall_forall in Hlt. apply list_elem_of_In in Hin.
      specialize (Hlt r Hin). cbn in Hlt. lia.
Qed.

Lemma get_invoice_working invoice_id env st :
  working env ->
  get_invoice invoice_id env st
  = (Return (detail_dict <$>
               List.find (fun r => INVOICE_ID r =? invoice_id) (table (store st))),
     after_query (SELECT_BY_ID invoice_id) st).
Proof.
  intros Hw. unfold get_invoice. rewrite get_connection_run.
  destruct st as [u [tb nid ses calls] fs tk tr pl tc].
  repeat first [ rewrite Hw | run_db_step ].
  destruct (List.find _ tb); cbn.
  all: repeat first [ rewrite Hw | run_db_step ].
  all: cbv [after_query closed driver_called connected set_store set_trace
            set_session uaa_service store files ticks token_requests polls trace
            table next_id session db_calls current_identity].
  all: by rewrite ?app_nil_r, <- ?app_assoc.
Qed.

Lemma find_new_row (rows : list Row) (r : Row) :
  Forall (fun r' => INVOICE_ID r' < INVOICE_ID r) rows ->
  List.find (fun r' => INVOICE_ID r' =? INVOICE_ID r) (rows ++ [r]) = Some r.
Proof.
  induction 1 as [|r' l Hr _ IH]; cbn.
  - by rewrite Z.eqb_refl.
  - destruct (Z.eqb_spec (INVOICE_ID r') (INVOICE_ID r)); [lia|done].
Qed.

(** X12: a stored invoice can be fetched: with a working database and
    identifiers in order, the record read back under the identifier an
    insert returned carries what was inserted. *)
Theorem stored_invoice_can_be_fetched a env st :
  let id := next_id (store st) in
  working env ->
  well_numbered (store st) ->
  result_of (insert_invoice a env st) = Return (Some id) /\
  result_of (Router.get_invoice id env (state_of (insert_invoice a env st)))
  = Return (mkInvoiceDetail id (arg_invoice_number a) (arg_vendor_name a)
              (db_upload_timestamp env id) (Some (arg_file_name a))
              (size_or_none (arg_file_size_kb a)) (arg_status a)
              (arg_error_message a) (db_created_at env id)).
Proof.
  intros id Hw [Hlt _]. rewrite (insert_invoice_working a env st Hw).
  split; [done|]. unfold state_of; cbn [snd].
  unfold Router.get_invoice, bind, result_of.
  rewrite (get_invoice_working id env (inserted env a st) Hw). cbn [fst].
  replace (table (store (inserted env a st)))
    with (table (store st) ++ [new_row env id a]) by by destruct st.
  pose proof (find_new_row _ (new_row env id a) Hlt) as Hfind.
  cbn [new_row INVOICE_ID] in Hfind. by rewrite Hfind.
Qed.

(** X13: the detail endpoint answers 404 only when no row has the
    identifier, and with a working database always then; what it returns
    is built from a row of the table with that identifier. *)
Theorem get_invoice_not_found invoice_id env st :
  let run := Router.get_invoice invoice_id env st in
  let absent := Forall (fun r => INVOICE_ID r <> invoice_id) (table (store st)) in
  (forall status detail,
     result_of run = Raise (HTTPException status detail) -> status = 404 /\ absent) /\
  (working env -> absent ->
   result_of run = Raise (HTTPException 404
                            ("Invoice with ID " +:+ str_of_Z invoice_id +:+ " not found"))) /\
  (forall d, result_of run = Return d ->
     exists r, r ∈ table (store st) /\ INVOICE_ID r = invoice_id /\
               d = Router.InvoiceDetail_of (detail_dict r)).
Proof.
  cbv zeta. split; [|split].
  - intros status detail. unfold Router.get_invoice, bind at 1, get_invoice.
    rewrite get_connection_run. unfold result_of.
    destruct (fault_at env st Connect); [discriminate|].
    destruct st as [u [tb nid ses calls] fs tk tr pl tc].
    unfold execute_select_by_id, bind at 1 2. rewrite driver_call_run.
    destruct (fault_at _ _ _).
    { run_all_faults; discriminate. }
    unfold the_session, bind, get, ret. cbn.
    destruct (List.find _ tb) eqn:Hfind; cbn.
    { run_all_faults; discriminate. }
    intros Hrun. split.
    + revert Hrun. run_all_faults; try discriminate. by intros [= <- _].
    + apply Forall_forall. intros r Hin%list_elem_of_In.
      pose proof (find_none _ _ Hfind r Hin) as Hne. cbn in Hne. lia.
  - intros Hw Habs. unfold Router.get_invoice, bind, result_of.
    rewrite (get_invoice_working invoice_id env st Hw).
    assert (List.find (fun r => INVOICE_ID r =? invoice_id) (table (store st)) = None) as ->.
    { induction Habs as [|r l Hr _ IH]; [done|]. cbn.
      by destruct (Z.eqb_spec (INVOICE_ID r) invoice_id). }
    done.
  - intros d. unfold Router.get_invoice, bind at 1, get_invoice.
    rewrite get_connection_run. unfold result_of.
    destruct (fault_at env st Connect); [discriminate|].
    destruct st as [u [tb nid ses calls] fs tk tr pl tc].
    unfold execute_select_by_id, bind at 1 2. rewrite driver_call_run.
    destruct (fault_at _ _ _).
    { run_all_faults; discriminate. }
    unfold the_session, bind, get, ret. cbn.
    destruct (List.find _ tb) as [r|] eqn:Hfind; cbn.
    2:{ run_all_faults; discriminate. }
    intros Hrun. exists r.
    destruct (find_some _ _ Hfind) as [Hin Heq]. cbn in Heq.
    split; [by apply list_elem_of_In|]. split; [lia|].
    revert Hrun. run_all_faults; try discriminate. by intros [= <-].
Qed.

Lemma get_all_invoices_working limit offset env st :
  working env ->
  get_all_invoices limit offset env st
  = (Return (map list_dict
               (select_page (ranks_of env st) (table (store st)) limit offset)),
     after_query (SELECT_PAGE limit offset) st).
Proof.
  intros Hw. unfold get_all_invoices, ranks_of. rewrite get_connection_run.
  destruct st as [u [tb nid ses calls] fs tk tr pl tc].
  repeat first [ rewrite Hw | run_db_step ].
  cbv [after_query closed driver_called connected set_store set_trace
       set_session uaa_service store files ticks token_requests polls trace
       table next_id session db_calls current_identity].
  by rewrite ?app_nil_r, <- ?app_assoc.
Qed.

Lemma select_page_size rank rows limit offset :
  0 <= limit -> 0 <= offset ->
  Z.of_nat (length (select_page rank rows limit offset))
  = Z.min limit (Z.max 0 (Z.of_nat (length rows) - offset)).
Proof.
  intros Hl Ho. unfold select_page, order_by_upload_timestamp_desc.
  rewrite length_take, length_drop, (Permutation_length (merge_sort_Permutation _ rows)).
  lia.
Qed.

(** X14: the size of a page: with a working database and parameters in
    range, [total] is the smaller of [limit] and the number of rows from
    [offset] on. *)
Theorem list_page_size limit offset env st :
  working env -> 1 <= limit <= 100 -> 0 <= offset ->
  exists response,
    result_of (Router.get_all_invoices limit offset env st) = Return response /\
    total response
    = Z.min limit (Z.max 0 (Z.of_nat (length (table (store st))) - offset)).
Proof.
  intros Hw Hl Ho. unfold Router.get_all_invoices.
  assert (negb ((1 <=? limit) && (limit <=? 100) && (0 <=? offset)) = false) as ->.
  { apply negb_false_iff. rewrite !andb_true_iff, !Z.leb_le. lia. }
  unfold bind. rewrite (get_all_invoices_working limit offset env st Hw).
  unfold ret, result_of; cbn [fst]. eexists. split; [done|].
  cbn [total]. rewrite !length_map. apply select_page_size; lia.
Qed.

Lemma ts_geb_antisym a b : ts_geb a b = true -> ts_geb b a = true -> a = b.
Proof.
  destruct a as [x|], b as [y|]; cbn; try done.
  rewrite !Z.leb_le. intros. f_equal. lia.
Qed.

(** Rows with distinct upload instants have one order only, whatever
    ranks the store gives them. *)
Lemma order_by_unique rank1 rank2 rows :
  distinct_instants rows ->
  order_by_upload_timestamp_desc rank1 rows = order_by_upload_timestamp_desc rank2 rows.
Proof.
  intros Hd.
  pose proof (merge_sort_Permutation (comes_first rank1) rows) as Hp1.
  pose proof (merge_sort_Permutation (comes_first rank2) rows) as Hp2.
  apply (StronglySorted_unique_strong newer_or_equal);
    [|apply order_by_sorted..|unfold order_by_upload_timestamp_desc; by rewrite Hp1, Hp2].
  unfold order_by_upload_timestamp_desc. intros r1 r2 H1 H2 H12 H21.
  rewrite Hp1 in H1. rewrite Hp2 in H2.
  apply Hd; [done..|]. by apply ts_geb_antisym.
Qed.

(** X15: pages follow one another when no two rows share an upload
    instant: with a working database, the page at [offset] followed by
    the page at [offset + limit], asked for in any later state with the
    same table, is the page of twice the size at [offset]. *)
Theorem list_pages_compose limit offset env st st' :
  working env -> 1 <= limit <= 50 -> 0 <= offset ->
  table (store st') = table (store st) ->
  distinct_instants (table (store st)) ->
  exists first next both,
    result_of (Router.get_all_invoices limit offset env st) = Return first /\
    result_of (Router.get_all_invoices limit (offset + limit) env st') = Return next /\
    result_of (Router.get_all_invoices (2 * limit) offset env st) = Return both /\
    invoices first ++ invoices next = invoices both.
Proof.
  intros Hw Hl Ho Htb Hd. unfold Router.get_all_invoices.
  assert (forall l o, 1 <= l <= 100 -> 0 <= o ->
            negb ((1 <=? l) && (l <=? 100) && (0 <=? o)) = false) as Hin.
  { intros l o ? ?. apply negb_false_iff. rewrite !andb_true_iff, !Z.leb_le. lia. }
  rewrite !Hin by lia. unfold bind.
  rewrite !get_all_invoices_working by done.
  unfold ret, result_of; cbn [fst]. do 3 eexists. do 3 (split; [done|]).
  cbn [invoices]. rewrite Htb, <- !map_app. do 2 f_equal.
  unfold select_page.
  rewrite (order_by_unique (ranks_of env st') (ranks_of env st) _ Hd).
  rewrite Z2Nat.inj_add by lia. rewrite <- drop_drop.
  rewrite take_take_drop. f_equal. lia.
Qed.

(** X16: the list endpoint never shows an error message: every record it
    returns has [error_message] unset, whatever the row holds. *)
Theorem list_hides_error_messages limit offset env st response st' :
  Router.get_all_invoices limit offset env st = (Return response, st') ->
  Forall (fun d => error_message d = None) (invoices response).
Proof.
  unfold Router.get_all_invoices. destruct (negb _); [discriminate|].
  unfold bind at 1.
  destruct (get_all_invoices limit offset env st) as [[ds|e] st1] eqn:Hdb; [|discriminate].
  intros [= <- <-]. cbn [invoices].
  apply get_connection_returns in Hdb as [st2 Hbody].
  unfold bind in Hbody.
  destruct (execute_select_page limit offset env (connected st)) as [[rows|e] st3];
    [|discriminate].
  injection Hbody as <- <-.
  rewrite List.map_map. apply Forall_forall. intros d Hd%list_elem_of_In.
  apply in_map_iff in Hd as (r & <- & _). done.
Qed.

End DatabaseMore.

(* ===================================================================== *)
(** * More about the upload handler *)
(* ===================================================================== *)

Section FileName.
Import Py Payload World Effects Reference Samples Notions.


Lemma substring_all s : String.substring 0 (String.length s) s = s.
Proof. induction s as [|c s IH]; cbn; [done|by rewrite IH]. Qed.

Lemma append_cons c s t : String c s +:+ t = String c (s +:+ t).
Proof. reflexivity. Qed.

Lemma append_nil t : "" +:+ t = t.
Proof. reflexivity. Qed.

Lemma substring_skip stem s :
  String.substring (String.length stem) (String.length s) (stem +:+ s) = s.
Proof.
  induction stem as [|c stem IH]; rewrite ?append_cons, ?append_nil; cbn;
    [apply substring_all|exact IH].
Qed.

Lemma length_append s t :
  String.length (s +:+ t) = (String.length s + String.length t)%nat.
Proof.
  induction s as [|c s IH]; rewrite ?append_cons, ?append_nil; cbn; [done|by rewrite IH].
Qed.

Lemma split_at s : forall m, (m <= String.length s)%nat ->
  s = String.substring 0 m s +:+ String.substring m (String.length s - m) s.
Proof.
  induction s as [|c s IH]; intros [|m] Hm; cbn in *; try lia.
  - done.
  - by rewrite append_nil, substring_all.
  - rewrite append_cons. f_equal. apply IH. lia.
Qed.

Lemma endswith_iff s suffix :
  endswith s suffix = true <-> exists stem, s = stem +:+ suffix.
Proof.
  unfold endswith. rewrite andb_true_iff, Nat.leb_le, String.eqb_eq. split.
  - intros [Hle Hsub]. exists (String.substring 0 (String.length s - String.length suffix) s).
    pose proof (split_at s (String.length s - String.length suffix) ltac:(lia)) as Hs.
    replace (String.length s - (String.length s - String.length suffix))%nat
      with (String.length suffix) in Hs by lia.
    by rewrite Hsub in Hs.
  - intros [stem ->]. rewrite length_append. split; [lia|].
    replace (String.length stem + String.length suffix - String.length suffix)%nat
      with (String.length stem) by lia.
    apply substring_skip.
Qed.

Lemma lower_append s t : lower (s +:+ t) = lower s +:+ lower t.
Proof.
  induction s as [|c s IH]; rewrite ?append_cons, ?append_nil; cbn; [done|].
  by rewrite append_cons, IH.
Qed.

Lemma lower_splits s : forall name t,
  lower name = s +:+ t ->
  exists n1 n2, name = n1 +:+ n2 /\ lower n1 = s /\ lower n2 = t.
Proof.
  induction s as [|c s IH]; intros name t H; rewrite ?append_cons, ?append_nil in H.
  - by exists "", name.
  - destruct name as [|c' name]; [discriminate|]. cbn in H. injection H as Hc H.
    destruct (IH name t H) as (n1 & n2 & -> & <- & <-).
    exists (String c' n1), n2. rewrite append_cons. cbn. by rewrite Hc.
Qed.

Lemma lower_ascii_letter c (l : ascii) :
  (97 <= nat_of_ascii l <= 122)%nat ->
  lower_ascii c = l <-> c = l \/ c = ascii_of_nat (nat_of_ascii l - 32).
Proof.
  intros Hl. unfold lower_ascii.
  pose proof (nat_ascii_bounded c) as Hc.
  destruct ((65 <=? nat_of_ascii c)%nat && (nat_of_ascii c <=? 90)%nat) eqn:Hup.
  - apply andb_true_iff in Hup as [H1%Nat.leb_le H2%Nat.leb_le]. split.
    + intros <-. right. rewrite nat_ascii_embedding by lia.
      replace (nat_of_ascii c + 32 - 32)%nat with (nat_of_ascii c) by lia.
      by rewrite ascii_nat_embedding.
    + intros [-> | ->]; [lia|].
      rewrite nat_ascii_embedding by lia.
      replace (nat_of_ascii l - 32 + 32)%nat with (nat_of_ascii l) by lia.
      by rewrite ascii_nat_embedding.
  - split; [by left|]. intros [-> | ->]; [done|].
    rewrite nat_ascii_embedding in Hup by lia.
    apply andb_false_iff in Hup as [H%Nat.leb_gt | H%Nat.leb_gt]; lia.
Qed.

Lemma lower_ascii_other c (l : ascii) :
  ~ (97 <= nat_of_ascii l <= 122)%nat -> ~ (65 <= nat_of_ascii l <= 90)%nat ->
  lower_ascii c = l <-> c = l.
Proof.
  intros Hl Hu. unfold lower_ascii.
  pose proof (nat_ascii_bounded c) as Hc.
  destruct ((65 <=? nat_of_ascii c)%nat && (nat_of_ascii c <=? 90)%nat) eqn:Hup; [|done].
  apply andb_true_iff in Hup as [H1%Nat.leb_le H2%Nat.leb_le]. split.
  - intros <-. rewrite nat_ascii_embedding in Hl by lia. lia.
  - intros ->. lia.
Qed.

(** X17: the file-type check accepts exactly the names that end in
    [.pdf], in any mix of upper and lower case. *)
Theorem pdf_check_accepts name :
  endswith (lower name) ".pdf" = true <->
  exists stem p d f,
    name = stem +:+ String "." (String p (String d (String f ""))) /\
    (p = "p" \/ p = "P")%char /\ (d = "d" \/ d = "D")%char /\ (f = "f" \/ f = "F")%char.
Proof.
  rewrite endswith_iff. split.
  - intros [stem Hl]. apply lower_splits in Hl as (n1 & n2 & -> & _ & Hext).
    destruct n2 as [|a [|p [|d [|f [|]]]]]; try discriminate.
    cbn in Hext. injection Hext as Ha Hp Hd Hf.
    apply (lower_ascii_other a ".") in Ha;
      [|change (nat_of_ascii ".") with 46%nat; lia..].
    apply (lower_ascii_letter p "p") in Hp; [|change (nat_of_ascii "p") with 112%nat; lia].
    apply (lower_ascii_letter d "d") in Hd; [|change (nat_of_ascii "d") with 100%nat; lia].
    apply (lower_ascii_letter f "f") in Hf; [|change (nat_of_ascii "f") with 102%nat; lia].
    subst a. by exists n1, p, d, f.
  - intros (stem & p & d & f & -> & Hp & Hd & Hf).
    exists (lower stem). rewrite lower_append. f_equal. cbn.
    by destruct Hp as [-> | ->], Hd as [-> | ->], Hf as [-> | ->].
Qed.

End FileName.

Section UploadHandler.
Import Py Payload World Effects Reference Samples Notions.
Import Models Router.


(** Whatever [insert_invoice] raises comes from the driver. *)
Lemma insert_invoice_raises a env st e :
  result_of (Database.insert_invoice a env st) = Raise e -> is_HTTPException e = false.
Proof.
  unfold Database.insert_invoice. rewrite get_connection_run. unfold result_of.
  destruct (fault_at env st Connect); cbn [fst]; [by intros [= <-]|].
  destruct st as [u [tb nid ses calls] fs tk tr pl tc].
  run_all_faults.
  all: try discriminate.
  all: by intros [= <-].
Qed.

(** The [try] block once the size check has passed and the content is
    written. *)
Lemma process_run file path env st :
  Z.of_nat (length (content file)) <= MAX_FILE_SIZE_MB env * 1024 * 1024 ->
  fs_fault env Write path = None ->
  process file path env st =
  match DocumentAI.extract_invoice_data path env
          (set_files (fun fs => <[path := content file]> fs) (fs_called Write path st)) with
  | (Raise e, s2) => (Raise e, s2)
  | (Return parsed, s2) =>
      match Database.insert_invoice (processed_args file parsed) env s2 with
      | (Raise e, s3) => (Raise e, s3)
      | (Return None, s3) =>
          (Raise (Exception "1 validation error for InvoiceUploadResponse"), s3)
      | (Return (Some id), s3) => (Return (processed_response file parsed id), s3)
      end
  end.
Proof.
  intros Hsize Hwr. unfold process. unfold bind at 1, ask at 1.
  apply Z.ltb_ge in Hsize. rewrite Hsize.
  unfold bind at 1, ret at 1. unfold bind at 1. rewrite write_run, Hwr.
  unfold bind at 1.
  destruct (DocumentAI.extract_invoice_data _ _ _) as [[parsed|e] s2]; [|done].
  unfold bind, processed_args.
  destruct (Database.insert_invoice _ env s2) as [[[id|]|e] s3]; done.
Qed.

(** An [HTTPException] out of the [try] block is the size rejection. *)
Lemma process_raises_http file path env st code text s1 :
  process file path env st = (Raise (HTTPException code text), s1) ->
  code = 400.
Proof.
  intros Hrun. apply (f_equal result_of) in Hrun. revert Hrun. unfold result_of at 2.
  cbn [fst].
  unfold process. unfold bind at 1, ask at 1.
  destruct (_ <? _) eqn:Hsize.
  { unfold bind, raise, result_of; cbn. by intros [= <- _]. }
  unfold bind at 1, ret at 1. unfold bind at 1. rewrite write_run.
  destruct (fs_fault env Write path); [discriminate|].
  unfold bind at 1.
  destruct (DocumentAI.extract_invoice_data _ _ _) as [[parsed|e] s2] eqn:Hex.
  2:{ intros [= ->].
      match type of Hex with DocumentAI.extract_invoice_data _ _ ?s0 = _ =>
        pose proof (proj2 (quiet_extract_invoice_data path env s0)
                      (HTTPException code text)) as Hq end.
      rewrite Hex in Hq. specialize (Hq eq_refl). discriminate. }
  unfold bind.
  destruct (Database.insert_invoice _ env s2) as [[[id|]|e] s3] eqn:Hins; try discriminate.
  intros [= ->].
  match type of Hins with Database.insert_invoice ?a _ _ = _ =>
    pose proof (insert_invoice_raises a env s2 (HTTPException code text)) as Hi end.
  rewrite Hins in Hi. specialize (Hi eq_refl). discriminate.
Qed.

(** X19: what an upload can end with: a response, HTTP 400, HTTP 422,
    the error of the [mkdir] that precedes the [try] block, or the error
    of the test for the temporary file in the [finally] block, which a
    path the file system refuses raises; no error of the extraction, of
    the database or of the removal of the file gets out. *)
Theorem upload_invoice_outcomes file env st e :
  result_of (upload_invoice file env st) = Raise e ->
  (exists detail, e = HTTPException 400 detail) \/
  (exists detail, e = HTTPException 422 detail) \/
  (exists msg, e = OSError msg /\ fs_fault env Mkdir (UPLOAD_DIR env) = Some msg) \/
  (exists msg, e = OSError msg /\
               fs_refused env (temp_filepath_of env file) = Some msg).
Proof.
  destruct (endswith (lower (filename file)) ".pdf") eqn:Hpdf.
  2:{ unfold upload_invoice. rewrite Hpdf. intros [= <-]. left. eauto. }
  rewrite upload_invoice_run by done.
  destruct (fs_fault env Mkdir (UPLOAD_DIR env)) as [msg|] eqn:Hmk.
  { intros [= <-]. right; right; left. eauto. }
  destruct (fs_refused env (temp_filepath_of env file)) as [msg|] eqn:Hno.
  { unfold try_finally.
    destruct (try_and_except file _ env _) as [r st1].
    rewrite (cleanup_refused _ _ _ _ Hno). intros [= <-]. right; right; right. eauto. }
  rewrite try_finally_result by by apply cleanup_returns.
  unfold try_and_except. rewrite open_wb_run.
  destruct (fs_fault env OpenWrite _) as [msg|].
  { rewrite on_exception_run by done. intros [= <-]. right; left. eauto. }
  unfold try_except.
  destruct (process file _ env _) as [[response|e0] s1] eqn:Hp; [discriminate|].
  destruct (is_HTTPException e0) eqn:He0.
  - destruct e0 as [code text| | | | | | | |]; try discriminate.
    unfold on_exception. cbn [is_HTTPException].
    intros [= <-]. left.
    rewrite (process_raises_http _ _ _ _ _ _ _ Hp). eauto.
  - rewrite on_exception_run by done. intros [= <-]. right; left. eauto.
Qed.

(** X20: an oversized upload is refused before anything is sent or
    stored: the request makes the directory, opens the temporary file
    and removes it again, and does nothing else; the content is never
    written. *)
Theorem oversized_upload_touches_nothing file env st :
  let path := temp_filepath_of env file in
  let final := state_of (upload_invoice file env st) in
  endswith (lower (filename file)) ".pdf" = true ->
  fs_fault env Mkdir (UPLOAD_DIR env) = None ->
  fs_fault env OpenWrite path = None ->
  MAX_FILE_SIZE_MB env * 1024 * 1024 < Z.of_nat (length (content file)) ->
  trace final
  = trace st ++ [EvFs Mkdir (UPLOAD_DIR env); EvFs OpenWrite path; EvFs Remove path] /\
  store final = store st /\
  uaa_service final = uaa_service st /\
  (files final !! path = None \/ files final !! path = Some []).
Proof.
  intros path final Hpdf Hmk Hop Hbig.
  set (ok := fun st0 final : State =>
    trace final
    = trace st0 ++ [EvFs Mkdir (UPLOAD_DIR env); EvFs OpenWrite path; EvFs Remove path] /\
    store final = store st0 /\ uaa_service final = uaa_service st0 /\
    (files final !! path = None \/ files final !! path = Some [])).
  change (ok st final). subst final.
  rewrite upload_invoice_run, Hmk by done. fold path.
  rewrite try_finally_state.
  unfold try_and_except. rewrite open_wb_run, Hop.
  unfold try_except, process. unfold bind at 1, ask at 1.
  apply Z.ltb_lt in Hbig. rewrite Hbig.
  unfold bind at 1, raise at 1. unfold on_exception. cbn [is_HTTPException].
  unfold raise, state_of at 2. cbn [snd].
  unfold cleanup, bind at 1. rewrite exists_run, (fs_fault_refused _ _ _ Hop).
  destruct st as [u d fs tk tr pl tc].
  cbv [fs_called set_files set_trace uaa_service store files ticks token_requests polls
       trace].
  rewrite lookup_insert_eq.
  rewrite bool_decide_eq_true_2 by eauto.
  unfold try_except, os_remove, bind at 1. rewrite fs_call_run.
  destruct (fs_fault env Remove path).
  - unfold ret, state_of. cbn [snd]. subst ok. cbn.
    rewrite <- !app_assoc, lookup_insert_eq. auto.
  - unfold bind, get, modify, state_of. cbn. rewrite lookup_insert_eq.
    subst ok. cbn. rewrite <- !app_assoc, lookup_delete_eq. auto.
Qed.

(** The request once the file is saved. *)
Lemma upload_invoice_saved file env st :
  let path := temp_filepath_of env file in
  endswith (lower (filename file)) ".pdf" = true ->
  Z.of_nat (length (content file)) <= MAX_FILE_SIZE_MB env * 1024 * 1024 ->
  fs_fault env Mkdir (UPLOAD_DIR env) = None ->
  fs_fault env OpenWrite path = None ->
  fs_fault env Write path = None ->
  upload_invoice file env st =
  let body :=
    match DocumentAI.extract_invoice_data path env (saved env file st) with
    | (Raise e, s2) => on_exception file (file_size_kb_of file) e env s2
    | (Return parsed, s2) =>
        match Database.insert_invoice (processed_args file parsed) env s2 with
        | (Raise e, s3) => on_exception file (file_size_kb_of file) e env s3
        | (Return None, s3) =>
            on_exception file (file_size_kb_of file)
              (Exception "1 validation error for InvoiceUploadResponse") env s3
        | (Return (Some id), s3) => (Return (processed_response file parsed id), s3)
        end
    end in
  (result_of body, state_of (cleanup path env (state_of body))).
Proof.
  intros path Hpdf Hsize Hmk Hop Hwr.
  rewrite upload_invoice_run, Hmk by done. fold path.
  rewrite try_finally_run by apply cleanup_returns, (fs_fault_refused _ _ _ Hop).
  unfold try_and_except. rewrite open_wb_run, Hop.
  unfold try_except. rewrite process_run by done.
  unfold saved. fold path. cbv zeta.
  destruct (DocumentAI.extract_invoice_data _ _ _) as [[parsed|e] s2]; [|done].
  by destruct (Database.insert_invoice _ env s2) as [[[id|]|e] s3].
Qed.

(** X21: a processed upload: when the file is saved and the extraction
    returns, a working database stores one PROCESSED record, the response
    carries its identifier and the extracted values, and the detail
    endpoint then returns that record. *)
Theorem upload_invoice_processed file env st parsed s2 :
  let path := temp_filepath_of env file in
  let id := next_id (store st) in
  let final := state_of (upload_invoice file env st) in
  endswith (lower (filename file)) ".pdf" = true ->
  Z.of_nat (length (content file)) <= MAX_FILE_SIZE_MB env * 1024 * 1024 ->
  fs_fault env Mkdir (UPLOAD_DIR env) = None ->
  fs_fault env OpenWrite path = None ->
  fs_fault env Write path = None ->
  DocumentAI.extract_invoice_data path env (saved env file st) = (Return parsed, s2) ->
  working env ->
  well_numbered (store st) ->
  result_of (upload_invoice file env st) = Return (processed_response file parsed id) /\
  table (store final)
  = table (store st) ++ [new_row env id (processed_args file parsed)] /\
  result_of (Router.get_invoice id env final)
  = Return (mkInvoiceDetail id
              (DocumentAI.invoice_number parsed) (DocumentAI.vendor_name parsed)
              (db_upload_timestamp env id) (Some (filename file))
              (Database.size_or_none (file_size_kb_of file)) "PROCESSED" None
              (db_created_at env id)).
Proof.
  intros path id final Hpdf Hsize Hmk Hop Hwr Hex Hw [Hlt _].
  assert (Hs2 : store s2 = store st).
  { pose proof (proj1 (quiet_extract_invoice_data path env (saved env file st))) as H.
    unfold state_of in H. rewrite Hex in H. cbn [snd] in H.
    rewrite db_side_saved in H. by injection H. }
  pose proof (upload_invoice_saved file env st Hpdf Hsize Hmk Hop Hwr) as Hrun.
  fold path in Hrun. cbv zeta in Hrun.
  rewrite Hex, (insert_invoice_working _ env s2 Hw), Hs2 in Hrun. fold id in Hrun.
  unfold result_of at 1, state_of at 2 in Hrun. cbn [fst snd] in Hrun.
  assert (Hfinal : store final
                   = store (inserted env (processed_args file parsed) s2)).
  { subst final. rewrite Hrun. unfold state_of at 1. cbn [snd].
    pose proof (proj1 (quiet_cleanup path env
                         (inserted env (processed_args file parsed) s2))) as H.
    by injection H. }
  assert (Htable : table (store final)
                   = table (store st) ++ [new_row env id (processed_args file parsed)]).
  { rewrite Hfinal. unfold inserted. destruct s2; cbn in *. by rewrite Hs2. }
  split; [by rewrite Hrun|]. split; [exact Htable|].
  unfold Router.get_invoice, bind, result_of.
  rewrite (get_invoice_working id env final Hw). cbn [fst]. rewrite Htable.
  pose proof (find_new_row _ (new_row env id (processed_args file parsed)) Hlt) as Hfind.
  cbn [new_row INVOICE_ID] in Hfind. by rewrite Hfind.
Qed.

(** X22: when the record of a parsed invoice cannot be stored, the
    handler answers 422 with the driver's error and tries to store a
    FAILED record over a second connection. *)
Theorem upload_insert_failure file env st parsed s2 e s3 :
  let path := temp_filepath_of env file in
  let final := state_of (upload_invoice file env st) in
  endswith (lower (filename file)) ".pdf" = true ->
  Z.of_nat (length (content file)) <= MAX_FILE_SIZE_MB env * 1024 * 1024 ->
  fs_fault env Mkdir (UPLOAD_DIR env) = None ->
  fs_fault env OpenWrite path = None ->
  fs_fault env Write path = None ->
  DocumentAI.extract_invoice_data path env (saved env file st) = (Return parsed, s2) ->
  Database.insert_invoice (processed_args file parsed) env s2 = (Raise e, s3) ->
  upload_invoice file env st
  = (Raise (HTTPException 422 ("Failed to process invoice: " +:+ str_of_exn e)),
     state_of (cleanup path env
                 (state_of (Database.insert_invoice (failed_args file e) env s3)))) /\
  connects (trace final) = S (S (connects (trace st))).
Proof.
  intros path final Hpdf Hsize Hmk Hop Hwr Hex Hins.
  assert (He : is_HTTPException e = false).
  { apply (insert_invoice_raises (processed_args file parsed) env s2).
    by rewrite Hins. }
  pose proof (upload_invoice_saved file env st Hpdf Hsize Hmk Hop Hwr) as Hrun.
  fold path in Hrun. cbv zeta in Hrun.
  rewrite Hex, Hins, (on_exception_run _ _ _ _ _ He) in Hrun.
  unfold result_of, state_of in Hrun. cbn [fst snd] in Hrun.
  split; [exact Hrun|]. subst final. rewrite Hrun. unfold state_of. cbn [snd].
  etrans; [apply db_side_connects, (proj1 (quiet_cleanup path env _))|].
  etrans; [apply (insert_invoice_connects (failed_args file e) env s3)|]. f_equal.
  pose proof (insert_invoice_connects (processed_args file parsed) env s2) as Hc.
  rewrite Hins in Hc. unfold state_of in Hc. cbn [snd] in Hc. rewrite Hc. f_equal.
  apply db_side_connects.
  pose proof (proj1 (quiet_extract_invoice_data path env (saved env file st))) as H.
  unfold state_of in H. rewrite Hex in H. cbn [snd] in H.
  by rewrite H, db_side_saved.
Qed.

End UploadHandler.

(* ===================================================================== *)
(** * Properties of the configuration *)
(* ===================================================================== *)

Section ConfigFacts.
Import Py Notions Config.


Lemma for_path_in_spec cenv possible_paths out : forall paths r out',
  for_path_in cenv paths possible_paths out = (r, out') ->
  match r with
  | Ok key =>
      exists before path,
        first_existing cenv paths before path /\
        read_json cenv path = inr key /\ out' = out ++ [Loaded path]
  | Err (FileNotFoundError tried) =>
      tried = possible_paths /\
      Forall (fun p => path_exists cenv p = false) paths /\ out' = out
  | Err (LoadError msg) =>
      exists before path,
        first_existing cenv paths before path /\
        read_json cenv path = inl msg /\ out' = out
  | Err _ => False
  end.
Proof.
  induction paths as [|path paths IH]; intros r out' Hrun; cbn in Hrun.
  - injection Hrun as <- <-. by repeat split.
  - destruct (path_exists cenv path) eqn:Hex.
    + destruct (read_json cenv path) as [msg|key] eqn:Hread; injection Hrun as <- <-.
      * exists [], path. split; [|done]. exists paths. by repeat split.
      * exists [], path. split; [|done]. exists paths. by repeat split.
    + specialize (IH r out' Hrun).
      destruct r as [key|[tried|msg|key|]]; try done.
      * destruct IH as (before & p & (after & -> & Hb & Hp) & Hread & ->).
        exists (path :: before), p. split; [|done]. exists after.
        split; [done|]. split; [by constructor|done].
      * destruct IH as (-> & Hall & ->). split; [done|]. split; [by constructor|done].
      * destruct IH as (before & p & (after & -> & Hb & Hp) & Hread & ->).
        exists (path :: before), p. split; [|done]. exists after.
        split; [done|]. split; [by constructor|done].
Qed.

(** X23: the service key is read from the first candidate path that
    exists, and from no other: when that file cannot be loaded the error
    goes up and the later candidates are not tried; [FileNotFoundError]
    is raised exactly when none of the three exists.  Only a successful
    load prints. *)
Theorem load_service_key_outcome cenv service_key_path out r out' :
  let paths := possible_paths_of cenv service_key_path in
  _load_service_key cenv service_key_path out = (r, out') ->
  match r with
  | Ok key =>
      exists before path,
        first_existing cenv paths before path /\
        read_json cenv path = inr key /\ out' = out ++ [Loaded path]
  | Err (FileNotFoundError tried) =>
      tried = paths /\
      Forall (fun p => path_exists cenv p = false) paths /\ out' = out
  | Err (LoadError msg) =>
      exists before path,
        first_existing cenv paths before path /\
        read_json cenv path = inl msg /\ out' = out
  | Err _ => False
  end.
Proof. intros paths. apply for_path_in_spec. Qed.

(** X24: an absolute key path has no fallback: the three candidates are
    the path itself. *)
Theorem absolute_key_path_has_no_fallback cenv service_key_path :
  String.prefix "/" service_key_path = true ->
  possible_paths_of cenv service_key_path
  = [service_key_path; service_key_path; service_key_path].
Proof. intros Habs. unfold possible_paths_of, path_join. by rewrite Habs. Qed.

(** X25: the configuration is loaded once: after a call that returned,
    every later call returns the same object without looking at the files
    again; a call that failed leaves the global unset and prints nothing,
    so the next call tries again. *)
Theorem get_dox_config_caches cenv st :
  match get_dox_config cenv st with
  | (Ok c, st1) =>
      dox_config st1 = Some c /\
      forall cenv', get_dox_config cenv' st1 = (Ok c, st1)
  | (Err e, st1) =>
      dox_config st = None /\ dox_config st1 = None /\ stdout st1 = stdout st
  end.
Proof.
  unfold get_dox_config.
  destruct (dox_config st) as [c|] eqn:Hc.
  { split; [done|]. intros cenv'. unfold get_dox_config. by rewrite Hc. }
  unfold DocumentAIConfig_init.
  destruct (_load_service_key cenv (DOX_SERVICE_KEY_PATH cenv) (stdout st))
    as [[key|e] out1] eqn:Hload.
  - split; [done|]. intros cenv'. by unfold get_dox_config.
  - split; [done|]. split; [done|]. cbn.
    pose proof (for_path_in_spec _ _ _ _ _ _ Hload) as Hspec.
    destruct e as [tried|msg|key|]; [by destruct Hspec as (_ & _ & ->)| |done..].
    by destruct Hspec as (_ & _ & _ & _ & ->).
Qed.

End ConfigFacts.

(* ===================================================================== *)
(** * Properties of the health check *)
(* ===================================================================== *)

Section HealthFacts.
Import Py World Effects Reference Notions Database Health.


Lemma test_connection_run env st :
  (query_succeeds env st SELECT_ONE_FROM_DUMMY = true /\
   test_connection env st = (Return true, after_query SELECT_ONE_FROM_DUMMY st)) \/
  (query_succeeds env st SELECT_ONE_FROM_DUMMY = false /\
   exists e, result_of (test_connection env st) = Raise e) .
Proof.
  unfold test_connection, query_succeeds. rewrite get_connection_run.
  destruct st as [u [tb nid ses calls] fs tk tr pl tc]. unfold fault_at. cbn.
  destruct (db_fault env calls Connect) eqn:H0; cbn.
  { right. split; [done|]. eauto. }
  repeat run_db_step.
  destruct (db_fault env (S calls) _) eqn:H1; cbn.
  { right. split; [done|]. repeat run_db_step.
    destruct (db_fault env (S (S calls)) Rollback); repeat run_db_step;
      destruct (db_fault env (S (S (S calls))) Close); cbn; eauto. }
  repeat run_db_step.
  destruct (db_fault env (S (S calls)) Commit) eqn:H2; cbn.
  { right. split; [done|]. repeat run_db_step.
    destruct (db_fault env (S (S (S calls))) Rollback); repeat run_db_step;
      destruct (db_fault env (S (S (S (S calls)))) Close); cbn; eauto. }
  repeat run_db_step.
  destruct (db_fault env (S (S (S calls))) Close) eqn:H3; cbn.
  { right. split; [done|]. eauto. }
  left. split; [done|].
  cbv [after_query closed driver_called connected set_store set_trace
       set_session uaa_service store files ticks token_requests polls trace
       table next_id session db_calls current_identity].
  by rewrite ?app_nil_r, <- ?app_assoc.
Qed.

(** A connection test changes nothing but the driver's call count, the
    session and the trace. *)
Lemma test_connection_frame env st :
  let st' := state_of (test_connection env st) in
  table (store st') = table (store st) /\
  next_id (store st') = next_id (store st) /\
  uaa_service st' = uaa_service st /\
  files st' = files st /\
  ticks st' = ticks st /\
  token_requests st' = token_requests st.
Proof.
  cbv zeta. unfold test_connection. rewrite get_connection_run. unfold state_of.
  destruct (fault_at env st Connect); cbn [snd].
  { by destruct st. }
  destruct st as [u [tb nid ses calls] fs tk tr pl tc].
  repeat first
    [ run_db_step
    | match goal with
      | |- context [db_fault ?e ?n ?o] => destruct (db_fault e n o)
      end ].
  all: by rewrite ?app_nil_r.
Qed.

(** X26: what the health check reports.  The database counts as
    connected exactly when connect, query, commit and close all succeed;
    Document AI counts as configured exactly when the service key is
    there and holds a truthy [uaa.url] and a truthy [url]; the status is
    healthy exactly when both hold, and the message names what is
    missing. *)
Theorem health_check_report cenv env cst st :
  let r := response (health_check cenv env cst st) in
  database_connected r = query_succeeds env st SELECT_ONE_FROM_DUMMY /\
  (document_ai_configured r = true <->
   exists c u d,
     fst (Config.get_dox_config cenv cst) = Config.Ok c /\
     Config.uaa_url c = Config.Ok u /\ Config.truthy u = true /\
     Config.document_ai_url c = Config.Ok d /\ Config.truthy d = true) /\
  (status r, message r)
  = match database_connected r, document_ai_configured r with
    | true, true => ("healthy", "All systems operational")
    | false, true => ("degraded", "Issues detected: database")
    | true, false => ("degraded", "Issues detected: document_ai")
    | false, false => ("degraded", "Issues detected: database, document_ai")
    end.
Proof.
  cbv zeta. unfold health_check.
  assert (Hdb : (let '(b, _, _) :=
                   match test_connection env st with
                   | (Return b, st1) => (b, st1, @nil line)
                   | (Raise e, st1) => (false, st1, [DatabaseHealthCheckFailed e])
                   end in b) = query_succeeds env st SELECT_ONE_FROM_DUMMY).
  { destruct (test_connection_run env st) as [[-> ->] | [-> [e He]]]; [done|].
    unfold result_of in He. destruct (test_connection env st) as [r st1].
    cbn in He. by subst r. }
  destruct (match test_connection env st with
            | (Return b, st1) => (b, st1, [])
            | (Raise e, st1) => (false, st1, [DatabaseHealthCheckFailed e])
            end) as [[db st1] out1].
  cbn in Hdb. subst db.
  destruct (Config.get_dox_config cenv cst) as [[c|e] cst1]; cbn [fst].
  2:{ destruct (query_succeeds _ _ _); cbn; (split; [done|]); (split; [|done]).
      all: split; [done|]; by intros (c & u & d & [=] & _). }
  unfold uaa_url_and_document_ai_url.
  destruct (Config.uaa_url c) as [u|e] eqn:Hu.
  2:{ destruct (query_succeeds _ _ _); cbn; (split; [done|]); (split; [|done]).
      all: split; [done|]; intros (c' & u & d & [= <-] & ? & _); congruence. }
  destruct (Config.truthy u) eqn:Htu.
  2:{ destruct (query_succeeds _ _ _); cbn; (split; [done|]); (split; [|done]).
      all: split; [done|]; intros (c' & u' & d & [= <-] & ? & ? & _); congruence. }
  destruct (Config.document_ai_url c) as [d|e] eqn:Hd.
  2:{ destruct (query_succeeds _ _ _); cbn; (split; [done|]); (split; [|done]).
      all: split; [done|]; intros (c' & u' & d & [= <-] & ? & ? & ? & _); congruence. }
  destruct (query_succeeds _ _ _), (Config.truthy d) eqn:Htd; cbn.
  all: (split; [done|]); (split; [|done]).
  all: split; [try done; intros _; by exists c, u, d|].
  all: intros (c' & u' & d' & [= <-] & ? & ? & ? & ?); congruence.
Qed.

(** X27: the health check only looks: whatever fails, it leaves the table
    and the next identifier as they were, and the configuration global as
    [get_dox_config] leaves it. *)
Theorem health_check_reads_only cenv env cst st :
  let run := health_check cenv env cst st in
  table (store (world run)) = table (store st) /\
  next_id (store (world run)) = next_id (store st) /\
  uaa_service (world run) = uaa_service st /\
  files (world run) = files st /\
  config run = snd (Config.get_dox_config cenv cst).
Proof.
  cbv zeta. unfold health_check.
  pose proof (test_connection_frame env st) as Hdb. cbv zeta in Hdb.
  unfold state_of in Hdb.
  destruct (test_connection env st) as [[[|]|e] st1]; cbn [snd] in Hdb.
  all: destruct (Config.get_dox_config cenv cst) as [[c|e'] cst1]; cbn [snd];
    [destruct (uaa_url_and_document_ai_url c) as [[|]|]|].
  all: cbn; by destruct Hdb as (? & ? & ? & ? & _).
Qed.

End HealthFacts.

(* ===================================================================== *)
(** * Properties of the startup *)
(* ===================================================================== *)

Section StartupFacts.
Import Py Payload World Effects Reference Notions Database Main.


Lemma for_path_in_none cenv possible_paths out : forall paths,
  Forall (fun p => Config.path_exists cenv p = false) paths ->
  Config.for_path_in cenv paths possible_paths out
  = (Config.Err (Config.FileNotFoundError possible_paths), out).
Proof. induction 1 as [|p paths Hp _ IH]; cbn; [done|by rewrite Hp]. Qed.


Lemma get_access_token_frame env st :
  let st' := state_of (UAA.get_access_token env st) in
  store st' = store st /\
  (token_requests st' <= S (token_requests st))%nat.
Proof.
  cbv zeta. rewrite get_access_token_run. cbv zeta.
  assert (Hc : store (after_check st) = store st
               /\ token_requests (after_check st) = token_requests st).
  { unfold after_check. by destruct (truthy_opt_str _), st. }
  assert (Hr : store (after_request st) = store st
               /\ token_requests (after_request st) = S (token_requests st)).
  { unfold after_request, after_check. by destruct (truthy_opt_str _), st. }
  destruct (cache_test env st).
  { unfold state_of; cbn [snd]. destruct Hc as [-> ->]. split; [done|lia]. }
  destruct (negb _).
  { unfold state_of; cbn [snd]. destruct Hr as [-> ->]. split; [done|lia]. }
  destruct (UAA.subscript_access_token _) as [token|e].
  2:{ unfold state_of; cbn [snd]. destruct Hr as [-> ->]. split; [done|lia]. }
  destruct (UAA.get_expires_in _) as [seconds|].
  all: unfold state_of, after_refresh, after_failed_refresh, after_request, after_check;
    cbn [snd].
  all: destruct (truthy_opt_str _), st; cbn; split; (done || lia).
Qed.

(** X28: startup always completes: whatever is missing or fails, the
    three checks print one line each between the first and the last line,
    the table is left as it was, and at most one token is requested. *)
Theorem startup_always_completes cenv env app :
  let app' := lifespan_startup cenv env app in
  (exists l1 l2 l3,
     printed app' = printed app ++ [Starting; l1; l2; l3; StartedSuccessfully]) /\
  table (store (world app')) = table (store (world app)) /\
  next_id (store (world app')) = next_id (store (world app)) /\
  (token_requests (world app') <= S (token_requests (world app)))%nat.
Proof.
  cbv zeta. unfold lifespan_startup.
  pose proof (test_connection_frame env (world app)) as Hdb. cbv zeta in Hdb.
  unfold state_of in Hdb.
  set (out0 := printed app ++ [Starting]).
  set (step1 := match Config.get_dox_config cenv (config app) with
                | (Config.Err e, cst1) => (cst1, out0 ++ [DocumentAIConfigurationError e])
                | (Config.Ok c, cst1) =>
                    match Config.document_ai_url c with
                    | Config.Err e => (cst1, out0 ++ [DocumentAIConfigurationError e])
                    | Config.Ok url => (cst1, out0 ++ [DocumentAIConfigured url])
                    end
                end).
  assert (H1 : exists l1, step1.2 = out0 ++ [l1]).
  { subst step1. destruct (Config.get_dox_config _ _) as [[c|e] cst1]; [|by eexists].
    destruct (Config.document_ai_url c); by eexists. }
  destruct step1 as [cst1 out1]. destruct H1 as [l1 H1]. cbn [snd] in H1. subst out1.
  set (step2 := match test_connection env (world app) with
                | (Return true, st1) => (st1, (out0 ++ [l1]) ++ [DatabaseConnected])
                | (Return false, st1) => (st1, (out0 ++ [l1]) ++ [DatabaseConnectionFailed])
                | (Raise e, st1) => (st1, (out0 ++ [l1]) ++ [DatabaseError e])
                end).
  assert (H2 : (exists l2, step2.2 = (out0 ++ [l1]) ++ [l2]) /\
               step2.1 = (test_connection env (world app)).2).
  { subst step2. destruct (test_connection _ _) as [[[|]|e] st1]; split; by eexists. }
  destruct step2 as [st1 out2]. destruct H2 as [[l2 H2] Hst1]. cbn [fst snd] in H2, Hst1.
  subst out2 st1.
  remember ((test_connection env (world app)).2) as w1 eqn:Hw1. clear Hw1.
  destruct Hdb as (Htb & Hid & _ & _ & _ & Hreq).
  unfold get_uaa_service. cbn [_uaa_service config world printed].
  destruct (_uaa_service app) as [c|].
  - unfold Main.get_access_token. cbn [world config _uaa_service printed].
    pose proof (get_access_token_frame env w1) as [Hs Hr]. unfold state_of in Hs, Hr.
    rewrite cached_token_is_valid_run.
    destruct (if cache_test env w1 then Config.Ok () else request_settings c).
    + destruct (UAA.get_access_token env w1) as [[token|e] st2]; cbn in *.
      all: split; [do 3 eexists; subst out0; by rewrite <- !app_assoc|].
      all: rewrite Hs, Htb, Hid; split; [done|]; split; [done|lia].
    + cbn. split; [do 3 eexists; subst out0; by rewrite <- !app_assoc|].
      unfold after_check. destruct (truthy_opt_str _), w1; cbn in *.
      all: rewrite Htb, Hid; split; [done|]; split; [done|lia].
  - destruct (Config.get_dox_config cenv cst1) as [[c|e] cst2].
    2:{ cbn. split; [do 3 eexists; subst out0; by rewrite <- !app_assoc|].
        rewrite Htb, Hid. split; [done|]. split; [done|lia]. }
    assert (Hw2 : table (store (set_uaa_service (fun _ => mkUAA None 0) w1))
                  = table (store (world app)) /\
                  next_id (store (set_uaa_service (fun _ => mkUAA None 0) w1))
                  = next_id (store (world app)) /\
                  token_requests (set_uaa_service (fun _ => mkUAA None 0) w1)
                  = token_requests (world app)).
    { destruct w1; cbn in *. by rewrite Htb, Hid, Hreq. }
    remember (set_uaa_service (fun _ => mkUAA None 0) w1) as w2 eqn:Hw2'. clear Hw2'.
    destruct Hw2 as (Htb2 & Hid2 & Hreq2).
    unfold Main.get_access_token. cbn [world config _uaa_service printed].
    pose proof (get_access_token_frame env w2) as [Hs Hr]. unfold state_of in Hs, Hr.
    rewrite cached_token_is_valid_run.
    destruct (if cache_test env w2 then Config.Ok () else request_settings c).
    + destruct (UAA.get_access_token env w2) as [[token|e] st2]; cbn in *.
      all: split; [do 3 eexists; subst out0; by rewrite <- !app_assoc|].
      all: rewrite Hs, Htb2, Hid2; split; [done|]; split; [done|lia].
    + cbn. split; [do 3 eexists; subst out0; by rewrite <- !app_assoc|].
      unfold after_check. destruct (truthy_opt_str _); destruct w2; cbn in *.
      all: rewrite Htb2, Hid2; split; [done|]; split; [done|lia].
Qed.


(** X30: without a service key the process still starts: the
    configuration error is printed for the first check and again for the
    third, which never gets to build the UAA service and so requests no
    token; the database is tested all the same. *)
Theorem startup_without_service_key cenv env app :
  let paths := Config.possible_paths_of cenv (Config.DOX_SERVICE_KEY_PATH cenv) in
  let e := Config.FileNotFoundError paths in
  let app' := lifespan_startup cenv env app in
  Config.dox_config (config app) = None ->
  _uaa_service app = None ->
  Forall (fun p => Config.path_exists cenv p = false) paths ->
  (exists db_line,
     printed app'
     = printed app ++ [Starting; DocumentAIConfigurationError e; db_line;
                       UAAAuthenticationError (inr e); StartedSuccessfully]) /\
  world app' = state_of (test_connection env (world app)) /\
  _uaa_service app' = None /\
  Config.dox_config (config app') = None.
Proof.
  intros paths e app' Hcfg Hnone Hpaths. subst app'.
  assert (Hget : forall out,
            Config.get_dox_config cenv (Config.mkState None out)
            = (Config.Err e, Config.mkState None out)).
  { intros out. unfold Config.get_dox_config, Config.DocumentAIConfig_init,
      Config._load_service_key. cbn [Config.dox_config Config.stdout].
    fold paths. by rewrite (for_path_in_none _ _ _ _ Hpaths). }
  unfold lifespan_startup.
  destruct (config app) as [dc out] eqn:Happ. cbn in Hcfg. subst dc.
  rewrite Hget.
  set (step2 := match test_connection env (world app) with
                | (Return true, st1) => _
                | (Return false, st1) => _
                | (Raise e, st1) => _
                end).
  assert (Hst1 : step2.1 = (test_connection env (world app)).2 /\
                 exists l2, step2.2 = ((printed app ++ [Starting])
                                       ++ [DocumentAIConfigurationError e]) ++ [l2]).
  { subst step2. destruct (test_connection _ _) as [[[|]|e'] st1]; split; by eexists. }
  destruct step2 as [st1 out2]. destruct Hst1 as [Hst1 [l2 Hout2]].
  cbn [fst snd] in Hst1, Hout2. subst st1 out2.
  unfold get_uaa_service. cbn [_uaa_service config world printed].
  rewrite Hnone, Hget. cbn [_uaa_service config world printed Config.dox_config].
  split; [exists l2; by rewrite <- !app_assoc|done].
Qed.

End StartupFacts.

(* ===================================================================== *)
(** * Worked examples *)
(* ===================================================================== *)

Section Examples.
Import Py Payload World Effects Reference Samples Notions MoreSamples.
Import UAA DocumentAI Database.



(** A fresh token is cached, the cache is cleared, and the next call fetches a new one. *)
Lemma clear_cache_forces_request_witness :
  result_of (bind clear_cache (fun _ => get_access_token) fair_env cached_state)
  = Return (Some "token-1").
Proof.
  apply (proj2 (proj2 (clear_cache_forces_request fair_env cached_state)));
    [reflexivity|reflexivity|discriminate].
Defined.

(** An expired token and a reply without a token: the expired token stays cached. *)
Lemma missing_access_token_keeps_cache_witness :
  result_of (get_access_token tokenless_env expired_state) = Raise (KeyError "access_token") /\
  uaa_service (state_of (get_access_token tokenless_env expired_state))
  = mkUAA (Some "token-0") 100.
Proof.
  apply (missing_access_token_keeps_cache tokenless_env expired_state).
  - intros (tok & _ & _ & Hlt). compute in Hlt. discriminate.
  - reflexivity.
  - reflexivity.
Defined.


(** No file has been saved: the upload stops at [open]. *)
Lemma upload_document_missing_file_witness :
  exists msg,
    _upload_document "scan.pdf" (Some "token-1") fair_env fresh_state
    = (Raise (OSError msg), after_open_rb "scan.pdf" fresh_state).
Proof.
  apply (upload_document_missing_file "scan.pdf" (Some "token-1") fair_env fresh_state).
  reflexivity.
Defined.

(** The identifiers 1, 2, 3 with 4 the next one. *)
Lemma three_rows_well_numbered : well_numbered (store three_rows_state).
Proof.
  split.
  - repeat constructor.
  - cbn. repeat constructor; rewrite ?elem_of_cons, ?elem_of_nil;
      intros H; repeat destruct H as [H|H]; discriminate || done.
Defined.

(** An insert after three rows. *)
Lemma insert_invoice_well_numbered_witness :
  well_numbered (store (state_of (insert_invoice sample_args fair_env three_rows_state))).
Proof.
  apply (insert_invoice_well_numbered sample_args fair_env three_rows_state).
  exact three_rows_well_numbered.
Defined.

(** The fourth invoice is inserted and read back. *)
Lemma stored_invoice_can_be_fetched_witness :
  result_of (Router.get_invoice 4 fair_env
               (state_of (insert_invoice sample_args fair_env three_rows_state)))
  = Return (Models.mkInvoiceDetail 4 "INV-1" "Acme" (Some 4) (Some "a.pdf")
              (Some (1 # 2)%Q) "PROCESSED" None (Some 4)).
Proof.
  apply (stored_invoice_can_be_fetched sample_args fair_env three_rows_state).
  - intros n op. reflexivity.
  - exact three_rows_well_numbered.
Defined.

(** No invoice has the identifier 7. *)
Lemma get_invoice_not_found_witness :
  result_of (Router.get_invoice 7 fair_env three_rows_state)
  = Raise (HTTPException 404 "Invoice with ID 7 not found").
Proof.
  apply (proj1 (proj2 (get_invoice_not_found 7 fair_env three_rows_state))).
  - intros n op. reflexivity.
  - repeat constructor; discriminate.
Defined.

(** Three rows, two per page: the second page holds one. *)
Lemma list_page_size_witness :
  exists response,
    result_of (Router.get_all_invoices 2 2 fair_env three_rows_state) = Return response /\
    Models.total response = 1.
Proof.
  apply (list_page_size 2 2 fair_env three_rows_state).
  - intros n op. reflexivity.
  - lia.
  - lia.
Defined.

(** The instants 10, 30 and 20. *)
Lemma three_rows_distinct : distinct_instants (table (store three_rows_state)).
Proof.
  intros r1 r2 H1 H2. cbn in H1, H2.
  rewrite !elem_of_cons, elem_of_nil in H1, H2.
  destruct H1 as [->|[->|[->|[]]]], H2 as [->|[->|[->|[]]]]; by intros [=].
Defined.

(** The first two pages of one record are the first page of two. *)
Lemma list_pages_compose_witness :
  exists first next both,
    result_of (Router.get_all_invoices 1 0 fair_env three_rows_state) = Return first /\
    result_of (Router.get_all_invoices 1 (0 + 1) fair_env three_rows_state) = Return next /\
    result_of (Router.get_all_invoices (2 * 1) 0 fair_env three_rows_state) = Return both /\
    Models.invoices first ++ Models.invoices next = Models.invoices both.
Proof.
  apply (list_pages_compose 1 0 fair_env three_rows_state three_rows_state).
  - intros n op. reflexivity.
  - lia.
  - lia.
  - reflexivity.
  - exact three_rows_distinct.
Defined.

(** The only row is a failed upload with its message; the list shows none. *)
Lemma list_hides_error_messages_witness :
  STATUS <$> table (store failed_row_state) = ["FAILED"] /\
  ERROR_MESSAGE <$> table (store failed_row_state)
  = [Some "Extraction timeout after 60 seconds"] /\
  exists response,
    result_of (Router.get_all_invoices 10 0 fair_env failed_row_state) = Return response /\
    Forall (fun d => Models.error_message d = None) (Models.invoices response).
Proof.
  split; [reflexivity|]. split; [reflexivity|].
  destruct (Router.get_all_invoices 10 0 fair_env failed_row_state)
    as [[response|e] st'] eqn:Hrun; [|vm_compute in Hrun; discriminate].
  exists response. split; [reflexivity|].
  exact (list_hides_error_messages 10 0 fair_env failed_row_state response st' Hrun).
Defined.

(** A job that fails ends with HTTP 422; a temporary path that is
    refused ends with the error of the test for the file. *)
Lemma upload_invoice_outcomes_witness :
  let failed_job :=
    HTTPException 422
      "Failed to process invoice: Document extraction failed: unreadable scan" in
  let refused := OSError "File name too long" in
  ((exists detail, failed_job = HTTPException 400 detail) \/
   (exists detail, failed_job = HTTPException 422 detail) \/
   (exists msg, failed_job = OSError msg /\
                fs_fault failed_job_env Mkdir (UPLOAD_DIR failed_job_env) = Some msg) \/
   (exists msg, failed_job = OSError msg /\
                fs_refused failed_job_env
                  (Router.temp_filepath_of failed_job_env small_pdf) = Some msg)) /\
  ((exists detail, refused = HTTPException 400 detail) \/
   (exists detail, refused = HTTPException 422 detail) \/
   (exists msg, refused = OSError msg /\
                fs_fault long_name_env Mkdir (UPLOAD_DIR long_name_env) = Some msg) \/
   (exists msg, refused = OSError msg /\
                fs_refused long_name_env
                  (Router.temp_filepath_of long_name_env small_pdf) = Some msg)).
Proof.
  split.
  - apply (upload_invoice_outcomes small_pdf failed_job_env fresh_state).
    vm_compute. reflexivity.
  - apply (upload_invoice_outcomes small_pdf long_name_env fresh_state).
    vm_compute. reflexivity.
Defined.

(** A limit of 0 MB: three calls to the file system and nothing else. *)
Lemma oversized_upload_touches_nothing_witness :
  trace (state_of (Router.upload_invoice small_pdf no_room_env fresh_state))
  = [EvFs Mkdir "/tmp/uploads";
     EvFs OpenWrite "/tmp/uploads/20240113_103000_scan.pdf";
     EvFs Remove "/tmp/uploads/20240113_103000_scan.pdf"] /\
  store (state_of (Router.upload_invoice small_pdf no_room_env fresh_state))
  = store fresh_state.
Proof.
  destruct (oversized_upload_touches_nothing small_pdf no_room_env fresh_state)
    as (Htrace & Hstore & _);
    [reflexivity|reflexivity|reflexivity|vm_compute; reflexivity|].
  split; [exact Htrace|exact Hstore].
Defined.

(** An empty table. *)
Lemma fresh_state_well_numbered : well_numbered (store fresh_state).
Proof. split; constructor. Defined.

(** A one-byte PDF in a world where everything works. *)
Lemma upload_invoice_processed_witness :
  result_of (Router.upload_invoice small_pdf fair_env fresh_state)
  = Return (processed_response small_pdf parsed_inv1 1) /\
  table (store (state_of (Router.upload_invoice small_pdf fair_env fresh_state)))
  = [new_row fair_env 1 (processed_args small_pdf parsed_inv1)] /\
  result_of (Router.get_invoice 1 fair_env
               (state_of (Router.upload_invoice small_pdf fair_env fresh_state)))
  = Return (Models.mkInvoiceDetail 1 "INV-1" "Acme" (Some 1) (Some "scan.pdf")
              (Some (1 / 1024)%Q) "PROCESSED" None (Some 1)).
Proof.
  apply (upload_invoice_processed small_pdf fair_env fresh_state parsed_inv1
           (state_of (extract_invoice_data (Router.temp_filepath_of fair_env small_pdf)
                        fair_env (saved fair_env small_pdf fresh_state)))).
  - reflexivity.
  - vm_compute; discriminate.
  - reflexivity.
  - reflexivity.
  - reflexivity.
  - vm_compute; reflexivity.
  - intros n op. reflexivity.
  - exact fresh_state_well_numbered.
Defined.

(** The database refuses the first connection and serves the second. *)
Lemma upload_insert_failure_witness :
  result_of (Router.upload_invoice small_pdf flaky_db_env fresh_state)
  = Raise (HTTPException 422 "Failed to process invoice: Connection refused") /\
  connects (trace (state_of (Router.upload_invoice small_pdf flaky_db_env fresh_state)))
  = 2%nat.
Proof.
  edestruct (upload_insert_failure small_pdf flaky_db_env fresh_state parsed_inv1)
    as (Hrun & Hconnects);
    [reflexivity|vm_compute; discriminate|reflexivity|reflexivity|reflexivity
    |vm_compute; reflexivity|vm_compute; reflexivity|].
  split; [by rewrite Hrun|exact Hconnects].
Defined.

(** The key file lies in [backend/]: it is found at the second attempt. *)
Lemma load_service_key_outcome_witness :
  exists before path,
    first_existing backend_key_cenv
      (Config.possible_paths_of backend_key_cenv "dox-service-key.json") before path /\
    Config.read_json backend_key_cenv path = inr service_key /\
    [Config.Loaded "backend/dox-service-key.json"] = [] ++ [Config.Loaded path].
Proof.
  apply (load_service_key_outcome backend_key_cenv "dox-service-key.json" []
           (Config.Ok service_key) [Config.Loaded "backend/dox-service-key.json"]).
  reflexivity.
Defined.

(** An absolute path is tried three times. *)
Lemma absolute_key_path_has_no_fallback_witness :
  Config.possible_paths_of backend_key_cenv "/etc/dox/key.json"
  = ["/etc/dox/key.json"; "/etc/dox/key.json"; "/etc/dox/key.json"].
Proof. apply (absolute_key_path_has_no_fallback backend_key_cenv "/etc/dox/key.json"). reflexivity. Defined.


(** No key file: the process starts and requests no token. *)
Lemma startup_without_service_key_witness :
  (exists db_line,
     Main.printed (Main.lifespan_startup no_key_cenv fair_env new_process)
     = [Main.Starting;
        Main.DocumentAIConfigurationError
          (Config.FileNotFoundError
             ["dox-service-key.json"; "backend/dox-service-key.json";
              "/srv/backend/app/../dox-service-key.json"]);
        db_line;
        Main.UAAAuthenticationError
          (inr (Config.FileNotFoundError
                  ["dox-service-key.json"; "backend/dox-service-key.json";
                   "/srv/backend/app/../dox-service-key.json"]));
        Main.StartedSuccessfully]) /\
  token_requests (Main.world (Main.lifespan_startup no_key_cenv fair_env new_process))
  = 0%nat.
Proof.
  destruct (startup_without_service_key no_key_cenv fair_env new_process)
    as ([db_line Hprinted] & Hworld & _);
    [reflexivity|reflexivity|repeat constructor|].
  split; [by exists db_line|by rewrite Hworld].
Defined.

(** The saved upload is accepted with status 201 and the identifier job1. *)
Lemma upload_document_returns_iff_witness :
  _upload_document (Router.temp_filepath_of fair_env small_pdf) (Some "token-1") fair_env
    (saved fair_env small_pdf fresh_state)
  = (Return "job1",
     after_post_upload (Router.temp_filepath_of fair_env small_pdf)
       (saved fair_env small_pdf fresh_state)).
Proof.
  apply (proj2 (upload_document_returns_iff _ (Some "token-1") fair_env
                  (saved fair_env small_pdf fresh_state) "job1" _)).
  split; [reflexivity|]. split; [|split; [discriminate|reflexivity]].
  exists [Byte.x25]. split; [vm_compute; reflexivity|]. split; reflexivity.
Defined.

(** Capitals in the extension are accepted. *)
Lemma pdf_check_accepts_witness : endswith (lower "Scan.PDF") ".pdf" = true.
Proof.
  apply (proj2 (pdf_check_accepts "Scan.PDF")).
  exists "Scan", "P"%char, "D"%char, "F"%char. split; [reflexivity|]. auto.
Defined.

(** A complete key counts as configured. *)
Lemma health_check_report_witness :
  Health.document_ai_configured
    (Health.response (Health.health_check backend_key_cenv fair_env
                        (Config.mkState None []) fresh_state)) = true.
Proof.
  apply (proj2 (proj1 (proj2 (health_check_report backend_key_cenv fair_env
                                (Config.mkState None []) fresh_state)))).
  exists (Config.mkDocumentAIConfig "dox-service-key.json" service_key),
         (Config.JString "https://uaa.example"), (Config.JString "https://dox.example").
  repeat split; reflexivity.
Defined.

End Examples.
